(** * The Good Tracker: a verification development for [main.ts]

    The plugin keeps two arrays, [settings.habits] and [settings.entries],
    and mutates them from click handlers of four UI classes.  This file
    embeds those handlers, together with the pieces of the ECMAScript
    library they call (strings, [Number::toString], [Date]), and proves
    the properties of the behavioural specification against them. *)

From Stdlib Require Import ZArith List Lia Ascii String.
From stdpp Require Import base option list numbers gmap.

Local Open Scope Z_scope.

(** * ECMAScript strings

    A JavaScript string is a sequence of UTF-16 code units.  Strict
    equality is equality of the sequences, the relational operators
    compare code unit by code unit. *)

Module JS.

Abbreviation code_unit := N (only parsing).
Abbreviation jsstring := (list N) (only parsing).

(** A literal of the source, written with ASCII characters. *)
Definition lit (s : string) : jsstring :=
  N_of_ascii <$> list_ascii_of_string s.

(** [a === b] on strings. *)
Definition str_eqb (a b : jsstring) : bool := bool_decide (a = b).

(** [!s]: the empty string is the only falsy string. *)
Definition falsy (s : jsstring) : bool :=
  match s with [] => true | _ :: _ => false end.

(** IsLessThan on two strings: a proper prefix is smaller, otherwise the
    first differing code unit decides. *)
Fixpoint str_ltb (a b : jsstring) : bool :=
  match a, b with
  | _, [] => false
  | [], _ :: _ => true
  | x :: a', y :: b' =>
      if (x <? y)%N then true
      else if (y <? x)%N then false
      else str_ltb a' b'
  end.

(** [a <= b] is evaluated as "not [b < a]", [a >= b] as "not [a < b]". *)
Definition str_leb (a b : jsstring) : bool := negb (str_ltb b a).
Definition str_geb (a b : jsstring) : bool := negb (str_ltb a b).

(** WhiteSpace and LineTerminator code units, the ones
    [String.prototype.trim] strips. *)
Definition is_white_space (c : code_unit) : bool :=
  ((c =? 0x0009) || (c =? 0x000B) || (c =? 0x000C) || (c =? 0x0020)
   || (c =? 0x00A0) || (c =? 0xFEFF) || (c =? 0x1680)
   || ((0x2000 <=? c) && (c <=? 0x200A))
   || (c =? 0x202F) || (c =? 0x205F) || (c =? 0x3000))%N.

Definition is_line_terminator (c : code_unit) : bool :=
  ((c =? 0x000A) || (c =? 0x000D) || (c =? 0x2028) || (c =? 0x2029))%N.

Definition strippable (c : code_unit) : bool :=
  is_white_space c || is_line_terminator c.

Fixpoint trimStart (s : jsstring) : jsstring :=
  match s with
  | [] => []
  | c :: s' => if strippable c then trimStart s' else s
  end.

Definition trimEnd (s : jsstring) : jsstring := rev (trimStart (rev s)).

(** [s.trim()] *)
Definition trim (s : jsstring) : jsstring := trimEnd (trimStart s).

(** The code unit of a decimal digit [0..9]. *)
Definition digit (d : Z) : code_unit := (48 + Z.to_N d)%N.

Fixpoint digits_fuel (fuel : nat) (n : Z) : jsstring :=
  match fuel with
  | O => []
  | S fuel' =>
      if n <? 10 then [digit n]
      else digits_fuel fuel' (n / 10) ++ [digit (n mod 10)]
  end.

(** Decimal digits of a non-negative integer, most significant first.
    A number [n >= 1] has at most [log2 n + 1] decimal digits. *)
Definition digits (n : Z) : jsstring :=
  digits_fuel (S (Z.to_nat (Z.log2 n))) n.

(** Number::toString with radix 10, on the integers below 10^21 (the
    ones written without an exponent): [String(n)], [n.toString()] and
    [n] inside a template literal. *)
Definition toString (n : Z) : jsstring :=
  if n <? 0 then lit "-" ++ digits (- n) else digits n.

(** StringPad with placement start: [s.padStart(maxLength, fill)].  The
    filler is [fill] repeated and cut to the missing length. *)
Definition padStart (s : jsstring) (maxLength : Z) (fill : jsstring) : jsstring :=
  let stringLength := Z.of_nat (length s) in
  if maxLength <=? stringLength then s
  else if falsy fill then s
  else
    let fillLen := Z.to_nat (maxLength - stringLength) in
    take fillLen (mjoin (replicate fillLen fill)) ++ s.

End JS.

(** * ECMAScript dates

    A [Date] holds a time value; the handlers only build dates at local
    midnight and read calendar fields back, so the time value is kept as
    the local day number [Day(t)], counted from 1970-01-01.  [None] is
    the Invalid Date, whose getters return NaN. *)

Module JSDate.

Definition DaysInYear (y : Z) : Z :=
  if negb (y mod 4 =? 0) then 365
  else if negb (y mod 100 =? 0) then 366
  else if negb (y mod 400 =? 0) then 365
  else 366.

(** Day number of the first day of year [y]. *)
Definition DayFromYear (y : Z) : Z :=
  365 * (y - 1970) + (y - 1969) / 4 - (y - 1901) / 100 + (y - 1601) / 400.

(** YearFromTime: the largest [y] with [DayFromYear y <= d].  A year has
    146097/400 days on average, and [DayFromYear] stays within two days
    of that line, so the year is the estimate or one of its neighbours. *)
Definition YearFromDay (d : Z) : Z :=
  let y := 1970 + (400 * d) / 146097 in
  if DayFromYear (y + 1) <=? d then y + 1
  else if DayFromYear y <=? d then y
  else y - 1.

Definition InLeapYear (d : Z) : Z :=
  if DaysInYear (YearFromDay d) =? 366 then 1 else 0.

Definition DayWithinYear (d : Z) : Z := d - DayFromYear (YearFromDay d).

(** Day within the year on which month [mn] (0-based) starts. *)
Definition MonthStart (mn leap : Z) : Z :=
  match mn with
  | 0 => 0
  | 1 => 31
  | 2 => 59 + leap
  | 3 => 90 + leap
  | 4 => 120 + leap
  | 5 => 151 + leap
  | 6 => 181 + leap
  | 7 => 212 + leap
  | 8 => 243 + leap
  | 9 => 273 + leap
  | 10 => 304 + leap
  | _ => 334 + leap
  end.

Definition MonthFromDay (d : Z) : Z :=
  let w := DayWithinYear d in
  let leap := InLeapYear d in
  if w <? 31 then 0
  else if w <? 59 + leap then 1
  else if w <? 90 + leap then 2
  else if w <? 120 + leap then 3
  else if w <? 151 + leap then 4
  else if w <? 181 + leap then 5
  else if w <? 212 + leap then 6
  else if w <? 243 + leap then 7
  else if w <? 273 + leap then 8
  else if w <? 304 + leap then 9
  else if w <? 334 + leap then 10
  else 11.

Definition DateFromDay (d : Z) : Z :=
  DayWithinYear d - MonthStart (MonthFromDay d) (InLeapYear d) + 1.

(** 1970-01-01 was a Thursday; 0 is Sunday. *)
Definition WeekDay (d : Z) : Z := (d + 4) mod 7.

(** MakeDay: months outside [0..11] carry into the year, the date is an
    offset from the first of the month (date 0 is the last day of the
    month before). *)
Definition MakeDay (year month date : Z) : Z :=
  let ym := year + month / 12 in
  let mn := month mod 12 in
  let leap := if DaysInYear ym =? 366 then 1 else 0 in
  DayFromYear ym + MonthStart mn leap + date - 1.

(** TimeClip: a time value is at most 8.64e15 ms, that is 10^8 days, away
    from the epoch. *)
Definition TimeClip (d : Z) : option Z :=
  if Z.abs d <=? 100000000 then Some d else None.

(** [new Date(year, month, date)].  A year from 0 to 99 means 1900 + year. *)
Definition construct (year month date : Z) : option Z :=
  let yr := if (0 <=? year) && (year <=? 99) then 1900 + year else year in
  TimeClip (MakeDay yr month date).

Definition getFullYear (t : option Z) : option Z := YearFromDay <$> t.
Definition getMonth (t : option Z) : option Z := MonthFromDay <$> t.
Definition getDate (t : option Z) : option Z := DateFromDay <$> t.
Definition getDay (t : option Z) : option Z := WeekDay <$> t.

End JSDate.


Import JS.

(** * Data structures of the plugin *)

Module Habit.
Record t := mk {
  id : jsstring;
  name : jsstring;
  icon : jsstring;   (* lucide icon name *)
  color : jsstring;  (* hex color *)
}.
End Habit.
Abbreviation Habit := Habit.t.

Module HabitEntry.
Record t := mk {
  habitId : jsstring;
  date : jsstring;   (* YYYY-MM-DD format *)
}.
End HabitEntry.
Abbreviation HabitEntry := HabitEntry.t.

#[global] Instance Habit_inhabited : Inhabited Habit :=
  populate (Habit.mk [] [] [] []).

(** Habit objects live on the heap: the settings array, the rows of the
    settings tab and the edit modal all hold the same object, and the
    edit handler writes its fields in place.  Entries are never written
    after their creation and are kept as values. *)
Abbreviation loc := positive (only parsing).

Record HabitTrackerSettings := mkSettings {
  habits : list loc;
  entries : list HabitEntry;
}.

Definition DEFAULT_SETTINGS : HabitTrackerSettings :=
  {| habits := []; entries := [] |}.

(** What [saveData] receives: the settings object serialised, every
    reference replaced by the fields of its object. *)
Record StoreData := mkData {
  data_habits : list Habit;
  data_entries : list HabitEntry;
}.

Record World := mkWorld {
  heap : gmap loc Habit;
  settings : HabitTrackerSettings;
  disk : list StoreData;      (* payloads of saveData, latest first *)
  notices : list jsstring;    (* Notice toasts, latest first *)
}.

(** Reading through a reference.  A reference the program holds points
    to a live object; the default of the total lookup is not read in a
    well-formed state. *)
Definition deref (w : World) (r : loc) : Habit := heap w !!! r.

(** * Handlers as state transformers *)

Definition M (A : Type) : Type := World -> A * World.

#[global] Instance M_ret : MRet M := fun A a w => (a, w).
#[global] Instance M_bind : MBind M :=
  fun A B f m w => let '(a, w') := m w in f a w'.

Definition get : M World := fun w => (w, w).
Definition exec {A} (m : M A) (w : World) : World := snd (m w).
Definition eval {A} (m : M A) (w : World) : A := fst (m w).

Definition set_habits (l : list loc) : M unit := fun w =>
  (tt, mkWorld (heap w) (mkSettings l (entries (settings w))) (disk w) (notices w)).
Definition set_entries (l : list HabitEntry) : M unit := fun w =>
  (tt, mkWorld (heap w) (mkSettings (habits (settings w)) l) (disk w) (notices w)).
Definition set_heap (h : gmap loc Habit) : M unit := fun w =>
  (tt, mkWorld h (settings w) (disk w) (notices w)).

(** [new Notice(msg)] *)
Definition Notice (msg : jsstring) : M unit := fun w =>
  (tt, mkWorld (heap w) (settings w) (disk w) (msg :: notices w)).

(** An object literal evaluated: a fresh object on the heap. *)
Definition alloc (h : Habit) : M loc := fun w =>
  let r := fresh (dom (heap w)) in
  (r, mkWorld (<[r := h]> (heap w)) (settings w) (disk w) (notices w)).

(** Field writes [habit.name = v], [habit.icon = v], [habit.color = v]. *)
Definition write_name (r : loc) (v : jsstring) : M unit := fun w =>
  set_heap (alter (fun h => Habit.mk (Habit.id h) v (Habit.icon h) (Habit.color h)) r (heap w)) w.
Definition write_icon (r : loc) (v : jsstring) : M unit := fun w =>
  set_heap (alter (fun h => Habit.mk (Habit.id h) (Habit.name h) v (Habit.color h)) r (heap w)) w.
Definition write_color (r : loc) (v : jsstring) : M unit := fun w =>
  set_heap (alter (fun h => Habit.mk (Habit.id h) (Habit.name h) (Habit.icon h) v) r (heap w)) w.

(** [array.splice(index, 1)]: removes the element at [index]; nothing is
    removed when [index] is not below the length. *)
Definition splice1 {A} (index : nat) (l : list A) : list A := delete index l.

(** [array.push(x)] *)
Definition push {A} (x : A) (l : list A) : list A := l ++ [x].

(** ** HabitTrackerPlugin *)

Definition serialise (w : World) : StoreData :=
  {| data_habits := deref w <$> habits (settings w);
     data_entries := entries (settings w) |}.

(** [saveSettings]: [await this.saveData(this.settings)] *)
Definition saveSettings : M unit := fun w =>
  (tt, mkWorld (heap w) (settings w) (serialise w :: disk w) (notices w)).

(** The plugin before any data was stored. *)
Definition initial : World :=
  {| heap := ∅; settings := DEFAULT_SETTINGS; disk := []; notices := [] |}.

(** The habits of a stored payload, parsed: one fresh object each. *)
Fixpoint revive (hs : list Habit) : M (list loc) :=
  match hs with
  | [] => mret []
  | h :: hs' => r ← alloc h; rs ← revive hs'; mret (r :: rs)
  end.

(** [loadSettings]:
    [this.settings = Object.assign({}, DEFAULT_SETTINGS, await this.loadData())].
    [loadData] yields nothing when nothing was stored, and the defaults
    apply; a stored payload has both keys and replaces both. *)
Definition loadSettings (data : option StoreData) : M unit :=
  match data with
  | None =>
      set_habits (habits DEFAULT_SETTINGS);; set_entries (entries DEFAULT_SETTINGS)
  | Some d =>
      rs ← revive (data_habits d);
      set_habits rs;; set_entries (data_entries d)
  end.

(** [onload] in a new session: the heap of the old session is gone, the
    disk is what the old session left, [loadData] yields its last
    payload. *)
Definition onload (w : World) : World :=
  exec (loadSettings (head (disk w)))
    {| heap := ∅; settings := DEFAULT_SETTINGS; disk := disk w; notices := [] |}.

(** ** HabitCalendarView.renderCalendar *)

(** A number that may be NaN, converted by [String(n)] or a template. *)
Definition numToString (n : option Z) : jsstring :=
  match n with Some k => toString k | None => lit "NaN" end.

(** Iterations of [for (let i = 0; i < n; i++)]; none when [n] is NaN. *)
Definition iterations (n : option Z) : nat :=
  match n with Some k => Z.to_nat k | None => O end.

(** The values of [day] in [for (let day = 1; day <= n; day++)]. *)
Definition days_upto (n : option Z) : list Z := seqZ 1 (Z.of_nat (iterations n)).

(** [`${year}-${String(month + 1).padStart(2, '0')}-${String(day).padStart(2, '0')}`] *)
Definition dateStr (year month : Z) (day : option Z) : jsstring :=
  toString year ++ lit "-" ++ padStart (toString (month + 1)) 2 (lit "0")
    ++ lit "-" ++ padStart (numToString day) 2 (lit "0").

Record HabitIcon := mkIcon {
  icon_color : jsstring;
  icon_name : jsstring;
  icon_title : jsstring;
}.

Inductive Cell :=
| EmptyCell                       (* class "calendar-day empty" *)
| DayCell (date : jsstring)       (* the dateStr its click handler holds *)
          (today : bool)          (* class "today" *)
          (dayNumber : jsstring)
          (dayHabits : list HabitIcon).

(** [this.plugin.settings.entries.filter(e => e.date === dateStr)] *)
Definition entriesForDay (w : World) (date : jsstring) : list HabitEntry :=
  List.filter (fun e => str_eqb (HabitEntry.date e) date) (entries (settings w)).

(** [this.plugin.settings.habits.find(h => h.id === entry.habitId)] *)
Definition findHabit (w : World) (entry : HabitEntry) : option loc :=
  List.find (fun h => str_eqb (Habit.id (deref w h)) (HabitEntry.habitId entry))
    (habits (settings w)).

(** The icons of a day: one per entry whose habit is found. *)
Definition dayHabitsOf (w : World) (es : list HabitEntry) : list HabitIcon :=
  omap (fun entry =>
          habit ← findHabit w entry;
          Some (mkIcon (Habit.color (deref w habit)) (Habit.icon (deref w habit))
                  (Habit.name (deref w habit)))) es.

Definition dayCell (year month today : Z) (w : World) (day : Z) : Cell :=
  let date := dateStr year month (Some day) in
  DayCell date
    ((year =? JSDate.YearFromDay today) && (month =? JSDate.MonthFromDay today)
       && (day =? JSDate.DateFromDay today))
    (toString day)
    (dayHabitsOf w (entriesForDay w date)).

(** The cells appended to the grid after the seven day names, for
    [year = currentDate.getFullYear()] and [month = currentDate.getMonth()];
    [today] is the day number of [new Date()]. *)
Definition renderCalendar (year month today : Z) (w : World) : list Cell :=
  let firstDay := JSDate.construct year month 1 in
  let lastDay := JSDate.construct year (month + 1) 0 in
  let daysInMonth := JSDate.getDate lastDay in
  let startingDayOfWeek := JSDate.getDay firstDay in
  replicate (iterations startingDayOfWeek) EmptyCell
    ++ (dayCell year month today w <$> days_upto daysInMonth).

(** ** HabitPickerModal *)

Record Checkbox := mkCheckbox {
  cb_habit : loc;      (* the habit its change listener holds *)
  checked : bool;
}.

(** [onOpen]: one checkbox per habit, checked when the day has an entry
    of the habit. *)
Definition pickerOpen (date : jsstring) (w : World) : list Checkbox :=
  let existingEntries :=
    List.filter (fun e => str_eqb (HabitEntry.date e) date) (entries (settings w)) in
  (fun habit =>
     mkCheckbox habit
       (existsb (fun e => str_eqb (HabitEntry.habitId e) (Habit.id (deref w habit)))
          existingEntries))
    <$> habits (settings w).

(** The change listener of a checkbox, run with the state the box has
    after the click. *)
Definition onChange (date : jsstring) (habit : loc) (checked : bool) : M unit :=
  w ← get;
  (if checked then
     (* Add entry *)
     set_entries (push (HabitEntry.mk (Habit.id (deref w habit)) date)
                    (entries (settings w)))
   else
     (* Remove entry *)
     set_entries
       (List.filter
          (fun e => negb (str_eqb (HabitEntry.habitId e) (Habit.id (deref w habit))
                          && str_eqb (HabitEntry.date e) date))
          (entries (settings w))));;
  saveSettings.

(** A click on box [k] of the open modal: the browser flips the box, then
    runs its change listener. *)
Definition clickCheckbox (date : jsstring) (k : nat) (boxes : list Checkbox)
  : M (list Checkbox) :=
  match boxes !! k with
  | None => mret boxes
  | Some cb =>
      let cb' := mkCheckbox (cb_habit cb) (negb (checked cb)) in
      onChange date (cb_habit cb') (checked cb');;
      mret (<[k := cb']> boxes)
  end.


(** The click listener of a day cell: the picker opens when there is a
    habit to offer. *)
Definition onDayClick (date : jsstring) : M (option (list Checkbox)) :=
  w ← get;
  if (0 <? length (habits (settings w)))%nat then mret (Some (pickerOpen date w))
  else Notice (lit "Add some habits in settings first!");; mret None.

(** ** MonthlySummaryModal.onOpen *)

Definition monthStart (year month : Z) : jsstring :=
  toString year ++ lit "-" ++ padStart (toString (month + 1)) 2 (lit "0") ++ lit "-01".

Definition monthEnd (year month : Z) : jsstring :=
  let lastDay := JSDate.getDate (JSDate.construct year (month + 1) 0) in
  dateStr year month lastDay.

(** The [count] of one habit of the summary. *)
Definition monthlyCount (w : World) (habit : loc) (year month : Z) : nat :=
  length
    (List.filter
       (fun e =>
          str_eqb (HabitEntry.habitId e) (Habit.id (deref w habit))
          && str_geb (HabitEntry.date e) (monthStart year month)
          && str_leb (HabitEntry.date e) (monthEnd year month))
       (entries (settings w))).

Inductive Summary :=
| NoHabits                                   (* 'No habits to show.' *)
| SummaryList (items : list (HabitIcon * nat)).

Definition summaryOpen (year month : Z) (w : World) : Summary :=
  if (length (habits (settings w)) =? 0)%nat then NoHabits
  else
    SummaryList
      ((fun habit =>
          (mkIcon (Habit.color (deref w habit)) (Habit.icon (deref w habit))
             (Habit.name (deref w habit)),
           monthlyCount w habit year month))
         <$> habits (settings w)).

(** ** HabitTrackerSettingTab.display *)

(** A row of the habit list: the [habit] and [index] its two buttons
    close over. *)
Record Row := mkRow {
  row_habit : loc;
  row_index : nat;
}.

Definition display : M (list Row) := fun w =>
  (imap (fun index habit => mkRow habit index) (habits (settings w)), w).

(** Click listener of the Delete button of a row. *)
Definition onDeleteClick (habit : loc) (index : nat) : M (list Row) :=
  w ← get;
  set_habits (splice1 index (habits (settings w)));;
  (* Also remove all entries for this habit *)
  set_entries
    (List.filter
       (fun e => negb (str_eqb (HabitEntry.habitId e) (Habit.id (deref w habit))))
       (entries (settings w)));;
  saveSettings;;
  rows ← display;
  Notice (lit "Deleted habit: " ++ Habit.name (deref w habit));;
  mret rows.

(** ** AddHabitModal *)

(** Click listener of the Save button.  [habit] is [this.habit], the
    three strings are the values of the inputs, [now] is [Date.now()].
    The result tells whether the modal was closed. *)
Definition onSaveClick (habit : option loc) (nameValue iconValue colorValue : jsstring)
    (now : Z) : M bool :=
  let name := trim nameValue in
  let icon := trim iconValue in
  let color := colorValue in
  if falsy name then Notice (lit "Please enter a habit name");; mret false
  else if falsy icon then Notice (lit "Please enter an icon name");; mret false
  else
    match habit with
    | Some h =>
        (* Edit existing habit *)
        write_name h name;; write_icon h icon;; write_color h color
    | None =>
        (* Add new habit *)
        newHabit ← alloc (Habit.mk (toString now) name icon color);
        w ← get;
        set_habits (push newHabit (habits (settings w)))
    end;;
    saveSettings;;
    Notice (lit (match habit with Some _ => "Updated" | None => "Added" end)
              ++ lit " habit: " ++ name);;
    mret true.

(** The three field writes of the edit branch, as one update. *)
Definition edited (name icon color : jsstring) (h : Habit) : Habit :=
  Habit.mk (Habit.id h) name icon color.

(** * User actions

    Every mutation of the store is one of the interactions below.  The
    synchronous part of a handler (its writes and the call of [saveData])
    runs to completion.  The Delete listener then awaits the save before
    it re-renders the list of the settings tab: until it does, the rows
    on screen are the ones rendered from the store before the click, and
    a click on Delete or on Edit may land on such a stale row; the modal
    that Edit opens keeps its habit object, in the list or not, and may
    save more than once before it closes.  The notice that the Delete
    listener shows after the await is logged with the click; nothing
    reads the store in between.  The picker is a modal: while
    it is open the only events are clicks on its checkboxes and its
    closing, and its checkboxes keep their state from one click to the
    next.  At any time the application may be closed and the plugin
    loaded again. *)

Inductive UI :=
| Idle
| Picking (date : jsstring) (boxes : list Checkbox)
| Stale (rows : list Row)    (* the settings tab after a Delete click, not
                                yet re-rendered: the rows still on screen *)
| Editing (habit : loc).     (* the modal opened by Edit on such a row *)

Inductive step : World * UI -> World * UI -> Prop :=
| step_add nameValue iconValue colorValue now w :
    step (w, Idle)
         (exec (onSaveClick None nameValue iconValue colorValue now) w, Idle)
| step_edit row nameValue iconValue colorValue now w :
    row ∈ eval display w ->
    step (w, Idle)
         (exec (onSaveClick (Some (row_habit row)) nameValue iconValue colorValue now) w,
          Idle)
| step_delete row w :
    row ∈ eval display w ->
    step (w, Idle) (exec (onDeleteClick (row_habit row) (row_index row)) w, Idle)
| step_day date w :
    step (w, Idle)
         (exec (onDayClick date) w,
          match eval (onDayClick date) w with
          | Some boxes => Picking date boxes
          | None => Idle
          end)
| step_check date boxes k w :
    step (w, Picking date boxes)
         (exec (clickCheckbox date k boxes) w,
          Picking date (eval (clickCheckbox date k boxes) w))
| step_close date boxes w :
    step (w, Picking date boxes) (w, Idle)
| step_reload ui w :
    step (w, ui) (onload w, Idle)
| step_delete_pending row w :
    (* a Delete click whose listener is still awaiting the save *)
    row ∈ eval display w ->
    step (w, Idle)
         (exec (onDeleteClick (row_habit row) (row_index row)) w,
          Stale (eval display w))
| step_delete_stale rows row w :
    (* a further Delete click, on a row that was not re-rendered *)
    row ∈ rows ->
    step (w, Stale rows)
         (exec (onDeleteClick (row_habit row) (row_index row)) w, Stale rows)
| step_rerender rows w :
    (* the awaited save is done: [this.display()] *)
    step (w, Stale rows) (w, Idle)
| step_edit_stale rows row w :
    (* Edit clicked on a row that was not re-rendered *)
    row ∈ rows ->
    step (w, Stale rows) (w, Editing (row_habit row))
| step_edit_save habit nameValue iconValue colorValue now w :
    (* Save in that modal *)
    step (w, Editing habit)
         (exec (onSaveClick (Some habit) nameValue iconValue colorValue now) w,
          Editing habit)
| step_edit_close habit w :
    (* the modal closes, the list is rendered again *)
    step (w, Editing habit) (w, Idle).

Inductive reachable : World * UI -> Prop :=
| reach_initial : reachable (initial, Idle)
| reach_step c c' : reachable c -> step c c' -> reachable c'.

(** * Properties of states *)

(** The habit array holds each object once, and only live objects. *)
Definition wf (w : World) : Prop :=
  NoDup (habits (settings w)) /\
  Forall (fun r => is_Some (heap w !! r)) (habits (settings w)).

(** The ids of the habits, in display order. *)
Definition habit_ids (w : World) : list jsstring :=
  (fun r => Habit.id (deref w r)) <$> habits (settings w).

(** The entry records the pair [(hid, date)]. *)
Definition is_pair (hid date : jsstring) (e : HabitEntry) : bool :=
  str_eqb (HabitEntry.habitId e) hid && str_eqb (HabitEntry.date e) date.

(** Number of entries with the pair [(hid, date)]. *)
Definition pair_count (hid date : jsstring) (es : list HabitEntry) : nat :=
  length (List.filter (is_pair hid date) es).

(** A string without leading or trailing strippable code unit. *)
Definition trimmed (s : jsstring) : Prop :=
  (forall c s', s = c :: s' -> strippable c = false) /\
  (forall c s', s = s' ++ [c] -> strippable c = false).

(** A habit as the modal stores it: name and icon trimmed, not empty. *)
Definition tidy (h : Habit) : Prop :=
  trimmed (Habit.name h) /\ trimmed (Habit.icon h) /\
  Habit.name h <> [] /\ Habit.icon h <> [].

(** Every entry names the id of a habit of the collection. *)
Definition no_orphans (w : World) : Prop :=
  Forall (fun e => HabitEntry.habitId e ∈ habit_ids w) (entries (settings w)).

(** The checkboxes of an open picker agree with the entries: a box is
    checked exactly when its habit has an entry on the day. *)
Definition synced (date : jsstring) (boxes : list Checkbox) (w : World) : Prop :=
  Forall (fun cb =>
            checked cb =
            (0 <? pair_count (Habit.id (deref w (cb_habit cb))) date
                    (entries (settings w)))%nat) boxes.

(** The last payload written is the current store. *)
Definition persisted (w : World) : Prop :=
  match disk w with
  | [] => settings w = DEFAULT_SETTINGS
  | d :: _ => d = serialise w
  end.

(** What holds in every state the user can reach. *)
Definition inv (c : World * UI) : Prop :=
  wf (fst c) /\
  Forall (fun r => tidy (deref (fst c) r)) (habits (settings (fst c))) /\
  persisted (fst c) /\
  match snd c with
  | Idle | Stale _ | Editing _ => True
  | Picking date boxes =>
      cb_habit <$> boxes = habits (settings (fst c)) /\
      (NoDup (habit_ids (fst c)) -> synced date boxes (fst c))
  end.

(** The view is up to date: no Delete listener is waiting to re-render. *)
Definition up_to_date (ui : UI) : Prop :=
  match ui with Stale _ => False | _ => True end.

(** * The Gregorian calendar, for reference *)

Module Gregorian.

Definition leap_year (y : Z) : bool :=
  ((y mod 4 =? 0) && negb (y mod 100 =? 0)) || (y mod 400 =? 0).

(** Length of month [m] (0 is January) of year [y]. *)
Definition days_in_month (y m : Z) : Z :=
  match m with
  | 1 => if leap_year y then 29 else 28
  | 3 | 5 | 8 | 10 => 30
  | _ => 31
  end.

(** Zeller's congruence, shifted to 0 = Sunday .. 6 = Saturday.  January
    and February count as months 13 and 14 of the year before. *)
Definition weekday (y m d : Z) : Z :=
  let early := if m <? 2 then 1 else 0 in
  let y' := y - early in
  let m' := m + 1 + 12 * early in
  let K := y' mod 100 in
  let J := y' / 100 in
  let h := (d + (13 * (m' + 1)) / 5 + K + K / 4 + J / 4 + 5 * J) mod 7 in
  (h + 6) mod 7.

(** A date of the calendar, month 0-based. *)
Definition valid (y m d : Z) : Prop :=
  0 <= m <= 11 /\ 1 <= d <= days_in_month y m.

(** Chronological order: by year, then month, then day. *)
Definition earlier (a b : Z * Z * Z) : Prop :=
  let '(y1, m1, d1) := a in
  let '(y2, m2, d2) := b in
  y1 < y2 \/ (y1 = y2 /\ (m1 < m2 \/ (m1 = m2 /\ d1 < d2))).

Definition not_later (a b : Z * Z * Z) : Prop := earlier a b \/ a = b.

End Gregorian.

(** * Date strings, for reference *)

(** The shape [YYYY-MM-DD]: four digits, two digits, two digits. *)
Definition is_digit (c : code_unit) : bool := ((48 <=? c) && (c <=? 57))%N.

Definition is_YYYY_MM_DD (s : jsstring) : bool :=
  match s with
  | [y1; y2; y3; y4; h1; m1; m2; h2; d1; d2] =>
      is_digit y1 && is_digit y2 && is_digit y3 && is_digit y4
      && (h1 =? 45)%N && is_digit m1 && is_digit m2
      && (h2 =? 45)%N && is_digit d1 && is_digit d2
  | _ => false
  end.

(** The date string spelled digit by digit. *)
Definition iso_date (y m d : Z) : jsstring :=
  [digit (y / 1000); digit (y / 100 mod 10); digit (y / 10 mod 10); digit (y mod 10);
   45%N;
   digit ((m + 1) / 10); digit ((m + 1) mod 10);
   45%N;
   digit (d / 10); digit (d mod 10)].

(** The number a string of decimal digits denotes. *)
Definition decimal_value (s : jsstring) : Z :=
  fold_left (fun acc c => 10 * acc + (Z.of_N c - 48)) s 0.

(** * Sample states *)

(** Two habits added through the modal, a millisecond apart. *)
Definition two_habits : World :=
  exec (onSaveClick None (lit "Run") (lit "zap") (lit "#000000") 1700000000001)
    (exec (onSaveClick None (lit "Read") (lit "book") (lit "#ffffff") 1700000000000)
       initial).

(** Two habits created at the same reading of the clock. *)
Definition same_tick : World :=
  exec (onSaveClick None (lit "Run") (lit "zap") (lit "#000000") 1700000000000)
    (exec (onSaveClick None (lit "Read") (lit "book") (lit "#ffffff") 1700000000000)
       initial).

(** The first habit marked on 2024-03-05, then the second. *)
Definition first_marked : World :=
  exec (clickCheckbox (lit "2024-03-05") 0 (pickerOpen (lit "2024-03-05") two_habits))
    two_habits.

Definition both_marked : World :=
  exec (clickCheckbox (lit "2024-03-05") 1 (pickerOpen (lit "2024-03-05") first_marked))
    first_marked.

(** One habit with entries on 2024-01-01, 2024-01-31 and 2024-02-01. *)
Definition january : World :=
  let w0 := exec (onSaveClick None (lit "Read") (lit "book") (lit "#ffffff") 1700000000000)
              initial in
  let mark date w := exec (clickCheckbox date 0 (pickerOpen date w)) w in
  mark (lit "2024-02-01") (mark (lit "2024-01-31") (mark (lit "2024-01-01") w0)).

(** A store read from disk whose one entry is dated the 29th of February
    of year 0. *)
Definition leap_day_of_year_0 : World :=
  {| heap := {[ 1%positive := Habit.mk (lit "1700000000000") (lit "Read") (lit "book")
                                (lit "#ffffff") ]};
     settings := {| habits := [1%positive];
                    entries := [HabitEntry.mk (lit "1700000000000") (lit "0-02-29")] |};
     disk := [];
     notices := [] |}.

(** * The calendar view: the month shown

    [currentDate] is a [Date] with a time of day; its time value is kept
    in milliseconds of local time, [None] being the Invalid Date.  As for
    the day numbers above, the offset of the local zone is taken to be
    constant, so that local time differs from UTC by a shift only. *)

Module JSTime.

Definition msPerDay : Z := 86400000.

Definition Day (t : Z) : Z := t / msPerDay.

Definition TimeWithinDay (t : Z) : Z := t mod msPerDay.

Definition MakeDate (day time : Z) : Z := day * msPerDay + time.

(** TimeClip on milliseconds. *)
Definition TimeClip (t : Z) : option Z :=
  if Z.abs t <=? 8640000000000000 then Some t else None.

Definition getFullYear (t : option Z) : option Z :=
  (fun t => JSDate.YearFromDay (Day t)) <$> t.
Definition getMonth (t : option Z) : option Z :=
  (fun t => JSDate.MonthFromDay (Day t)) <$> t.
Definition getDate (t : option Z) : option Z :=
  (fun t => JSDate.DateFromDay (Day t)) <$> t.

(** [d.setMonth(month)]: the month is replaced, year, date and time of
    day are kept, and the result is normalised by MakeDay; the value is
    the new time value of [d].  A NaN month makes the date invalid.
    With a constant offset the conversions LocalTime and UTC of the
    method are one shift and its inverse, and are left out; where the
    offset changes (daylight saving) the method may move the time of day,
    which this definition does not describe. *)
Definition setMonth (t month : option Z) : option Z :=
  t0 ← t;
  m ← month;
  TimeClip
    (MakeDate
       (JSDate.MakeDay (JSDate.YearFromDay (Day t0)) m (JSDate.DateFromDay (Day t0)))
       (TimeWithinDay t0)).

End JSTime.

(** ** HabitCalendarView.renderView *)

(** Click listener of the button "previous":
    [this.currentDate.setMonth(this.currentDate.getMonth() - 1)] *)
Definition onPrevClick (currentDate : option Z) : option Z :=
  JSTime.setMonth currentDate ((fun m => m - 1) <$> JSTime.getMonth currentDate).

(** Click listener of the button "next". *)
Definition onNextClick (currentDate : option Z) : option Z :=
  JSTime.setMonth currentDate ((fun m => m + 1) <$> JSTime.getMonth currentDate).

(** Click listener of the button "Today": [this.currentDate = new Date()],
    [now] being the clock. *)
Definition onTodayClick (now : Z) : option Z := JSTime.TimeClip now.

(** What [renderView] puts under the header: the cells of the month of
    [currentDate] and, when there is no habit, the empty-state text.  An
    invalid [currentDate] gives NaN for year and month, the two dates
    built from them are invalid and no cell is rendered. *)
Record View := mkView {
  view_cells : list Cell;
  view_empty_state : bool;
}.

Definition renderView (currentDate : option Z) (now : Z) (w : World) : View :=
  {| view_cells :=
       match JSTime.getFullYear currentDate, JSTime.getMonth currentDate with
       | Some year, Some month => renderCalendar year month (JSTime.Day now) w
       | _, _ => []
       end;
     view_empty_state := (length (habits (settings w)) =? 0)%nat |}.

(** The dates a cell stands for, and its "today" mark. *)
Definition cell_date (c : Cell) : option jsstring :=
  match c with EmptyCell => None | DayCell date _ _ _ => Some date end.

Definition cell_today (c : Cell) : bool :=
  match c with EmptyCell => false | DayCell _ today _ _ => today end.

Definition cell_icons (c : Cell) : list HabitIcon :=
  match c with EmptyCell => [] | DayCell _ _ _ icons => icons end.

(** The month after and the month before, for reference. *)
Definition next_month (ym : Z * Z) : Z * Z :=
  if snd ym =? 11 then (fst ym + 1, 0) else (fst ym, snd ym + 1).

Definition prev_month (ym : Z * Z) : Z * Z :=
  if snd ym =? 0 then (fst ym - 1, 11) else (fst ym, snd ym - 1).

(** Year, month and date of a time value. *)
Definition fields (t : Z) : Z * Z * Z :=
  (JSDate.YearFromDay (JSTime.Day t), JSDate.MonthFromDay (JSTime.Day t),
   JSDate.DateFromDay (JSTime.Day t)).

(** A time value at a given date and time of day. *)
Definition at_date (y m d time : Z) : Z :=
  JSTime.MakeDate (JSDate.MakeDay y m d) time.

(** The icon element made for a habit: its colour, its icon and its
    name as the title. *)
Definition habitIcon (h : Habit) : HabitIcon :=
  mkIcon (Habit.color h) (Habit.icon h) (Habit.name h).

(** The counts shown by the summary, in the order of the habits. *)
Definition summary_counts (s : Summary) : list nat :=
  match s with NoHabits => [] | SummaryList items => snd <$> items end.

(** The entry lies between the two bounds of the summary. *)
Definition in_month (year month : Z) (e : HabitEntry) : bool :=
  str_geb (HabitEntry.date e) (monthStart year month)
  && str_leb (HabitEntry.date e) (monthEnd year month).

(** * The workspace

    The leaves of the workspace, in order, each with the type of the view
    it shows; a leaf is named by its position. *)

Definition VIEW_TYPE_HABIT_CALENDAR : jsstring := lit "habit-calendar-view".

Abbreviation Workspace := (list jsstring) (only parsing).

Fixpoint leavesOfType_from (i : nat) (type : jsstring) (ws : list jsstring)
  : list nat :=
  match ws with
  | [] => []
  | t :: ws' =>
      if str_eqb t type then i :: leavesOfType_from (S i) type ws'
      else leavesOfType_from (S i) type ws'
  end.

(** [workspace.getLeavesOfType(type)] *)
Definition getLeavesOfType (type : jsstring) (ws : Workspace) : list nat :=
  leavesOfType_from O type ws.

(** [workspace.getLeaf('tab')]: a new leaf in a new tab, with the empty
    view. *)
Definition getLeaf_tab (ws : Workspace) : nat * Workspace :=
  (length ws, ws ++ [lit "empty"]).

(** [leaf.setViewState({ type, active: true })] *)
Definition setViewState (leaf : nat) (type : jsstring) (ws : Workspace) : Workspace :=
  <[leaf := type]> ws.

(** [workspace.detachLeavesOfType(type)] *)
Definition detachLeavesOfType (type : jsstring) (ws : Workspace) : Workspace :=
  List.filter (fun t => negb (str_eqb t type)) ws.

(** [activateView]: the leaf handed to [workspace.revealLeaf] and the
    workspace it leaves. *)
Definition activateView (ws : Workspace) : nat * Workspace :=
  let leaves := getLeavesOfType VIEW_TYPE_HABIT_CALENDAR ws in
  match leaves with
  | leaf :: _ =>
      (* A leaf with our view already exists, use that *)
      (leaf, ws)
  | [] =>
      (* Create a new leaf in the main area *)
      let '(leaf, ws1) := getLeaf_tab ws in
      (leaf, setViewState leaf VIEW_TYPE_HABIT_CALENDAR ws1)
  end.

Definition onunload (ws : Workspace) : Workspace :=
  detachLeavesOfType VIEW_TYPE_HABIT_CALENDAR ws.

(** * AddHabitModal: the icon field *)

(** Common lucide icon suggestions *)
Definition SUGGESTED_ICONS : list jsstring :=
  lit <$> [ "check-circle"; "heart"; "star"; "sun"; "moon"; "coffee"; "book";
            "dumbbell"; "apple"; "droplet"; "zap"; "music"; "camera"; "pen-tool";
            "activity"; "target"; "trending-up"; "smile"; "brain"; "leaf" ]%string.

(** [updateIconPreview]: the preview is emptied, then, when the trimmed
    value of the icon input is not empty, the icon of that name is set in
    it in the colour of the colour input.  The result is what the preview
    shows: nothing, or an icon name and a colour. *)
Definition updateIconPreview (iconValue colorValue : jsstring)
  : option (jsstring * jsstring) :=
  let iconName := trim iconValue in
  if falsy iconName then None else Some (iconName, colorValue).

(** The preview a modal opens with ([onOpen]): the element is created
    empty and, for an existing habit, the habit's icon is set in it; no
    colour is given to it, and [updateIconPreview] does not run before
    the first event of the icon input, of the colour picker or of a
    suggestion.  The result is the icon shown, if any, with the colour
    given to it, if any. *)
Definition previewOnOpen (habit : option Habit)
  : option (jsstring * option jsstring) :=
  (fun h => (Habit.icon h, @None jsstring)) <$> habit.

(** Click listener of a suggested icon: the icon input takes the name,
    then the preview is updated.  The result is the value of the input
    and the preview. *)
Definition onSuggestionClick (iconName colorValue : jsstring)
  : jsstring * option (jsstring * jsstring) :=
  (iconName, updateIconPreview iconName colorValue).

(** * Proofs *)

(** ** Strings *)

Lemma str_eqb_eq (a b : jsstring) : str_eqb a b = true <-> a = b.
Proof. unfold str_eqb. apply bool_decide_eq_true. Qed.

Lemma str_eqb_neq (a b : jsstring) : str_eqb a b = false <-> a <> b.
Proof. unfold str_eqb. apply bool_decide_eq_false. Qed.

Lemma trimStart_head (s : jsstring) c s' :
  trimStart s = c :: s' -> strippable c = false.
Proof.
  induction s as [|x s IH]; simpl; [discriminate|].
  destruct (strippable x) eqn:E; [exact IH|].
  intros [= <- _]. exact E.
Qed.

Lemma trimStart_suffix (s : jsstring) : exists p, s = p ++ trimStart s.
Proof.
  induction s as [|x s [p IH]]; simpl.
  - by exists [].
  - destruct (strippable x).
    + exists (x :: p). simpl. by f_equal.
    + by exists [].
Qed.

Lemma trim_trimmed (s : jsstring) : trimmed (trim s).
Proof.
  unfold trim, trimEnd. split.
  - intros c s' H.
    destruct (trimStart (rev (trimStart s))) as [|z r] eqn:E.
    + simpl in H. discriminate.
    + (* the first character of the result is the first of [trimStart s] *)
      pose proof (trimStart_suffix (rev (trimStart s))) as [p Hp].
      rewrite E in Hp.
      assert (Hrev : trimStart s = rev (z :: r) ++ rev p).
      { rewrite <- rev_app_distr, <- Hp, rev_involutive. done. }
      rewrite H in Hrev.
      destruct (trimStart s) as [|c0 s0] eqn:E0.
      { simpl in Hrev. destruct s'; discriminate. }
      simpl in Hrev. injection Hrev as -> _.
      by eapply trimStart_head.
  - intros c s' H.
    assert (Hr : trimStart (rev (trimStart s)) = c :: rev s').
    { rewrite <- (rev_involutive (trimStart (rev (trimStart s)))), H.
      rewrite rev_app_distr. done. }
    by eapply trimStart_head.
Qed.

(** ** Number::toString *)

Lemma log2_div10 (n : Z) : 10 <= n -> Z.log2 (n / 10) < Z.log2 n.
Proof.
  intros H.
  assert (H2 : n / 10 <= n / 2).
  { apply Z.div_le_lower_bound; [lia|].
    pose proof (Z.mul_div_le n 10 ltac:(lia)). lia. }
  assert (H5 : 0 < n / 2) by (apply Z.div_str_pos; lia).
  pose proof (Z.log2_double (n / 2) H5) as Hd.
  pose proof (Z.mul_div_le n 2 ltac:(lia)) as Hm.
  pose proof (Z.log2_le_mono _ _ Hm).
  pose proof (Z.log2_le_mono _ _ H2). lia.
Qed.

Lemma digits_fuel_enough (f1 f2 : nat) (n : Z) :
  0 <= n -> Z.log2 n < Z.of_nat f1 -> Z.log2 n < Z.of_nat f2 ->
  digits_fuel f1 n = digits_fuel f2 n.
Proof.
  revert f2 n. induction f1 as [|f1 IH]; intros f2 n Hn H1 H2.
  - pose proof (Z.log2_nonneg n). lia.
  - destruct f2 as [|f2]; [pose proof (Z.log2_nonneg n); lia|].
    simpl. destruct (Z.ltb_spec n 10) as [|Hge]; [done|].
    f_equal. pose proof (log2_div10 n Hge).
    apply IH; [apply Z.div_pos; lia|lia|lia].
Qed.

Lemma digits_eq (n : Z) :
  0 <= n ->
  digits n = if n <? 10 then [digit n] else digits (n / 10) ++ [digit (n mod 10)].
Proof.
  intros Hn. unfold digits at 1. simpl.
  destruct (Z.ltb_spec n 10) as [|Hge]; [done|].
  f_equal. unfold digits. pose proof (log2_div10 n Hge).
  pose proof (Z.log2_nonneg (n / 10)).
  apply digits_fuel_enough; [apply Z.div_pos; lia|lia|lia].
Qed.

Lemma digits_1 (n : Z) : 0 <= n < 10 -> digits n = [digit n].
Proof.
  intros H. rewrite digits_eq by lia.
  destruct (Z.ltb_spec n 10); [done|lia].
Qed.

Lemma digits_2 (n : Z) :
  10 <= n < 100 -> digits n = [digit (n / 10); digit (n mod 10)].
Proof.
  intros H. rewrite digits_eq by lia.
  destruct (Z.ltb_spec n 10); [lia|].
  rewrite digits_1; [done|]. split; [apply Z.div_pos; lia|].
  apply Z.div_lt_upper_bound; lia.
Qed.

Lemma digits_3 (n : Z) :
  100 <= n < 1000 ->
  digits n = [digit (n / 100); digit (n / 10 mod 10); digit (n mod 10)].
Proof.
  intros H. rewrite digits_eq by lia.
  destruct (Z.ltb_spec n 10); [lia|].
  rewrite digits_2.
  - rewrite Z.div_div by lia. done.
  - split; [apply Z.div_le_lower_bound; lia|apply Z.div_lt_upper_bound; lia].
Qed.

Lemma digits_4 (n : Z) :
  1000 <= n < 10000 ->
  digits n = [digit (n / 1000); digit (n / 100 mod 10); digit (n / 10 mod 10);
              digit (n mod 10)].
Proof.
  intros H. rewrite digits_eq by lia.
  destruct (Z.ltb_spec n 10); [lia|].
  rewrite digits_3.
  - rewrite !Z.div_div by lia. done.
  - split; [apply Z.div_le_lower_bound; lia|apply Z.div_lt_upper_bound; lia].
Qed.

Lemma toString_nonneg (n : Z) : 0 <= n -> toString n = digits n.
Proof. intros H. unfold toString. destruct (Z.ltb_spec n 0); [lia|done]. Qed.

Lemma decimal_value_snoc (s : jsstring) (c : N) :
  decimal_value (s ++ [c]) = 10 * decimal_value s + (Z.of_N c - 48).
Proof. unfold decimal_value. by rewrite fold_left_app. Qed.

Lemma digit_value (d : Z) : 0 <= d -> Z.of_N (digit d) - 48 = d.
Proof. intros H. unfold digit. lia. Qed.

Lemma decimal_value_digits (n : Z) : 0 <= n -> decimal_value (digits n) = n.
Proof.
  revert n. apply (Zlt_0_ind (fun n => decimal_value (digits n) = n)).
  intros n IH Hn.
  rewrite digits_eq by done.
  destruct (Z.ltb_spec n 10) as [Hlt|Hge].
  - unfold decimal_value. simpl. rewrite digit_value; lia.
  - rewrite decimal_value_snoc, digit_value by (apply Z.mod_pos_bound; lia).
    rewrite IH.
    + pose proof (Z.div_mod n 10 ltac:(lia)). lia.
    + split; [apply Z.div_pos; lia|apply Z.div_lt_upper_bound; lia].
Qed.

Lemma digits_head (n : Z) :
  0 <= n -> exists d s, digits n = digit d :: s /\ 0 <= d <= 9.
Proof.
  revert n.
  apply (Zlt_0_ind (fun n => exists d s, digits n = digit d :: s /\ 0 <= d <= 9)).
  intros n IH Hn.
  rewrite digits_eq by done.
  destruct (Z.ltb_spec n 10) as [Hlt|Hge].
  - exists n, []. split; [done|lia].
  - destruct (IH (n / 10)) as (d & s & -> & Hd).
    + split; [apply Z.div_pos; lia|apply Z.div_lt_upper_bound; lia].
    + exists d, (s ++ [digit (n mod 10)]). done.
Qed.

Lemma toString_inj (a b : Z) : toString a = toString b -> a = b.
Proof.
  unfold toString.
  destruct (Z.ltb_spec a 0) as [Ha|Ha], (Z.ltb_spec b 0) as [Hb|Hb]; intros H.
  - simpl in H. injection H as H.
    apply (f_equal decimal_value) in H.
    rewrite !decimal_value_digits in H by lia. lia.
  - destruct (digits_head b Hb) as (d & s & E & Hd). rewrite E in H.
    simpl in H. injection H as H _. unfold digit in H. lia.
  - destruct (digits_head a Ha) as (d & s & E & Hd). rewrite E in H.
    simpl in H. injection H as H _. unfold digit in H. lia.
  - apply (f_equal decimal_value) in H.
    rewrite !decimal_value_digits in H by lia. lia.
Qed.

(** ** Padding and the date template *)

Lemma pad2_digits (k : Z) :
  0 <= k <= 99 ->
  padStart (toString k) 2 (lit "0") = [digit (k / 10); digit (k mod 10)].
Proof.
  intros H. rewrite toString_nonneg by lia.
  destruct (Z.ltb_spec k 10) as [Hlt|Hge].
  - rewrite digits_1 by lia.
    rewrite Z.div_small, Z.mod_small by lia. done.
  - rewrite digits_2 by lia. done.
Qed.

Lemma dateStr_iso (y m d : Z) :
  1000 <= y <= 9999 -> 0 <= m <= 11 -> 0 <= d <= 99 ->
  dateStr y m (Some d) = iso_date y m d.
Proof.
  intros Hy Hm Hd. unfold dateStr, numToString.
  rewrite !pad2_digits by lia.
  rewrite toString_nonneg, digits_4 by lia. done.
Qed.

Lemma digit_is_digit (d : Z) : 0 <= d <= 9 -> is_digit (digit d) = true.
Proof. intros H. unfold is_digit, digit. rewrite andb_true_iff, !N.leb_le. lia. Qed.

Lemma iso_date_shape (y m d : Z) :
  1000 <= y <= 9999 -> 0 <= m <= 11 -> 0 <= d <= 99 ->
  is_YYYY_MM_DD (iso_date y m d) = true.
Proof.
  intros Hy Hm Hd. unfold is_YYYY_MM_DD, iso_date.
  pose proof (Z.mod_pos_bound (y / 100) 10 ltac:(lia)).
  pose proof (Z.mod_pos_bound (y / 10) 10 ltac:(lia)).
  pose proof (Z.mod_pos_bound y 10 ltac:(lia)).
  pose proof (Z.mod_pos_bound (m + 1) 10 ltac:(lia)).
  pose proof (Z.mod_pos_bound d 10 ltac:(lia)).
  assert (0 <= y / 1000 <= 9)
    by (split; [apply Z.div_pos; lia|apply Z.lt_succ_r, Z.div_lt_upper_bound; lia]).
  assert (0 <= (m + 1) / 10 <= 9)
    by (split; [apply Z.div_pos; lia|apply Z.lt_succ_r, Z.div_lt_upper_bound; lia]).
  assert (0 <= d / 10 <= 9)
    by (split; [apply Z.div_pos; lia|apply Z.lt_succ_r, Z.div_lt_upper_bound; lia]).
  rewrite !digit_is_digit by lia. done.
Qed.

(** ** Order of date strings *)

Lemma str_ltb_digit (a b : Z) (s t : jsstring) :
  0 <= a <= 9 -> 0 <= b <= 9 ->
  str_ltb (digit a :: s) (digit b :: t) =
  if a <? b then true else if b <? a then false else str_ltb s t.
Proof.
  intros Ha Hb. simpl. unfold digit.
  destruct (Z.ltb_spec a b), (Z.ltb_spec b a),
    (N.ltb_spec (48 + Z.to_N a) (48 + Z.to_N b)),
    (N.ltb_spec (48 + Z.to_N b) (48 + Z.to_N a)); try done; lia.
Qed.

Lemma str_ltb_same (c : N) (s t : jsstring) :
  str_ltb (c :: s) (c :: t) = str_ltb s t.
Proof. simpl. by rewrite N.ltb_irrefl. Qed.

Lemma decimal_4 (y : Z) :
  1000 <= y <= 9999 ->
  exists a b c d,
    y / 1000 = a /\ y / 100 mod 10 = b /\ y / 10 mod 10 = c /\ y mod 10 = d /\
    0 <= a <= 9 /\ 0 <= b <= 9 /\ 0 <= c <= 9 /\ 0 <= d <= 9 /\
    y = 1000 * a + 100 * b + 10 * c + d.
Proof.
  intros H. eexists _, _, _, _. repeat (split; [reflexivity|]).
  Z.div_mod_to_equations. lia.
Qed.

Lemma decimal_2 (k : Z) :
  0 <= k <= 99 ->
  exists a b, k / 10 = a /\ k mod 10 = b /\ 0 <= a <= 9 /\ 0 <= b <= 9 /\
              k = 10 * a + b.
Proof.
  intros H. eexists _, _. repeat (split; [reflexivity|]).
  Z.div_mod_to_equations. lia.
Qed.

Lemma iso_date_ltb (y1 m1 d1 y2 m2 d2 : Z) :
  1000 <= y1 <= 9999 -> 0 <= m1 <= 11 -> 0 <= d1 <= 99 ->
  1000 <= y2 <= 9999 -> 0 <= m2 <= 11 -> 0 <= d2 <= 99 ->
  str_ltb (iso_date y1 m1 d1) (iso_date y2 m2 d2) = true <->
  Gregorian.earlier (y1, m1, d1) (y2, m2, d2).
Proof.
  intros Hy1 Hm1 Hd1 Hy2 Hm2 Hd2. unfold iso_date, Gregorian.earlier.
  destruct (decimal_4 y1 Hy1) as (a1 & b1 & c1 & e1 & -> & -> & -> & -> & ? & ? & ? & ? & Ey1).
  destruct (decimal_4 y2 Hy2) as (a2 & b2 & c2 & e2 & -> & -> & -> & -> & ? & ? & ? & ? & Ey2).
  destruct (decimal_2 (m1 + 1) ltac:(lia)) as (p1 & q1 & -> & -> & ? & ? & Em1).
  destruct (decimal_2 (m2 + 1) ltac:(lia)) as (p2 & q2 & -> & -> & ? & ? & Em2).
  destruct (decimal_2 d1 ltac:(lia)) as (u1 & v1 & -> & -> & ? & ? & Ed1).
  destruct (decimal_2 d2 ltac:(lia)) as (u2 & v2 & -> & -> & ? & ? & Ed2).
  rewrite !str_ltb_digit, str_ltb_same, !str_ltb_digit, str_ltb_same,
    !str_ltb_digit by lia.
  simpl.
  repeat match goal with
         | |- context [?a <? ?b] => destruct (Z.ltb_spec a b)
         end; split; intros; try done; lia.
Qed.

Lemma not_later_iff (a b : Z * Z * Z) :
  Gregorian.not_later a b <-> ~ Gregorian.earlier b a.
Proof.
  destruct a as [[y1 m1] d1], b as [[y2 m2] d2].
  unfold Gregorian.not_later, Gregorian.earlier. split.
  - intros [H|[= -> -> ->]]; lia.
  - intros H.
    destruct (decide (y1 = y2 /\ m1 = m2 /\ d1 = d2)) as [(-> & -> & ->)|Hne].
    + by right.
    + left. lia.
Qed.

Lemma iso_date_leb (y1 m1 d1 y2 m2 d2 : Z) :
  1000 <= y1 <= 9999 -> 0 <= m1 <= 11 -> 0 <= d1 <= 99 ->
  1000 <= y2 <= 9999 -> 0 <= m2 <= 11 -> 0 <= d2 <= 99 ->
  str_leb (iso_date y1 m1 d1) (iso_date y2 m2 d2) = true <->
  Gregorian.not_later (y1, m1, d1) (y2, m2, d2).
Proof.
  intros. unfold str_leb. rewrite negb_true_iff, not_later_iff.
  rewrite <- iso_date_ltb by done.
  destruct (str_ltb _ _); split; congruence.
Qed.

Lemma iso_date_geb (y1 m1 d1 y2 m2 d2 : Z) :
  1000 <= y1 <= 9999 -> 0 <= m1 <= 11 -> 0 <= d1 <= 99 ->
  1000 <= y2 <= 9999 -> 0 <= m2 <= 11 -> 0 <= d2 <= 99 ->
  str_geb (iso_date y1 m1 d1) (iso_date y2 m2 d2) = true <->
  Gregorian.not_later (y2, m2, d2) (y1, m1, d1).
Proof.
  intros. unfold str_geb. rewrite negb_true_iff, not_later_iff.
  rewrite <- iso_date_ltb by done.
  destruct (str_ltb _ _); split; congruence.
Qed.

(** ** The day arithmetic of [Date] *)

Lemma DaysInYear_leap (y : Z) :
  JSDate.DaysInYear y = if Gregorian.leap_year y then 366 else 365.
Proof.
  unfold JSDate.DaysInYear, Gregorian.leap_year.
  destruct (Z.eqb_spec (y mod 4) 0), (Z.eqb_spec (y mod 100) 0),
    (Z.eqb_spec (y mod 400) 0); simpl; try done;
    exfalso; Z.div_mod_to_equations; lia.
Qed.

Lemma DayFromYear_step (y : Z) :
  JSDate.DayFromYear (y + 1) = JSDate.DayFromYear y + JSDate.DaysInYear y.
Proof.
  unfold JSDate.DayFromYear, JSDate.DaysInYear.
  replace (y + 1 - 1970) with (y - 1969) by lia.
  replace (y + 1 - 1969) with (y - 1968) by lia.
  replace (y + 1 - 1901) with (y - 1900) by lia.
  replace (y + 1 - 1601) with (y - 1600) by lia.
  destruct (Z.eqb_spec (y mod 4) 0), (Z.eqb_spec (y mod 100) 0),
    (Z.eqb_spec (y mod 400) 0); simpl; Z.div_mod_to_equations; lia.
Qed.

Lemma DaysInYear_range (y : Z) : 365 <= JSDate.DaysInYear y <= 366.
Proof. rewrite DaysInYear_leap. destruct (Gregorian.leap_year y); lia. Qed.

Lemma DayFromYear_mono (a b : Z) :
  a <= b -> JSDate.DayFromYear a <= JSDate.DayFromYear b.
Proof.
  intros H. unfold JSDate.DayFromYear. Z.div_mod_to_equations. lia.
Qed.

Lemma YearFromDay_spec (d : Z) :
  JSDate.DayFromYear (JSDate.YearFromDay d) <= d
  < JSDate.DayFromYear (JSDate.YearFromDay d + 1).
Proof.
  unfold JSDate.YearFromDay.
  set (y := 1970 + 400 * d / 146097).
  assert (Hlo : JSDate.DayFromYear (y - 1) <= d).
  { unfold JSDate.DayFromYear, y. Z.div_mod_to_equations. lia. }
  assert (Hhi : d < JSDate.DayFromYear (y + 2)).
  { unfold JSDate.DayFromYear, y. Z.div_mod_to_equations. lia. }
  destruct (Z.leb_spec (JSDate.DayFromYear (y + 1)) d).
  - replace (y + 1 + 1) with (y + 2) by lia. lia.
  - destruct (Z.leb_spec (JSDate.DayFromYear y) d).
    + lia.
    + replace (y - 1 + 1) with y by lia. lia.
Qed.

Lemma YearFromDay_unique (d y : Z) :
  JSDate.DayFromYear y <= d < JSDate.DayFromYear (y + 1) ->
  JSDate.YearFromDay d = y.
Proof.
  intros H. pose proof (YearFromDay_spec d) as S.
  destruct (Z.lt_trichotomy (JSDate.YearFromDay d) y) as [Hlt|[->|Hgt]]; [|done|].
  - pose proof (DayFromYear_mono (JSDate.YearFromDay d + 1) y ltac:(lia)). lia.
  - pose proof (DayFromYear_mono (y + 1) (JSDate.YearFromDay d) ltac:(lia)). lia.
Qed.

Lemma month_cases (m : Z) :
  0 <= m <= 11 ->
  m = 0 \/ m = 1 \/ m = 2 \/ m = 3 \/ m = 4 \/ m = 5 \/ m = 6 \/ m = 7 \/
  m = 8 \/ m = 9 \/ m = 10 \/ m = 11.
Proof. lia. Qed.

Ltac each_month H :=
  destruct (month_cases _ H) as
    [->|[->|[->|[->|[->|[->|[->|[->|[->|[->|[->| ->]]]]]]]]]]].

Lemma MakeDay_within (y m d : Z) :
  Gregorian.valid y m d ->
  JSDate.MakeDay y m d =
  JSDate.DayFromYear y
  + JSDate.MonthStart m (if Gregorian.leap_year y then 1 else 0) + d - 1.
Proof.
  intros [Hm Hd]. unfold JSDate.MakeDay.
  rewrite (Z.div_small m 12), (Z.mod_small m 12) by lia.
  replace (y + 0) with y by lia.
  rewrite DaysInYear_leap. by destruct (Gregorian.leap_year y).
Qed.

Lemma MakeDay_year (y m d : Z) :
  Gregorian.valid y m d ->
  JSDate.DayFromYear y <= JSDate.MakeDay y m d < JSDate.DayFromYear (y + 1).
Proof.
  intros H. rewrite MakeDay_within by done. destruct H as [Hm Hd].
  rewrite DayFromYear_step, DaysInYear_leap.
  unfold Gregorian.days_in_month in Hd.
  each_month Hm; destruct (Gregorian.leap_year y); simpl in *; lia.
Qed.

(** Reading the fields of a date built from a calendar date gives the
    calendar date back. *)
Lemma fields_of_MakeDay (y m d : Z) :
  Gregorian.valid y m d ->
  JSDate.YearFromDay (JSDate.MakeDay y m d) = y /\
  JSDate.MonthFromDay (JSDate.MakeDay y m d) = m /\
  JSDate.DateFromDay (JSDate.MakeDay y m d) = d.
Proof.
  intros H.
  assert (Hy : JSDate.YearFromDay (JSDate.MakeDay y m d) = y)
    by (apply YearFromDay_unique, MakeDay_year, H).
  assert (Hm : JSDate.MonthFromDay (JSDate.MakeDay y m d) = m).
  { unfold JSDate.MonthFromDay, JSDate.DayWithinYear, JSDate.InLeapYear.
    rewrite Hy, MakeDay_within, DaysInYear_leap by done.
    destruct H as [Hm Hd]. unfold Gregorian.days_in_month in Hd.
    each_month Hm; destruct (Gregorian.leap_year y); simpl in *;
      repeat match goal with
             | |- context [?a <? ?b] => destruct (Z.ltb_spec a b); try lia
             end. }
  split; [done|]. split; [done|].
  unfold JSDate.DateFromDay, JSDate.DayWithinYear, JSDate.InLeapYear.
  rewrite Hm, Hy, MakeDay_within, DaysInYear_leap by done.
  destruct (Gregorian.leap_year y); simpl; lia.
Qed.

Lemma days_in_month_range (y m : Z) : 28 <= Gregorian.days_in_month y m <= 31.
Proof.
  unfold Gregorian.days_in_month.
  destruct (Gregorian.leap_year y); repeat case_match; lia.
Qed.

(** Day 0 of the next month is the last day of the month. *)
Lemma MakeDay_last (y m : Z) :
  0 <= m <= 11 ->
  JSDate.MakeDay y (m + 1) 0 = JSDate.MakeDay y m (Gregorian.days_in_month y m).
Proof.
  intros Hm.
  rewrite (MakeDay_within y m)
    by (split; [done|pose proof (days_in_month_range y m); lia]).
  unfold JSDate.MakeDay.
  destruct (decide (m = 11)) as [->|Hne].
  - change (11 + 1) with 12. change (12 / 12) with 1. change (12 mod 12) with 0.
    rewrite DayFromYear_step, !DaysInYear_leap. unfold Gregorian.days_in_month.
    destruct (Gregorian.leap_year y), (Gregorian.leap_year (y + 1)); simpl; lia.
  - rewrite (Z.div_small (m + 1) 12), (Z.mod_small (m + 1) 12) by lia.
    replace (y + 0) with y by lia. rewrite DaysInYear_leap.
    unfold Gregorian.days_in_month.
    each_month Hm; destruct (Gregorian.leap_year y); simpl; lia.
Qed.

Lemma last_day_of_month (y m : Z) :
  0 <= m <= 11 ->
  JSDate.DateFromDay (JSDate.MakeDay y (m + 1) 0) = Gregorian.days_in_month y m.
Proof.
  intros Hm. rewrite MakeDay_last by done.
  apply fields_of_MakeDay. split; [done|].
  pose proof (days_in_month_range y m). lia.
Qed.

(** The weekday of the first of a month agrees with Zeller's congruence. *)
Lemma WeekDay_zeller (y m d : Z) :
  0 <= m <= 11 ->
  JSDate.WeekDay (JSDate.MakeDay y m d) = Gregorian.weekday y m d.
Proof.
  intros Hm. unfold JSDate.WeekDay, JSDate.MakeDay.
  rewrite (Z.div_small m 12), (Z.mod_small m 12) by lia.
  replace (y + 0) with y by lia.
  unfold Gregorian.weekday, JSDate.DayFromYear, JSDate.DaysInYear.
  each_month Hm; simpl;
    destruct (Z.eqb_spec (y mod 4) 0), (Z.eqb_spec (y mod 100) 0),
      (Z.eqb_spec (y mod 400) 0); simpl; Z.div_mod_to_equations; lia.
Qed.

(** ** The [Date] constructor *)

Lemma MonthStart_range (mn leap : Z) :
  0 <= leap <= 1 -> 0 <= JSDate.MonthStart mn leap <= 335.
Proof. intros H. unfold JSDate.MonthStart. repeat case_match; lia. Qed.

Lemma TimeClip_in_range (y m d : Z) :
  -271820 <= y <= 275759 -> 0 <= m <= 12 -> 0 <= d <= 31 ->
  JSDate.TimeClip (JSDate.MakeDay y m d) = Some (JSDate.MakeDay y m d).
Proof.
  intros Hy Hm Hd. unfold JSDate.TimeClip.
  destruct (Z.leb_spec (Z.abs (JSDate.MakeDay y m d)) 100000000) as [|Hgt]; [done|].
  exfalso. revert Hgt. unfold JSDate.MakeDay.
  destruct (decide (m = 12)) as [->|Hne].
  - change (12 / 12) with 1. change (12 mod 12) with 0. simpl JSDate.MonthStart.
    unfold JSDate.DayFromYear. Z.div_mod_to_equations. lia.
  - rewrite (Z.div_small m 12), (Z.mod_small m 12) by lia.
    replace (y + 0) with y by lia.
    set (leap := if JSDate.DaysInYear y =? 366 then 1 else 0).
    assert (Hl : 0 <= leap <= 1) by (unfold leap; case_match; lia).
    pose proof (MonthStart_range m leap Hl) as Hs.
    unfold JSDate.DayFromYear. Z.div_mod_to_equations. lia.
Qed.

Lemma construct_plain (y m d : Z) :
  -271820 <= y <= 275759 -> ~ 0 <= y <= 99 -> 0 <= m <= 12 -> 0 <= d <= 31 ->
  JSDate.construct y m d = Some (JSDate.MakeDay y m d).
Proof.
  intros Hy Hq Hm Hd. unfold JSDate.construct.
  destruct (Z.leb_spec 0 y), (Z.leb_spec y 99); simpl; try lia;
    by apply TimeClip_in_range.
Qed.

Lemma construct_two_digit (y m d : Z) :
  0 <= y <= 99 -> 0 <= m <= 12 -> 0 <= d <= 31 ->
  JSDate.construct y m d = Some (JSDate.MakeDay (1900 + y) m d).
Proof.
  intros Hy Hm Hd. unfold JSDate.construct.
  destruct (Z.leb_spec 0 y), (Z.leb_spec y 99); simpl; try lia.
  apply TimeClip_in_range; lia.
Qed.

(** [new Date(year, month, 1).getDay()] *)
Lemma getDay_first (y m : Z) :
  -271820 <= y <= 275759 -> ~ 0 <= y <= 99 -> 0 <= m <= 11 ->
  JSDate.getDay (JSDate.construct y m 1) = Some (Gregorian.weekday y m 1).
Proof.
  intros Hy Hq Hm. rewrite construct_plain by lia. simpl.
  by rewrite WeekDay_zeller.
Qed.

Lemma leap_year_two_digit (y : Z) :
  1 <= y <= 99 -> Gregorian.leap_year (1900 + y) = Gregorian.leap_year y.
Proof.
  intros H. unfold Gregorian.leap_year.
  replace ((1900 + y) mod 4) with (y mod 4) by (Z.div_mod_to_equations; lia).
  replace ((1900 + y) mod 100) with (y mod 100) by (Z.div_mod_to_equations; lia).
  destruct (Z.eqb_spec (y mod 100) 0) as [E|E];
    [exfalso; Z.div_mod_to_equations; lia|].
  destruct (Z.eqb_spec ((1900 + y) mod 400) 0) as [E1|E1];
    [exfalso; Z.div_mod_to_equations; lia|].
  destruct (Z.eqb_spec (y mod 400) 0) as [E2|E2];
    [exfalso; Z.div_mod_to_equations; lia|].
  done.
Qed.

(** [new Date(year, month + 1, 0).getDate()] *)
Lemma getDate_last (y m : Z) :
  -271820 <= y <= 275759 -> y <> 0 -> 0 <= m <= 11 ->
  JSDate.getDate (JSDate.construct y (m + 1) 0)
  = Some (Gregorian.days_in_month y m).
Proof.
  intros Hy Hq Hm.
  destruct (decide (0 <= y <= 99)) as [Hin|Hout].
  - rewrite construct_two_digit by lia. simpl.
    rewrite last_day_of_month by done. f_equal.
    unfold Gregorian.days_in_month. by rewrite leap_year_two_digit by lia.
  - rewrite construct_plain by lia. simpl.
    by rewrite last_day_of_month.
Qed.

(** ** Arrays *)

Lemma delete_middle {A} (l : list A) (i : nat) (x : A) :
  l !! i = Some x -> l = take i l ++ x :: drop (S i) l.
Proof. intros H. by rewrite take_drop_middle. Qed.


Lemma fmap_delete {A B} (f : A -> B) (l : list A) (i : nat) :
  f <$> delete i l = delete i (f <$> l).
Proof. by rewrite !delete_take_drop, fmap_app, fmap_take, fmap_drop. Qed.

Lemma elem_of_delete {A} (l : list A) (i : nat) (x : A) :
  x ∈ delete i l -> x ∈ l.
Proof. intros H. eapply elem_of_sublist; [done|apply sublist_delete]. Qed.

Lemma elem_of_delete_other {A} (l : list A) (i : nat) (x y : A) :
  l !! i = Some x -> y ∈ l -> y <> x -> y ∈ delete i l.
Proof.
  intros Hi Hy Hne. rewrite delete_take_drop.
  rewrite (delete_middle l i x Hi) in Hy.
  apply elem_of_app in Hy as [Hy|Hy]; apply elem_of_app; [by left|].
  apply elem_of_cons in Hy as [->|Hy]; [done|by right].
Qed.

Lemma NoDup_delete {A} (l : list A) (i : nat) : NoDup l -> NoDup (delete i l).
Proof. intros H. eapply sublist_NoDup; [exact H|apply sublist_delete]. Qed.

Lemma elem_of_filter_bool {A} (p : A -> bool) (l : list A) (x : A) :
  x ∈ List.filter p l <-> x ∈ l /\ p x = true.
Proof. rewrite !list_elem_of_In. apply filter_In. Qed.

Lemma filter_bool_all {A} (p : A -> bool) (l : list A) :
  (forall x, x ∈ l -> p x = true) -> List.filter p l = l.
Proof.
  induction l as [|x l IH]; intros H; simpl; [done|].
  rewrite H by left. f_equal. apply IH. intros y Hy. apply H. by right.
Qed.

Lemma filter_bool_none {A} (p : A -> bool) (l : list A) :
  (forall x, x ∈ l -> p x = false) <-> List.filter p l = [].
Proof.
  induction l as [|x l IH]; simpl.
  - split; [done|]. intros _ y Hy. by apply elem_of_nil in Hy.
  - split.
    + intros H. rewrite H by left. apply IH. intros y Hy. apply H. by right.
    + destruct (p x) eqn:E; [done|]. intros Hf y [->|Hy]%elem_of_cons; [done|].
      by apply IH.
Qed.

Lemma filter_bool_comm {A} (p q : A -> bool) (l : list A) :
  List.filter p (List.filter q l) = List.filter q (List.filter p l).
Proof.
  induction l as [|x l IH]; simpl; [done|].
  destruct (q x) eqn:Eq, (p x) eqn:Ep; simpl; rewrite ?Eq, ?Ep, IH; done.
Qed.

(** ** The settings tab: deleting a habit *)

Lemma display_rows (w : World) (row : Row) :
  row ∈ eval display w <->
  (habits (settings w) !! row_index row = Some (row_habit row)).
Proof.
  unfold eval, display. simpl. rewrite elem_of_lookup_imap. split.
  - intros (i & r & -> & H). done.
  - intros H. exists (row_index row), (row_habit row). by destruct row.
Qed.

Lemma onDeleteClick_exec (habit : loc) (index : nat) (w : World) :
  exec (onDeleteClick habit index) w =
  mkWorld (heap w)
    (mkSettings (splice1 index (habits (settings w)))
       (List.filter
          (fun e => negb (str_eqb (HabitEntry.habitId e) (Habit.id (deref w habit))))
          (entries (settings w))))
    (mkData (deref w <$> splice1 index (habits (settings w)))
       (List.filter
          (fun e => negb (str_eqb (HabitEntry.habitId e) (Habit.id (deref w habit))))
          (entries (settings w)))
     :: disk w)
    ((lit "Deleted habit: " ++ Habit.name (deref w habit)) :: notices w).
Proof. reflexivity. Qed.

(** ** The picker: toggling an entry *)

Lemma is_pair_true (hid date : jsstring) (e : HabitEntry) :
  is_pair hid date e = true <-> e = HabitEntry.mk hid date.
Proof.
  unfold is_pair. rewrite andb_true_iff, !str_eqb_eq. destruct e; simpl.
  split; [by intros [-> ->]|by intros [= -> ->]].
Qed.

Lemma onChange_mark (date : jsstring) (habit : loc) (w : World) :
  exec (onChange date habit true) w =
  let es := push (HabitEntry.mk (Habit.id (deref w habit)) date) (entries (settings w)) in
  mkWorld (heap w) (mkSettings (habits (settings w)) es)
    (mkData (deref w <$> habits (settings w)) es :: disk w) (notices w).
Proof. reflexivity. Qed.

Lemma onChange_unmark (date : jsstring) (habit : loc) (w : World) :
  exec (onChange date habit false) w =
  let es := List.filter (fun e => negb (is_pair (Habit.id (deref w habit)) date e))
              (entries (settings w)) in
  mkWorld (heap w) (mkSettings (habits (settings w)) es)
    (mkData (deref w <$> habits (settings w)) es :: disk w) (notices w).
Proof. reflexivity. Qed.

Lemma clickCheckbox_some (date : jsstring) (k : nat) (boxes : list Checkbox)
    (cb : Checkbox) (w : World) :
  boxes !! k = Some cb ->
  clickCheckbox date k boxes w =
  (<[k := mkCheckbox (cb_habit cb) (negb (checked cb))]> boxes,
   exec (onChange date (cb_habit cb) (negb (checked cb))) w).
Proof.
  intros H. unfold clickCheckbox. rewrite H.
  destruct cb as [h []]; reflexivity.
Qed.

Lemma clickCheckbox_none (date : jsstring) (k : nat) (boxes : list Checkbox)
    (w : World) :
  boxes !! k = None -> clickCheckbox date k boxes w = (boxes, w).
Proof. intros H. unfold clickCheckbox. rewrite H. reflexivity. Qed.

Lemma pair_count_filter (hid date : jsstring) (es : list HabitEntry) :
  pair_count hid date es = length (List.filter (is_pair hid date) es).
Proof. reflexivity. Qed.

Lemma pair_count_app (hid date : jsstring) (es1 es2 : list HabitEntry) :
  pair_count hid date (es1 ++ es2)
  = (pair_count hid date es1 + pair_count hid date es2)%nat.
Proof. unfold pair_count. by rewrite List.filter_app, length_app. Qed.

Lemma pair_count_unmarked (hid date : jsstring) (es : list HabitEntry) :
  pair_count hid date (List.filter (fun e => negb (is_pair hid date e)) es) = O.
Proof.
  rewrite pair_count_filter.
  replace (List.filter (is_pair hid date) _) with (@nil HabitEntry); [done|].
  symmetry. apply filter_bool_none. intros e [_ He]%elem_of_filter_bool.
  by apply negb_true_iff in He.
Qed.

Lemma pair_count_unmark_other (hid date hid' date' : jsstring) (es : list HabitEntry) :
  (hid', date') <> (hid, date) ->
  pair_count hid' date' (List.filter (fun e => negb (is_pair hid date e)) es)
  = pair_count hid' date' es.
Proof.
  intros Hne. rewrite !pair_count_filter, filter_bool_comm. f_equal.
  apply filter_bool_all. intros e [_ He]%elem_of_filter_bool.
  apply is_pair_true in He as ->. apply negb_true_iff.
  destruct (is_pair hid date _) eqn:E; [|done].
  apply is_pair_true in E. congruence.
Qed.

Lemma pair_count_one (hid date hid' date' : jsstring) :
  pair_count hid' date' [HabitEntry.mk hid date]
  = if decide ((hid', date') = (hid, date)) then 1%nat else O.
Proof.
  rewrite pair_count_filter. simpl.
  destruct (is_pair hid' date' _) eqn:E.
  - apply is_pair_true in E. injection E as -> ->. by rewrite decide_True.
  - rewrite decide_False; [done|]. intros [= -> ->].
    assert (is_pair hid date (HabitEntry.mk hid date) = true) by by apply is_pair_true.
    congruence.
Qed.


(** A box of a picker just opened is checked exactly when the pair is
    among the entries. *)
Lemma pickerOpen_lookup (date : jsstring) (w : World) (k : nat) (cb : Checkbox) :
  pickerOpen date w !! k = Some cb <->
  (habits (settings w) !! k = Some (cb_habit cb) /\
  checked cb = (0 <? pair_count (Habit.id (deref w (cb_habit cb))) date
                       (entries (settings w)))%nat).
Proof.
  unfold pickerOpen. rewrite list_lookup_fmap.
  assert (Hp : forall habit,
    existsb (fun e => str_eqb (HabitEntry.habitId e) (Habit.id (deref w habit)))
      (List.filter (fun e => str_eqb (HabitEntry.date e) date) (entries (settings w)))
    = (0 <? pair_count (Habit.id (deref w habit)) date (entries (settings w)))%nat).
  { intros habit. unfold pair_count.
    induction (entries (settings w)) as [|e es IH]; simpl; [done|].
    unfold is_pair.
    destruct (str_eqb (HabitEntry.date e) date) eqn:Ed,
      (str_eqb (HabitEntry.habitId e) (Habit.id (deref w habit))) eqn:Eh;
      simpl; rewrite ?Eh; simpl; done. }
  destruct (habits (settings w) !! k) as [habit|]; simpl.
  - rewrite Hp. split.
    + by intros [= <-].
    + destruct cb as [h c]. simpl. by intros [[= ->] ->].
  - split; [done|by intros [? _]].
Qed.

Lemma pickerOpen_synced (date : jsstring) (w : World) :
  synced date (pickerOpen date w) w.
Proof.
  apply Forall_lookup. intros k cb H. by apply pickerOpen_lookup in H as [_ ?].
Qed.

Lemma pickerOpen_habits (date : jsstring) (w : World) :
  cb_habit <$> pickerOpen date w = habits (settings w).
Proof.
  unfold pickerOpen. rewrite <- list_fmap_compose.
  rewrite <- (list_fmap_id (habits (settings w))) at 2.
  by apply list_fmap_ext.
Qed.



Lemma onChange_heap (date : jsstring) (habit : loc) (c : bool) (w : World) :
  heap (exec (onChange date habit c) w) = heap w.
Proof. by destruct c. Qed.

Lemma onChange_habits (date : jsstring) (habit : loc) (c : bool) (w : World) :
  habits (settings (exec (onChange date habit c) w)) = habits (settings w).
Proof. by destruct c. Qed.

Lemma onChange_deref (date : jsstring) (habit : loc) (c : bool) (w : World) (r : loc) :
  deref (exec (onChange date habit c) w) r = deref w r.
Proof. unfold deref. by rewrite onChange_heap. Qed.

Lemma onChange_entries (date : jsstring) (habit : loc) (c : bool) (w : World) :
  entries (settings (exec (onChange date habit c) w)) =
  if c then entries (settings w) ++ [HabitEntry.mk (Habit.id (deref w habit)) date]
  else List.filter (fun e => negb (is_pair (Habit.id (deref w habit)) date e))
         (entries (settings w)).
Proof. by destruct c. Qed.





(** The two branches of the listener, and a click on a box that agrees
    with the entries. *)
Lemma click_pair_counts (w : World) (date : jsstring) (k : nat)
    (boxes : list Checkbox) :
  synced date boxes w ->
  (forall habit,
      let hid := Habit.id (deref w habit) in
      let w' := exec (onChange date habit false) w in
      pair_count hid date (entries (settings w')) = O /\
      entries (settings w') =
        List.filter (fun e => negb (is_pair hid date e)) (entries (settings w))) /\
  (forall habit,
      entries (settings (exec (onChange date habit true) w)) =
      entries (settings w) ++ [HabitEntry.mk (Habit.id (deref w habit)) date]) /\
  (forall hid' date',
      (pair_count hid' date' (entries (settings w)) <= 1)%nat ->
      (pair_count hid' date'
         (entries (settings (exec (clickCheckbox date k boxes) w))) <= 1)%nat) /\
  (forall cb,
      boxes !! k = Some cb ->
      pair_count (Habit.id (deref w (cb_habit cb))) date
        (entries (settings (exec (clickCheckbox date k boxes) w)))
      = if checked cb then O else 1%nat).
Proof.
  intros Hs.
  split.
  { intros habit hid w'. subst w'. rewrite onChange_entries.
    split; [apply pair_count_unmarked|done]. }
  split; [intros habit; by rewrite onChange_entries|].
  assert (Hclick : forall cb, boxes !! k = Some cb ->
            entries (settings (exec (clickCheckbox date k boxes) w)) =
            if checked cb
            then List.filter
                   (fun e => negb (is_pair (Habit.id (deref w (cb_habit cb))) date e))
                   (entries (settings w))
            else entries (settings w)
                   ++ [HabitEntry.mk (Habit.id (deref w (cb_habit cb))) date]).
  { intros cb Hk. unfold exec at 1. rewrite (clickCheckbox_some _ _ _ _ _ Hk).
    simpl snd. rewrite onChange_entries. by destruct (checked cb). }
  assert (Hsync : forall cb, boxes !! k = Some cb -> checked cb = false ->
            pair_count (Habit.id (deref w (cb_habit cb))) date (entries (settings w)) = O).
  { intros cb Hk Hc. pose proof (proj1 (Forall_lookup _ _) Hs k cb Hk) as H.
    simpl in H. rewrite Hc in H.
    destruct (pair_count _ _ _); [done|discriminate]. }
  split.
  - intros hid' date' Hle.
    destruct (boxes !! k) as [cb|] eqn:Hk.
    + rewrite (Hclick cb eq_refl).
      destruct (decide ((hid', date') = (Habit.id (deref w (cb_habit cb)), date)))
        as [[= -> ->]|Hne].
      * destruct (checked cb) eqn:Hc.
        -- rewrite pair_count_unmarked. lia.
        -- rewrite pair_count_app, (Hsync cb eq_refl Hc), pair_count_one.
           rewrite decide_True by done. lia.
      * destruct (checked cb).
        -- by rewrite pair_count_unmark_other.
        -- rewrite pair_count_app, pair_count_one, decide_False by done. lia.
    + unfold exec. by rewrite clickCheckbox_none.
  - intros cb Hk. rewrite (Hclick cb Hk).
    destruct (checked cb) eqn:Hc.
    + apply pair_count_unmarked.
    + rewrite pair_count_app, (Hsync cb Hk Hc), pair_count_one.
      by rewrite decide_True.
Qed.

(** A click keeps the boxes in agreement with the entries when the
    habits of the picker have distinct ids. *)
Lemma click_keeps_synced (w : World) (date : jsstring) (k : nat)
    (boxes : list Checkbox) :
  NoDup ((fun cb => Habit.id (deref w (cb_habit cb))) <$> boxes) ->
  synced date boxes w ->
  synced date (eval (clickCheckbox date k boxes) w)
    (exec (clickCheckbox date k boxes) w).
Proof.
  intros Hnd Hs.
  destruct (boxes !! k) as [cb|] eqn:Hk.
  2:{ unfold eval, exec. by rewrite clickCheckbox_none. }
  unfold eval, exec. rewrite (clickCheckbox_some _ _ _ _ _ Hk). simpl fst. simpl snd.
  apply Forall_lookup. intros j cb' Hj.
  rewrite onChange_deref, onChange_entries.
  destruct (decide (j = k)) as [->|Hjk].
  - rewrite list_lookup_insert_eq in Hj by (by eapply lookup_lt_Some).
    injection Hj as <-. simpl.
    pose proof (proj1 (Forall_lookup _ _) Hs k cb Hk) as Hc. simpl in Hc.
    destruct (checked cb); simpl.
    + by rewrite pair_count_unmarked.
    + rewrite pair_count_app, pair_count_one, decide_True by done.
      by rewrite Nat.add_1_r.
  - rewrite list_lookup_insert_ne in Hj by done.
    pose proof (proj1 (Forall_lookup _ _) Hs j cb' Hj) as Hc. simpl in Hc.
    assert (Hne : Habit.id (deref w (cb_habit cb')) <> Habit.id (deref w (cb_habit cb))).
    { intros Heq. apply Hjk.
      eapply NoDup_lookup; [exact Hnd| |]; rewrite list_lookup_fmap.
      - by rewrite Hj.
      - rewrite Hk. simpl. by rewrite Heq. }
    simpl negb. destruct (checked cb); simpl.
    + rewrite pair_count_unmark_other; [done|congruence].
    + rewrite pair_count_app, pair_count_one, decide_False by congruence.
      by rewrite Nat.add_0_r.
Qed.

(** ** The habit modal: adding and editing *)

Lemma onSaveClick_no_name (habit : option loc) (nameValue iconValue colorValue : jsstring)
    (now : Z) (w : World) :
  trim nameValue = [] ->
  onSaveClick habit nameValue iconValue colorValue now w =
  (false, mkWorld (heap w) (settings w) (disk w)
            (lit "Please enter a habit name" :: notices w)).
Proof. intros H. unfold onSaveClick. rewrite H. reflexivity. Qed.

Lemma onSaveClick_no_icon (habit : option loc) (nameValue iconValue colorValue : jsstring)
    (now : Z) (w : World) :
  trim nameValue <> [] -> trim iconValue = [] ->
  onSaveClick habit nameValue iconValue colorValue now w =
  (false, mkWorld (heap w) (settings w) (disk w)
            (lit "Please enter an icon name" :: notices w)).
Proof.
  intros Hn H. unfold onSaveClick. rewrite H.
  destruct (trim nameValue); [done|reflexivity].
Qed.

Lemma onSaveClick_add (nameValue iconValue colorValue : jsstring) (now : Z) (w : World) :
  trim nameValue <> [] -> trim iconValue <> [] ->
  onSaveClick None nameValue iconValue colorValue now w =
  let r := fresh (dom (heap w)) in
  let hp := <[r := Habit.mk (toString now) (trim nameValue) (trim iconValue) colorValue]>
              (heap w) in
  let st := mkSettings (push r (habits (settings w))) (entries (settings w)) in
  (true,
   mkWorld hp st
     (mkData ((fun r => hp !!! r) <$> habits st) (entries st) :: disk w)
     ((lit "Added" ++ lit " habit: " ++ trim nameValue) :: notices w)).
Proof.
  intros Hn Hi. unfold onSaveClick.
  destruct (trim nameValue); [done|]. destruct (trim iconValue); [done|].
  reflexivity.
Qed.

Lemma onSaveClick_edit (r : loc) (nameValue iconValue colorValue : jsstring) (now : Z)
    (w : World) :
  trim nameValue <> [] -> trim iconValue <> [] ->
  onSaveClick (Some r) nameValue iconValue colorValue now w =
  let hp := alter (edited (trim nameValue) (trim iconValue) colorValue) r (heap w) in
  (true,
   mkWorld hp (settings w)
     (mkData ((fun r => hp !!! r) <$> habits (settings w)) (entries (settings w))
        :: disk w)
     ((lit "Updated" ++ lit " habit: " ++ trim nameValue) :: notices w)).
Proof.
  intros Hn Hi. unfold onSaveClick.
  destruct (trim nameValue) eqn:En; [done|].
  destruct (trim iconValue) eqn:Ei; [done|].
  unfold mbind, M_bind, write_name, write_icon, write_color, set_heap, saveSettings,
    Notice, mret, M_ret, serialise, deref. simpl.
  rewrite !alter_alter_eq.
  rewrite (alter_ext _ (edited (n :: l) (n0 :: l0) colorValue)); [done|].
  by intros [] _.
Qed.

(** C4. A name or an icon that is empty once trimmed: the handler shows a
    notice and returns, nothing is written and nothing is saved. *)
Theorem save_rejects_empty (w : World) (habit : option loc)
    (nameValue iconValue colorValue : jsstring) (now : Z) :
  trim nameValue = [] \/ trim iconValue = [] ->
  let w' := exec (onSaveClick habit nameValue iconValue colorValue now) w in
  eval (onSaveClick habit nameValue iconValue colorValue now) w = false /\
  heap w' = heap w /\
  settings w' = settings w /\
  disk w' = disk w /\
  notices w' =
    lit (if falsy (trim nameValue) then "Please enter a habit name"
         else "Please enter an icon name") :: notices w.
Proof.
  intros H w'. subst w'. unfold exec, eval.
  destruct (decide (trim nameValue = [])) as [En|En].
  - rewrite onSaveClick_no_name by done. by rewrite En.
  - destruct H as [H|H]; [done|].
    rewrite onSaveClick_no_icon by done.
    by destruct (trim nameValue).
Qed.

Lemma save_rejects_empty_witness :
  trim (lit "  ") = [] /\
  settings (exec (onSaveClick None (lit "  ") (lit "book") (lit "#fff") 0) two_habits)
  = settings two_habits.
Proof.
  assert (H : trim (lit "  ") = []) by reflexivity.
  split; [exact H|].
  exact (proj1 (proj2 (proj2
           (save_rejects_empty two_habits None (lit "  ") (lit "book") (lit "#fff") 0
              (or_introl H))))).
Defined.

Lemma fresh_not_listed (w : World) :
  wf w -> fresh (dom (heap w)) ∉ habits (settings w).
Proof.
  intros [_ Hlive] Hin.
  pose proof (proj1 (Forall_forall _ _) Hlive _ Hin) as Hs.
  apply elem_of_dom in Hs. by apply is_fresh in Hs.
Qed.

Lemma fmap_ext_elem {A B} (f g : A -> B) (l : list A) :
  (forall x, x ∈ l -> f x = g x) -> f <$> l = g <$> l.
Proof.
  intros H. apply list_eq. intros i. rewrite !list_lookup_fmap.
  destruct (l !! i) as [x|] eqn:E; simpl; [|done].
  f_equal. apply H. by eapply list_elem_of_lookup_2.
Qed.

Lemma onSaveClick_add_fields (nameValue iconValue colorValue : jsstring) (now : Z)
    (w : World) :
  trim nameValue <> [] -> trim iconValue <> [] ->
  let w' := exec (onSaveClick None nameValue iconValue colorValue now) w in
  heap w' =
    <[fresh (dom (heap w)) :=
        Habit.mk (toString now) (trim nameValue) (trim iconValue) colorValue]> (heap w) /\
  habits (settings w') = habits (settings w) ++ [fresh (dom (heap w))] /\
  entries (settings w') = entries (settings w) /\
  disk w' = serialise w' :: disk w.
Proof.
  intros Hn Hi w'. subst w'. unfold exec. by rewrite onSaveClick_add by done.
Qed.

Lemma onSaveClick_edit_fields (r : loc) (nameValue iconValue colorValue : jsstring)
    (now : Z) (w : World) :
  trim nameValue <> [] -> trim iconValue <> [] ->
  let w' := exec (onSaveClick (Some r) nameValue iconValue colorValue now) w in
  heap w' = alter (edited (trim nameValue) (trim iconValue) colorValue) r (heap w) /\
  settings w' = settings w /\
  disk w' = serialise w' :: disk w.
Proof.
  intros Hn Hi w'. subst w'. unfold exec. by rewrite onSaveClick_edit by done.
Qed.

Section add.

Context (w : World) (nameValue iconValue colorValue : jsstring) (now : Z).
Hypothesis Hwf : wf w.
Hypothesis Hn : trim nameValue <> [].
Hypothesis Hi : trim iconValue <> [].

Let w' := exec (onSaveClick None nameValue iconValue colorValue now) w.
Let r := fresh (dom (heap w)).

Lemma add_heap :
  heap w' = <[r := Habit.mk (toString now) (trim nameValue) (trim iconValue) colorValue]>
              (heap w).
Proof. by destruct (onSaveClick_add_fields nameValue iconValue colorValue now w Hn Hi). Qed.

Lemma add_habits : habits (settings w') = habits (settings w) ++ [r].
Proof.
  by destruct (onSaveClick_add_fields nameValue iconValue colorValue now w Hn Hi)
    as (_ & ? & _).
Qed.

Lemma add_deref_new :
  deref w' r = Habit.mk (toString now) (trim nameValue) (trim iconValue) colorValue.
Proof. unfold deref. by rewrite add_heap, lookup_total_insert_eq. Qed.

Lemma add_deref_old (r' : loc) :
  r' ∈ habits (settings w) -> deref w' r' = deref w r'.
Proof.
  intros Hin. unfold deref. rewrite add_heap, lookup_total_insert_ne; [done|].
  intros <-. by apply (fresh_not_listed w Hwf).
Qed.

Lemma add_habit_ids : habit_ids w' = habit_ids w ++ [toString now].
Proof.
  unfold habit_ids. rewrite add_habits, fmap_app. simpl. rewrite add_deref_new. simpl.
  f_equal. apply fmap_ext_elem. intros r' Hin. by rewrite add_deref_old.
Qed.

Lemma add_wf : wf w'.
Proof.
  destruct Hwf as [Hnd Hlive]. split; rewrite add_habits.
  - apply NoDup_app. split; [done|]. split; [|apply NoDup_singleton].
    intros r' Hin ->%list_elem_of_singleton. by apply (fresh_not_listed w Hwf).
  - apply Forall_app. split.
    + eapply Forall_impl; [exact Hlive|]. intros r' [h Hh]. simpl.
      rewrite add_heap. destruct (decide (r = r')) as [<-|Hne].
      * rewrite lookup_insert_eq. eauto.
      * rewrite lookup_insert_ne by done. eauto.
    + constructor; [|constructor]. simpl. rewrite add_heap, lookup_insert_eq. eauto.
Qed.

End add.

(** C3 (amended). The Add branch appends one new object at the end of the
    habit array; its id is the decimal string of the clock, which is
    fresh when no existing id is that string, in particular when the
    existing ids are the strings of earlier clock values. *)
Theorem add_habit_appends (w : World) (nameValue iconValue colorValue : jsstring)
    (now : Z) :
  wf w -> trim nameValue <> [] -> trim iconValue <> [] ->
  let w' := exec (onSaveClick None nameValue iconValue colorValue now) w in
  exists r,
    habits (settings w') = habits (settings w) ++ [r] /\
    (r ∉ habits (settings w)) /\
    deref w' r = Habit.mk (toString now) (trim nameValue) (trim iconValue) colorValue /\
    (forall r', r' ∈ habits (settings w) -> deref w' r' = deref w r') /\
    length (habits (settings w')) = S (length (habits (settings w))) /\
    habit_ids w' = habit_ids w ++ [toString now] /\
    (NoDup (habit_ids w) -> toString now ∉ habit_ids w -> NoDup (habit_ids w')) /\
    ((forall i, i ∈ habit_ids w -> exists t, i = toString t /\ t < now) ->
     toString now ∉ habit_ids w) /\
    entries (settings w') = entries (settings w) /\
    disk w' = serialise w' :: disk w /\
    wf w'.
Proof.
  intros Hwf Hn Hi w'.
  destruct (onSaveClick_add_fields nameValue iconValue colorValue now w Hn Hi)
    as (_ & _ & Hentries & Hdisk).
  exists (fresh (dom (heap w))).
  split; [by apply add_habits|].
  split; [by apply fresh_not_listed|].
  split; [by apply add_deref_new|].
  split; [intros r' Hin; by apply add_deref_old|].
  split; [subst w'; rewrite add_habits, length_app by done; simpl; lia|].
  split; [by apply add_habit_ids|].
  split.
  { intros Hnd Hfresh. subst w'. rewrite add_habit_ids by done.
    apply NoDup_app. split; [done|]. split; [|apply NoDup_singleton].
    by intros i Hin ->%list_elem_of_singleton. }
  split.
  { intros Hts Hin. destruct (Hts _ Hin) as (t & Ht & Hlt).
    apply toString_inj in Ht. lia. }
  split; [done|]. split; [done|]. by apply add_wf.
Qed.

Lemma wf_two_habits : wf two_habits.
Proof.
  assert (E : habits (settings two_habits) = [1%positive; 2%positive])
    by (vm_compute; reflexivity).
  split; rewrite E.
  - by apply (bool_decide_unpack _).
  - repeat constructor; vm_compute; eauto.
Qed.

Lemma add_habit_appends_witness :
  wf two_habits /\ trim (lit " Walk ") <> [] /\ trim (lit "sun") <> [] /\
  length (habits (settings
            (exec (onSaveClick None (lit " Walk ") (lit "sun") (lit "#6366f1")
                     1700000000002) two_habits))) = 3%nat.
Proof.
  assert (Hn : trim (lit " Walk ") <> []) by (vm_compute; discriminate).
  assert (Hi : trim (lit "sun") <> []) by (vm_compute; discriminate).
  split; [exact wf_two_habits|]. split; [exact Hn|]. split; [exact Hi|].
  destruct (add_habit_appends two_habits (lit " Walk ") (lit "sun") (lit "#6366f1")
              1700000000002 wf_two_habits Hn Hi) as (r & _ & _ & _ & _ & Hlen & _).
  exact Hlen.
Defined.

(** C3, as stated, fails when the clock repeats: a second habit added in
    the same millisecond gets the id of the first. *)
Lemma add_habit_same_tick :
  let w1 := exec (onSaveClick None (lit "Read") (lit "book") (lit "#ffffff")
                    1700000000000) initial in
  let w2 := exec (onSaveClick None (lit "Run") (lit "zap") (lit "#000000")
                    1700000000000) w1 in
  habit_ids w1 = [lit "1700000000000"] /\
  habit_ids w2 = [lit "1700000000000"; lit "1700000000000"] /\
  ~ NoDup (habit_ids w2).
Proof.
  intros w1 w2.
  assert (E1 : habit_ids w1 = [lit "1700000000000"]) by (vm_compute; reflexivity).
  assert (E2 : habit_ids w2 = [lit "1700000000000"; lit "1700000000000"])
    by (vm_compute; reflexivity).
  split; [done|]. split; [done|]. rewrite E2.
  intros [Hnotin _]%NoDup_cons. apply Hnotin. left.
Qed.

(** ** Editing a habit *)

Section edit.

Context (w : World) (r : loc) (nameValue iconValue colorValue : jsstring) (now : Z).
Hypothesis Hn : trim nameValue <> [].
Hypothesis Hi : trim iconValue <> [].

Let w' := exec (onSaveClick (Some r) nameValue iconValue colorValue now) w.

Lemma edit_heap :
  heap w' = alter (edited (trim nameValue) (trim iconValue) colorValue) r (heap w).
Proof. by destruct (onSaveClick_edit_fields r nameValue iconValue colorValue now w Hn Hi). Qed.

Lemma edit_settings : settings w' = settings w.
Proof.
  by destruct (onSaveClick_edit_fields r nameValue iconValue colorValue now w Hn Hi)
    as (_ & ? & _).
Qed.

Lemma edit_deref_other (r' : loc) : r' <> r -> deref w' r' = deref w r'.
Proof. intros Hne. unfold deref. by rewrite edit_heap, lookup_total_alter_ne. Qed.

Lemma edit_deref :
  is_Some (heap w !! r) ->
  deref w' r = edited (trim nameValue) (trim iconValue) colorValue (deref w r).
Proof.
  intros [h Hh]. unfold deref.
  rewrite edit_heap, lookup_total_alter_eq, (lookup_total_correct _ _ _ Hh), Hh. done.
Qed.

Lemma edit_id (r' : loc) : Habit.id (deref w' r') = Habit.id (deref w r').
Proof.
  destruct (decide (r' = r)) as [->|Hne]; [|by rewrite edit_deref_other].
  unfold deref. rewrite edit_heap, lookup_total_alter_eq, lookup_total_alt.
  by destruct (heap w !! r).
Qed.

Lemma edit_habit_ids : habit_ids w' = habit_ids w.
Proof.
  unfold habit_ids. rewrite edit_settings.
  apply fmap_ext_elem. intros r' _. apply edit_id.
Qed.

Lemma edit_wf : wf w -> wf w'.
Proof.
  intros [Hnd Hlive]. split; rewrite edit_settings; [done|].
  eapply Forall_impl; [exact Hlive|]. intros r' Hs. simpl.
  rewrite edit_heap. by apply lookup_alter_is_Some.
Qed.

End edit.

(** ** Loading the settings *)

Lemma revive_cons (h : Habit) (hs : list Habit) (w : World) :
  revive (h :: hs) w =
  let r := fresh (dom (heap w)) in
  let w1 := mkWorld (<[r := h]> (heap w)) (settings w) (disk w) (notices w) in
  (r :: eval (revive hs) w1, exec (revive hs) w1).
Proof.
  simpl. unfold mbind, M_bind, alloc, eval, exec. simpl.
  by destruct (revive hs _).
Qed.

Lemma revive_spec (hs : list Habit) (w : World) :
  let rs := eval (revive hs) w in
  let w' := exec (revive hs) w in
  NoDup rs /\
  (forall r, r ∈ rs -> r ∉ dom (heap w)) /\
  deref w' <$> rs = hs /\
  (forall r, r ∈ dom (heap w) -> heap w' !! r = heap w !! r) /\
  Forall (fun r => is_Some (heap w' !! r)) rs /\
  settings w' = settings w /\ disk w' = disk w /\ notices w' = notices w.
Proof.
  revert w. induction hs as [|h hs IH]; intros w; cbv zeta.
  - unfold eval, exec. simpl.
    repeat split; try done; try constructor. intros r Hr. by apply elem_of_nil in Hr.
  - unfold eval at 1 2 3 4, exec at 1 2 3 4 5 6. rewrite revive_cons. cbv zeta.
    simpl fst. simpl snd.
    set (r := fresh (dom (heap w))).
    set (w1 := mkWorld (<[r := h]> (heap w)) (settings w) (disk w) (notices w)).
    destruct (IH w1) as (Hnd & Hfresh & Hderef & Hkeep & Hlive & Hs & Hd & Hn).
    assert (Hr : r ∉ dom (heap w)) by apply is_fresh.
    assert (Hr1 : r ∈ dom (heap w1)).
    { unfold w1. simpl. rewrite dom_insert_L. apply elem_of_union. left.
      by apply elem_of_singleton. }
    assert (Hsub : forall r', r' ∈ dom (heap w) -> r' ∈ dom (heap w1)).
    { intros r' Hr'. unfold w1. simpl. rewrite dom_insert_L.
      apply elem_of_union. by right. }
    assert (Hlook : heap (exec (revive hs) w1) !! r = Some h).
    { rewrite Hkeep by done. unfold w1. simpl. apply lookup_insert_eq. }
    split; [|split; [|split; [|split; [|split]]]].
    + apply NoDup_cons. split; [|done]. intros Hin. by apply (Hfresh r Hin).
    + intros r' [->|Hin]%elem_of_cons; [done|].
      intros Hd'. by apply (Hfresh r' Hin), Hsub.
    + simpl. f_equal; [|done]. unfold deref. by apply lookup_total_correct.
    + intros r' Hr'. rewrite Hkeep by by apply Hsub.
      unfold w1. simpl. apply lookup_insert_ne. by intros ->.
    + constructor; [by rewrite Hlook|done].
    + done.
Qed.

Lemma onload_fields (w : World) :
  let data := head (disk w) in
  let w' := onload w in
  wf w' /\
  deref w' <$> habits (settings w') = from_option data_habits [] data /\
  entries (settings w') = from_option data_entries [] data /\
  disk w' = disk w.
Proof.
  cbv zeta. unfold onload, loadSettings.
  destruct (head (disk w)) as [d|] eqn:Hd; simpl.
  - set (w0 := mkWorld ∅ DEFAULT_SETTINGS (disk w) []).
    destruct (revive_spec (data_habits d) w0)
      as (Hnd & _ & Hderef & _ & Hlive & _ & Hdisk & _).
    unfold exec, eval in *. unfold mbind, M_bind.
    destruct (revive (data_habits d) w0) as [rs w1]. simpl in *.
    unfold wf, deref in *. simpl. done.
  - unfold exec. simpl. repeat split; constructor.
Qed.

(** ** What every reachable state satisfies *)

Lemma trim_tidy (id nameValue iconValue color : jsstring) :
  trim nameValue <> [] -> trim iconValue <> [] ->
  tidy (Habit.mk id (trim nameValue) (trim iconValue) color).
Proof. intros Hn Hi. repeat split; simpl; try done; apply trim_trimmed. Qed.

Lemma persisted_saved (w w' : World) :
  disk w' = serialise w' :: disk w -> persisted w'.
Proof. intros H. unfold persisted. by rewrite H. Qed.

Lemma inv_same_store (w w' : World) (ui : UI) :
  heap w' = heap w -> settings w' = settings w -> disk w' = disk w ->
  inv (w, ui) -> inv (w', ui).
Proof.
  intros Hh Hs Hd (Hwf & Htidy & Hp & Hui).
  unfold inv, wf, persisted, synced, serialise, habit_ids, deref in *.
  simpl in *. rewrite Hh, Hs, Hd. done.
Qed.

Lemma inv_initial : inv (initial, Idle).
Proof.
  unfold inv, wf, persisted. simpl. repeat split; constructor.
Qed.

(** Between two events nothing of the invariant depends on the view,
    except in an open picker. *)
Lemma inv_idle (w : World) (ui : UI) : inv (w, ui) -> inv (w, Idle).
Proof. intros (? & ? & ? & _). split; [done|]. split; [done|]. by split. Qed.

Lemma inv_stale (w : World) (ui : UI) (rows : list Row) :
  inv (w, ui) -> inv (w, Stale rows).
Proof. intros (? & ? & ? & _). split; [done|]. split; [done|]. by split. Qed.

Lemma inv_editing (w : World) (ui : UI) (habit : loc) :
  inv (w, ui) -> inv (w, Editing habit).
Proof. intros (? & ? & ? & _). split; [done|]. split; [done|]. by split. Qed.

Lemma inv_save (w : World) (habit : option loc)
    (nameValue iconValue colorValue : jsstring) (now : Z) :
  inv (w, Idle) ->
  inv (exec (onSaveClick habit nameValue iconValue colorValue now) w, Idle).
Proof.
  intros Hinv.
  destruct (decide (trim nameValue = [])) as [En|En].
  { eapply inv_same_store; [| | |exact Hinv]; unfold exec;
      by rewrite onSaveClick_no_name. }
  destruct (decide (trim iconValue = [])) as [Ei|Ei].
  { eapply inv_same_store; [| | |exact Hinv]; unfold exec;
      by rewrite onSaveClick_no_icon. }
  destruct Hinv as (Hwf & Htidy & _ & _). simpl in *.
  destruct habit as [r|].
  - (* edit *)
    split; [by apply edit_wf|]. split; [|split; [|done]]; simpl.
    + rewrite edit_settings by done.
      apply Forall_forall. intros r' Hr'.
      pose proof (proj1 (Forall_forall _ _) Htidy r' Hr') as Ht.
      destruct (decide (r' = r)) as [->|Hne].
      * rewrite edit_deref by (done || exact (proj1 (Forall_forall _ _) (proj2 Hwf) r Hr')).
        by apply trim_tidy.
      * by rewrite edit_deref_other.
    + eapply persisted_saved.
      by destruct (onSaveClick_edit_fields r nameValue iconValue colorValue now w En Ei)
        as (_ & _ & ?).
  - (* add *)
    split; [by apply add_wf|]. split; [|split; [|done]]; simpl.
    + rewrite add_habits by done. apply Forall_app. split.
      * apply Forall_forall. intros r' Hr'. rewrite add_deref_old by done.
        exact (proj1 (Forall_forall _ _) Htidy r' Hr').
      * constructor; [|constructor]. rewrite add_deref_new by done.
        by apply trim_tidy.
    + eapply persisted_saved.
      by destruct (onSaveClick_add_fields nameValue iconValue colorValue now w En Ei)
        as (_ & _ & _ & ?).
Qed.

(** The Delete listener keeps the invariant whatever row it was made
    for, up to date or not. *)
Lemma inv_delete (w : World) (habit : loc) (index : nat) :
  inv (w, Idle) ->
  inv (exec (onDeleteClick habit index) w, Idle).
Proof.
  intros (Hwf & Htidy & _ & _). simpl in *.
  rewrite onDeleteClick_exec. unfold splice1.
  split; [|split; [|split; [|done]]]; simpl.
  - destruct Hwf as [Hnd Hlive]. split; simpl.
    + by apply NoDup_delete.
    + apply Forall_forall. intros r Hr%elem_of_delete.
      exact (proj1 (Forall_forall _ _) Hlive r Hr).
  - unfold deref. simpl. fold (deref w).
    apply Forall_forall. intros r Hr%elem_of_delete.
    exact (proj1 (Forall_forall _ _) Htidy r Hr).
  - by eapply persisted_saved.
Qed.

Lemma onChange_habit_ids (date : jsstring) (habit : loc) (c : bool) (w : World) :
  habit_ids (exec (onChange date habit c) w) = habit_ids w.
Proof.
  unfold habit_ids. rewrite onChange_habits.
  apply fmap_ext_elem. intros r _. by rewrite onChange_deref.
Qed.

Lemma inv_check (w : World) (date : jsstring) (k : nat) (boxes : list Checkbox) :
  inv (w, Picking date boxes) ->
  inv (exec (clickCheckbox date k boxes) w,
       Picking date (eval (clickCheckbox date k boxes) w)).
Proof.
  intros (Hwf & Htidy & Hp & Hui & Hsync). simpl in *.
  assert (Hids : (fun cb => Habit.id (deref w (cb_habit cb))) <$> boxes = habit_ids w).
  { unfold habit_ids. rewrite <- Hui, <- list_fmap_compose. done. }
  assert (Hs' : NoDup (habit_ids (exec (clickCheckbox date k boxes) w)) ->
                synced date (eval (clickCheckbox date k boxes) w)
                  (exec (clickCheckbox date k boxes) w)).
  { intros Hnd.
    assert (Hnd' : NoDup (habit_ids w)).
    { destruct (boxes !! k) as [cb|] eqn:Hk.
      - unfold exec in Hnd. rewrite (clickCheckbox_some _ _ _ _ _ Hk) in Hnd.
        simpl snd in Hnd. by rewrite onChange_habit_ids in Hnd.
      - unfold exec in Hnd. by rewrite clickCheckbox_none in Hnd. }
    apply click_keeps_synced; [by rewrite Hids|by apply Hsync]. }
  destruct (boxes !! k) as [cb|] eqn:Hk.
  2:{ unfold exec, eval in *. rewrite clickCheckbox_none in * by done. done. }
  unfold exec, eval in *. rewrite (clickCheckbox_some _ _ _ _ _ Hk) in *.
  simpl fst in *. simpl snd in *.
  split; [|split; [|split; [|split]]]; simpl.
  - unfold wf. by rewrite onChange_heap, onChange_habits.
  - rewrite onChange_habits. eapply Forall_impl; [exact Htidy|].
    intros r Hr. simpl. by rewrite onChange_deref.
  - eapply persisted_saved. by destruct (negb (checked cb)).
  - rewrite onChange_habits, list_fmap_insert. simpl.
    rewrite list_insert_id; [done|]. by rewrite list_lookup_fmap, Hk.
  - exact Hs'.
Qed.

Lemma onload_same (w : World) :
  persisted w ->
  deref (onload w) <$> habits (settings (onload w)) = deref w <$> habits (settings w)
  /\ entries (settings (onload w)) = entries (settings w).
Proof.
  intros Hp. destruct (onload_fields w) as (_ & Hderef & Hentries & _).
  rewrite Hderef, Hentries. unfold persisted in Hp.
  destruct (disk w) as [|d ds]; simpl.
  - rewrite Hp. done.
  - subst d. done.
Qed.

Lemma inv_reload (w : World) (ui : UI) : inv (w, ui) -> inv (onload w, Idle).
Proof.
  intros (Hwf & Htidy & Hp & _). simpl in *.
  destruct (onload_fields w) as (Hwf' & Hderef & Hentries & Hdisk).
  destruct (onload_same w Hp) as [Hh He].
  split; [done|]. split; [|split; [|done]]; simpl.
  - apply Forall_forall. intros r Hr.
    assert (Hin : deref (onload w) r ∈ deref w <$> habits (settings w))
      by (rewrite <- Hh; by apply list_elem_of_fmap_2).
    apply list_elem_of_fmap in Hin as (r0 & -> & Hr0).
    exact (proj1 (Forall_forall _ _) Htidy r0 Hr0).
  - unfold persisted, serialise. rewrite Hdisk, Hh, He.
    unfold persisted in Hp. destruct (disk w) as [|d ds] eqn:Ed; [|done].
    assert (Hl : habits (settings (onload w)) = []).
    { apply fmap_nil_inv with (f := deref (onload w)). rewrite Hh, Hp. done. }
    rewrite He, Hp in *. destruct (settings (onload w)). simpl in *. by subst.
Qed.

Lemma inv_step (c c' : World * UI) : inv c -> step c c' -> inv c'.
Proof.
  intros Hinv Hstep. destruct Hstep.
  - by apply inv_save.
  - by apply inv_save.
  - by apply inv_delete.
  - unfold exec, eval, onDayClick, mbind, M_bind, get.
    destruct (0 <? length (habits (settings w)))%nat; simpl.
    + destruct Hinv as (? & ? & ? & _).
      split; [done|]. split; [done|]. split; [done|].
      simpl. split; [apply pickerOpen_habits|]. intros _. apply pickerOpen_synced.
    + by eapply inv_same_store; [| | |exact Hinv].
  - by apply inv_check.
  - by eapply inv_idle.
  - by eapply inv_reload.
  - eapply inv_stale. by apply inv_delete.
  - eapply inv_stale. by eapply inv_delete, inv_idle.
  - by eapply inv_idle.
  - by eapply inv_editing.
  - eapply inv_editing. by eapply inv_save, inv_idle.
  - by eapply inv_idle.
Qed.

Lemma reachable_inv (c : World * UI) : reachable c -> inv c.
Proof.
  induction 1 as [|c c' _ IH Hstep]; [apply inv_initial|by eapply inv_step].
Qed.

(** ** Entries without a habit

    Every action on an up-to-date view keeps the entries on existing
    habits. *)

Lemma no_orphans_same (w w' : World) :
  heap w' = heap w -> settings w' = settings w -> no_orphans w -> no_orphans w'.
Proof. unfold no_orphans, habit_ids, deref. by intros -> ->. Qed.

Lemma no_orphans_save (w : World) (habit : option loc)
    (nameValue iconValue colorValue : jsstring) (now : Z) :
  wf w -> no_orphans w ->
  no_orphans (exec (onSaveClick habit nameValue iconValue colorValue now) w).
Proof.
  intros Hwf Horph.
  destruct (decide (trim nameValue = [])) as [En|En].
  { eapply no_orphans_same; [| |exact Horph]; unfold exec;
      by rewrite onSaveClick_no_name. }
  destruct (decide (trim iconValue = [])) as [Ei|Ei].
  { eapply no_orphans_same; [| |exact Horph]; unfold exec;
      by rewrite onSaveClick_no_icon. }
  destruct habit as [r|].
  - unfold no_orphans. rewrite edit_habit_ids, edit_settings by done. exact Horph.
  - unfold no_orphans. rewrite add_habit_ids by done.
    destruct (onSaveClick_add_fields nameValue iconValue colorValue now w En Ei)
      as (_ & _ & -> & _).
    eapply Forall_impl; [exact Horph|]. intros e He. simpl.
    apply elem_of_app. by left.
Qed.

Lemma no_orphans_delete (w : World) (row : Row) :
  row ∈ eval display w -> no_orphans w ->
  no_orphans (exec (onDeleteClick (row_habit row) (row_index row)) w).
Proof.
  intros Hrow%display_rows Horph.
  rewrite onDeleteClick_exec. unfold splice1.
  unfold no_orphans, habit_ids, deref. simpl. fold (deref w).
  apply Forall_forall. intros e [He Hne]%elem_of_filter_bool.
  apply negb_true_iff, str_eqb_neq in Hne.
  pose proof (proj1 (Forall_forall _ _) Horph e He) as Hin.
  apply list_elem_of_fmap in Hin as (r & Hid & Hr).
  apply list_elem_of_fmap. exists r. split; [done|].
  eapply elem_of_delete_other; [exact Hrow|exact Hr|].
  intros ->. unfold deref in *. simpl in *. congruence.
Qed.

Lemma no_orphans_check (w : World) (date : jsstring) (k : nat)
    (boxes : list Checkbox) :
  cb_habit <$> boxes = habits (settings w) -> no_orphans w ->
  no_orphans (exec (clickCheckbox date k boxes) w).
Proof.
  intros Hui Horph. unfold exec.
  destruct (boxes !! k) as [cb|] eqn:Hk.
  2:{ by rewrite clickCheckbox_none. }
  rewrite (clickCheckbox_some _ _ _ _ _ Hk). simpl snd.
  assert (Hcb : cb_habit cb ∈ habits (settings w)).
  { rewrite <- Hui. apply list_elem_of_fmap. exists cb. split; [done|].
    by eapply list_elem_of_lookup_2. }
  unfold no_orphans. rewrite onChange_habit_ids, onChange_entries.
  destruct (negb (checked cb)).
  - apply Forall_app. split; [done|]. constructor; [|constructor]. simpl.
    apply list_elem_of_fmap. by exists (cb_habit cb).
  - apply Forall_forall. intros e [He _]%elem_of_filter_bool.
    exact (proj1 (Forall_forall _ _) Horph e He).
Qed.

Lemma no_orphans_reload (w : World) :
  persisted w -> no_orphans w -> no_orphans (onload w).
Proof.
  intros Hp Horph. destruct (onload_same w Hp) as [Hh He].
  unfold no_orphans, habit_ids in *.
  rewrite (list_fmap_compose (deref (onload w)) Habit.id), Hh, He.
  by rewrite <- list_fmap_compose.
Qed.

Lemma no_orphans_step (c c' : World * UI) :
  inv c -> step c c' -> up_to_date (snd c) ->
  no_orphans (fst c) -> no_orphans (fst c').
Proof.
  intros (Hwf & _ & Hp & Hui) Hstep Hup Horph. destruct Hstep; simpl in *.
  - by apply no_orphans_save.
  - by apply no_orphans_save.
  - by apply no_orphans_delete.
  - eapply no_orphans_same; [| |exact Horph];
      unfold exec, onDayClick, mbind, M_bind, get; simpl;
      by destruct (0 <? length (habits (settings w)))%nat.
  - apply no_orphans_check; [by destruct Hui|done].
  - done.
  - by apply no_orphans_reload.
  - by apply no_orphans_delete.
  - done.
  - done.
  - done.
  - by apply no_orphans_save.
  - done.
Qed.

(** ** The store along a run *)

(** In an open picker the boxes agree with the entries as long as the
    habits have distinct ids. *)
Lemma reachable_synced (w : World) (date : jsstring) (boxes : list Checkbox) :
  reachable (w, Picking date boxes) -> NoDup (habit_ids w) -> synced date boxes w.
Proof. intros (_ & _ & _ & _ & Hs)%reachable_inv. exact Hs. Qed.

(** In every reachable state the last payload on disk is the store, and
    loading it again gives the same habits and entries, in the same
    order. *)
Lemma reachable_persisted (c : World * UI) : reachable c -> persisted (fst c).
Proof. by intros (_ & _ & ? & _)%reachable_inv. Qed.

Lemma reload_round_trip (c : World * UI) :
  reachable c -> serialise (onload (fst c)) = serialise (fst c).
Proof.
  intros Hp%reachable_persisted.
  destruct (onload_fields (fst c)) as (_ & Hh & He & _).
  unfold serialise. rewrite Hh, He. unfold persisted in Hp.
  destruct (disk (fst c)) as [|d ds]; simpl.
  - by rewrite Hp.
  - by subst d.
Qed.



Lemma reachable_two_habits : reachable (two_habits, Idle).
Proof.
  eapply reach_step; [eapply reach_step; [apply reach_initial|]|];
    apply step_add.
Qed.

Lemma step_day_open (date : jsstring) (w : World) :
  habits (settings w) <> [] ->
  step (w, Idle) (w, Picking date (pickerOpen date w)).
Proof.
  intros Hne. pose proof (step_day date w) as H.
  assert (E : (0 <? length (habits (settings w)))%nat = true)
    by (by destruct (habits (settings w))).
  unfold exec, eval, onDayClick, mbind, M_bind, get in H.
  rewrite E in H. exact H.
Qed.

Lemma reachable_toggle (date : jsstring) (k : nat) (w : World) :
  reachable (w, Idle) -> habits (settings w) <> [] ->
  reachable (exec (clickCheckbox date k (pickerOpen date w)) w, Idle).
Proof.
  intros Hr Hne.
  apply reach_step
    with (c := (exec (clickCheckbox date k (pickerOpen date w)) w,
                Picking date (eval (clickCheckbox date k (pickerOpen date w)) w)));
    [|apply step_close].
  apply reach_step with (c := (w, Picking date (pickerOpen date w)));
    [|apply step_check].
  apply reach_step with (c := (w, Idle)); [exact Hr|by apply step_day_open].
Qed.

Lemma reachable_both_marked :
  reachable (both_marked, Picking (lit "2024-03-05")
                            (pickerOpen (lit "2024-03-05") both_marked)).
Proof.
  assert (H2 : habits (settings two_habits) <> []) by (vm_compute; discriminate).
  assert (H3 : habits (settings first_marked) <> []) by (vm_compute; discriminate).
  assert (H4 : habits (settings both_marked) <> []) by (vm_compute; discriminate).
  apply reach_step with (c := (both_marked, Idle)); [|by apply step_day_open].
  exact (reachable_toggle (lit "2024-03-05") 1 first_marked
           (reachable_toggle (lit "2024-03-05") 0 two_habits reachable_two_habits H2) H3).
Qed.

(** C9 (amended). The unmark branch leaves no entry with the pair,
    whatever the number of copies the state had; the mark branch appends
    one entry.  The branch is chosen by the state of the checkbox, not by
    looking the pair up: in an open picker whose habits have distinct ids
    the boxes agree with the entries, so a click keeps every pair that
    occurred at most once occurring at most once, and leaves the toggled
    pair absent or present once. *)
Theorem toggle_keeps_pairs_unique (w : World) (date : jsstring) :
  (forall habit,
      let hid := Habit.id (deref w habit) in
      let w' := exec (onChange date habit false) w in
      pair_count hid date (entries (settings w')) = O /\
      entries (settings w') =
        List.filter (fun e => negb (is_pair hid date e)) (entries (settings w))) /\
  (forall habit,
      entries (settings (exec (onChange date habit true) w)) =
      entries (settings w) ++ [HabitEntry.mk (Habit.id (deref w habit)) date]) /\
  (forall k boxes,
      reachable (w, Picking date boxes) -> NoDup (habit_ids w) ->
      let w' := exec (clickCheckbox date k boxes) w in
      (forall hid' date',
          (pair_count hid' date' (entries (settings w)) <= 1)%nat ->
          (pair_count hid' date' (entries (settings w')) <= 1)%nat) /\
      (forall cb,
          boxes !! k = Some cb ->
          pair_count (Habit.id (deref w (cb_habit cb))) date (entries (settings w'))
          = if checked cb then O else 1%nat)).
Proof.
  split; [|split].
  - intros habit hid w'. subst w'. rewrite onChange_entries.
    split; [apply pair_count_unmarked|done].
  - intros habit. by rewrite onChange_entries.
  - intros k boxes Hr Hnd w'.
    by destruct (click_pair_counts w date k boxes (reachable_synced _ _ _ Hr Hnd))
      as (_ & _ & ? & ?).
Qed.

Lemma toggle_keeps_pairs_unique_witness :
  let date := lit "2024-03-05" in
  reachable (both_marked, Picking date (pickerOpen date both_marked)) /\
  NoDup (habit_ids both_marked) /\
  pair_count (lit "1700000000000") date
    (entries (settings
       (exec (clickCheckbox date 0 (pickerOpen date both_marked)) both_marked))) = O.
Proof.
  intros date.
  assert (Hnd : NoDup (habit_ids both_marked)).
  { assert (E : habit_ids both_marked = [lit "1700000000000"; lit "1700000000001"])
      by (vm_compute; reflexivity).
    rewrite E. apply NoDup_cons. split; [|apply NoDup_singleton].
    intros H%list_elem_of_singleton. vm_compute in H. discriminate. }
  split; [exact reachable_both_marked|]. split; [exact Hnd|].
  exact (proj2 (proj2 (proj2 (toggle_keeps_pairs_unique both_marked date))
                  0%nat _ reachable_both_marked Hnd)
           (mkCheckbox 1%positive true) eq_refl).
Defined.

(** C9, as stated, fails along a run: two habits created at the same
    reading of the clock have the same id; after the box of the first is
    checked the box of the second is still unchecked, although the pair
    is there, and a click on it appends the pair a second time. *)
Lemma toggle_duplicates_pair :
  let date := lit "2024-03-05" in
  let hid := lit "1700000000000" in
  let w1 := exec (clickCheckbox date 0 (pickerOpen date same_tick)) same_tick in
  let boxes1 := eval (clickCheckbox date 0 (pickerOpen date same_tick)) same_tick in
  let w2 := exec (clickCheckbox date 1 boxes1) w1 in
  reachable (w1, Picking date boxes1) /\
  habit_ids w1 = [hid; hid] /\
  boxes1 = [mkCheckbox 1%positive true; mkCheckbox 2%positive false] /\
  entries (settings w1) = [HabitEntry.mk hid date] /\
  (forall hid' date', (pair_count hid' date' (entries (settings w1)) <= 1)%nat) /\
  entries (settings w2) = [HabitEntry.mk hid date; HabitEntry.mk hid date] /\
  pair_count hid date (entries (settings w2)) = 2%nat.
Proof.
  intros date hid w1 boxes1 w2.
  assert (Hr : reachable (w1, Picking date boxes1)).
  { apply reach_step with (c := (same_tick, Picking date (pickerOpen date same_tick)));
      [|apply step_check].
    apply reach_step with (c := (same_tick, Idle)).
    - eapply reach_step; [eapply reach_step; [apply reach_initial|]|]; apply step_add.
    - apply step_day_open. vm_compute. discriminate. }
  assert (E0 : habit_ids w1 = [hid; hid]) by (vm_compute; reflexivity).
  assert (E1 : boxes1 = [mkCheckbox 1%positive true; mkCheckbox 2%positive false])
    by (vm_compute; reflexivity).
  assert (E2 : entries (settings w1) = [HabitEntry.mk hid date])
    by (vm_compute; reflexivity).
  assert (E3 : entries (settings w2) = [HabitEntry.mk hid date; HabitEntry.mk hid date])
    by (vm_compute; reflexivity).
  split; [exact Hr|]. split; [exact E0|]. split; [exact E1|]. split; [exact E2|].
  split.
  { intros hid' date'. rewrite E2. unfold pair_count. cbn [List.filter].
    destruct (is_pair hid' date' (HabitEntry.mk hid date)); simpl; lia. }
  split; [exact E3|].
  rewrite E3. vm_compute. reflexivity.
Qed.

Lemma reachable_both_marked_idle : reachable (both_marked, Idle).
Proof.
  assert (H2 : habits (settings two_habits) <> []) by (vm_compute; discriminate).
  assert (H3 : habits (settings first_marked) <> []) by (vm_compute; discriminate).
  exact (reachable_toggle (lit "2024-03-05") 1 first_marked
           (reachable_toggle (lit "2024-03-05") 0 two_habits reachable_two_habits H2) H3).
Qed.

Lemma reachable_first_marked :
  reachable (first_marked, Picking (lit "2024-03-05")
                             (pickerOpen (lit "2024-03-05") first_marked)).
Proof.
  assert (H2 : habits (settings two_habits) <> []) by (vm_compute; discriminate).
  assert (H3 : habits (settings first_marked) <> []) by (vm_compute; discriminate).
  apply reach_step with (c := (first_marked, Idle)); [|by apply step_day_open].
  exact (reachable_toggle (lit "2024-03-05") 0 two_habits reachable_two_habits H2).
Qed.

Lemma no_orphans_first_marked : no_orphans first_marked.
Proof.
  assert (E1 : entries (settings first_marked)
               = [HabitEntry.mk (lit "1700000000000") (lit "2024-03-05")])
    by (vm_compute; reflexivity).
  assert (E2 : habit_ids first_marked = [lit "1700000000000"; lit "1700000000001"])
    by (vm_compute; reflexivity).
  unfold no_orphans. rewrite E1, E2.
  apply Forall_cons. split; [left|apply Forall_nil_2].
Qed.

(** C5 (amended). The change listener has no failure mode and does not
    look its habit up: for whichever habit object it holds, in the
    collection or not, it appends an entry with the object's id or
    removes the entries of the pair, and saves.  An open picker holds the
    habits of the collection, so a click in it, like every other action
    on an up-to-date view, keeps every entry on the id of a habit of the
    collection. *)
Theorem toggle_without_lookup (w : World) (date : jsstring) (habit : loc) :
  (let w' := exec (onChange date habit true) w in
   entries (settings w') =
     entries (settings w) ++ [HabitEntry.mk (Habit.id (deref w habit)) date] /\
   disk w' = serialise w' :: disk w /\
   notices w' = notices w) /\
  (let w' := exec (onChange date habit false) w in
   entries (settings w') =
     List.filter (fun e => negb (is_pair (Habit.id (deref w habit)) date e))
       (entries (settings w)) /\
   disk w' = serialise w' :: disk w /\
   notices w' = notices w) /\
  (forall k cb, pickerOpen date w !! k = Some cb -> cb_habit cb ∈ habits (settings w)) /\
  (forall boxes,
     reachable (w, Picking date boxes) -> cb_habit <$> boxes = habits (settings w)) /\
  (forall ui c',
     reachable (w, ui) -> up_to_date ui -> step (w, ui) c' ->
     no_orphans w -> no_orphans (fst c')).
Proof.
  split; [by rewrite onChange_mark|]. split; [by rewrite onChange_unmark|]. split.
  { intros k cb [Hk _]%pickerOpen_lookup. by eapply list_elem_of_lookup_2. }
  split.
  - intros boxes Hr. by destruct (reachable_inv _ Hr) as (_ & _ & _ & ? & _).
  - intros ui c' Hr Hup Hstep Horph.
    exact (no_orphans_step _ _ (reachable_inv _ Hr) Hstep Hup Horph).
Qed.

Lemma toggle_without_lookup_witness :
  let date := lit "2024-03-05" in
  let boxes := pickerOpen date first_marked in
  reachable (first_marked, Picking date boxes) /\
  up_to_date (Picking date boxes) /\
  step (first_marked, Picking date boxes)
       (both_marked, Picking date (eval (clickCheckbox date 1 boxes) first_marked)) /\
  no_orphans first_marked /\
  no_orphans both_marked.
Proof.
  intros date boxes.
  assert (H2 : up_to_date (Picking date boxes)) by exact I.
  assert (H3 : step (first_marked, Picking date boxes)
                 (both_marked,
                  Picking date (eval (clickCheckbox date 1 boxes) first_marked)))
    by exact (step_check date boxes 1 first_marked).
  exact (conj reachable_first_marked (conj H2 (conj H3 (conj no_orphans_first_marked
    (proj2 (proj2 (proj2 (proj2
       (toggle_without_lookup first_marked date 1%positive))))
       _ _ reachable_first_marked H2 H3 no_orphans_first_marked))))).
Defined.

(** Orphans do arise along a run: a second Delete click on the first row
    of the list, before the first click has re-rendered it, removes the
    habit that moved up and leaves its entry behind. *)
Lemma stale_delete_orphans :
  let rows := eval display both_marked in
  let w1 := exec (onDeleteClick 1%positive 0) both_marked in
  let w2 := exec (onDeleteClick 1%positive 0) w1 in
  mkRow 1%positive 0 ∈ rows /\
  reachable (w1, Stale rows) /\
  reachable (w2, Stale rows) /\
  habit_ids w1 = [lit "1700000000001"] /\
  habit_ids w2 = [] /\
  entries (settings w2) = [HabitEntry.mk (lit "1700000000001") (lit "2024-03-05")] /\
  ~ no_orphans w2.
Proof.
  intros rows w1 w2.
  assert (Hrow : mkRow 1%positive 0 ∈ rows) by (vm_compute; left).
  assert (Hr1 : reachable (w1, Stale rows)).
  { apply reach_step with (c := (both_marked, Idle));
      [exact reachable_both_marked_idle|].
    exact (step_delete_pending (mkRow 1%positive 0) both_marked Hrow). }
  assert (Hr2 : reachable (w2, Stale rows)).
  { apply reach_step with (c := (w1, Stale rows)); [exact Hr1|].
    exact (step_delete_stale rows (mkRow 1%positive 0) w1 Hrow). }
  assert (E1 : habit_ids w1 = [lit "1700000000001"]) by (vm_compute; reflexivity).
  assert (E2 : habit_ids w2 = []) by (vm_compute; reflexivity).
  assert (E3 : entries (settings w2)
               = [HabitEntry.mk (lit "1700000000001") (lit "2024-03-05")])
    by (vm_compute; reflexivity).
  split; [done|]. split; [done|]. split; [done|]. split; [done|].
  split; [done|]. split; [done|].
  unfold no_orphans. rewrite E3, E2. intros H.
  apply Forall_cons in H as [H _]. by apply elem_of_nil in H.
Qed.

(** C5, as stated, fails: the listener of a box whose habit has been
    deleted inserts an entry for the deleted id, without any error. *)
Lemma toggle_orphan :
  let date := lit "2024-03-05" in
  let w := exec (onDeleteClick 1%positive 0) two_habits in
  let w' := exec (onChange date 1%positive true) w in
  habit_ids w = [lit "1700000000001"] /\
  entries (settings w) = [] /\
  entries (settings w') = [HabitEntry.mk (lit "1700000000000") date] /\
  entries (settings w') <> entries (settings w) /\
  ~ no_orphans w'.
Proof.
  intros date w w'.
  assert (E1 : habit_ids w = [lit "1700000000001"]) by (vm_compute; reflexivity).
  assert (E2 : entries (settings w) = []) by (vm_compute; reflexivity).
  assert (E3 : entries (settings w') = [HabitEntry.mk (lit "1700000000000") date])
    by (vm_compute; reflexivity).
  assert (E4 : habit_ids w' = [lit "1700000000001"]) by (vm_compute; reflexivity).
  split; [done|]. split; [done|]. split; [done|].
  split; [by rewrite E2, E3|].
  unfold no_orphans. rewrite E3, E4. intros H.
  apply Forall_cons in H as [H _]. simpl in H.
  apply list_elem_of_singleton in H. vm_compute in H. discriminate.
Qed.

(** C10. A save that passes the two checks stores the trimmed name, the
    trimmed icon and the colour as given; the stored strings have no
    strippable code unit at either end, and in every reachable state
    every habit of the collection has such a name and icon. *)
Theorem save_stores_trimmed (w : World) (habit : option loc)
    (nameValue iconValue colorValue : jsstring) (now : Z) (c : World * UI) :
  trim nameValue <> [] -> trim iconValue <> [] ->
  match habit with Some r => is_Some (heap w !! r) | None => True end ->
  reachable c ->
  let w' := exec (onSaveClick habit nameValue iconValue colorValue now) w in
  let r := match habit with Some r => r | None => fresh (dom (heap w)) end in
  deref w' r =
    Habit.mk (match habit with
              | Some r => Habit.id (deref w r)
              | None => toString now
              end) (trim nameValue) (trim iconValue) colorValue /\
  habits (settings w') =
    match habit with
    | Some _ => habits (settings w)
    | None => habits (settings w) ++ [r]
    end /\
  trimmed (trim nameValue) /\ trimmed (trim iconValue) /\
  Forall (fun r => tidy (deref (fst c) r)) (habits (settings (fst c))).
Proof.
  intros Hn Hi Hlive Hc w' r.
  split; [|split].
  - destruct habit as [r0|]; subst w' r.
    + by rewrite edit_deref.
    + by rewrite add_deref_new.
  - destruct habit as [r0|]; subst w' r.
    + by rewrite edit_settings.
    + by rewrite add_habits.
  - split; [apply trim_trimmed|]. split; [apply trim_trimmed|].
    by destruct (reachable_inv c Hc) as (_ & ? & _).
Qed.

Lemma save_stores_trimmed_witness :
  trim (lit " Walk ") <> [] /\ trim (lit " sun") <> [] /\
  is_Some (heap two_habits !! 1%positive) /\
  reachable (two_habits, Idle) /\
  deref (exec (onSaveClick (Some 1%positive) (lit " Walk ") (lit " sun") (lit "#6366f1") 0)
           two_habits) 1%positive
  = Habit.mk (lit "1700000000000") (lit "Walk") (lit "sun") (lit "#6366f1").
Proof.
  assert (Hn : trim (lit " Walk ") <> []) by (vm_compute; discriminate).
  assert (Hi : trim (lit " sun") <> []) by (vm_compute; discriminate).
  assert (Hl : is_Some (heap two_habits !! 1%positive)) by (vm_compute; eauto).
  split; [exact Hn|]. split; [exact Hi|]. split; [exact Hl|].
  split; [exact reachable_two_habits|].
  exact (proj1 (save_stores_trimmed two_habits (Some 1%positive) (lit " Walk ")
                  (lit " sun") (lit "#6366f1") 0 (two_habits, Idle) Hn Hi Hl
                  reachable_two_habits)).
Defined.

(** ** The month grid *)

Lemma weekday_range (y m d : Z) : 0 <= Gregorian.weekday y m d <= 6.
Proof. unfold Gregorian.weekday. pose proof (Z.mod_pos_bound). cbv zeta.
  match goal with |- 0 <= ?a mod 7 <= 6 => pose proof (Z.mod_pos_bound a 7) end. lia.
Qed.

Lemma entriesForDay_spec (w : World) (date : jsstring) (e : HabitEntry) :
  e ∈ entriesForDay w date <-> e ∈ entries (settings w) /\ HabitEntry.date e = date.
Proof. unfold entriesForDay. by rewrite elem_of_filter_bool, str_eqb_eq. Qed.

Lemma renderCalendar_plain (w : World) (year month today : Z) :
  -271820 <= year <= 275759 -> ~ 0 <= year <= 99 -> 0 <= month <= 11 ->
  renderCalendar year month today w =
  replicate (Z.to_nat (Gregorian.weekday year month 1)) EmptyCell
    ++ (dayCell year month today w <$> seqZ 1 (Gregorian.days_in_month year month)).
Proof.
  intros Hy Hq Hm. unfold renderCalendar.
  rewrite getDay_first, getDate_last by lia.
  unfold days_upto, iterations.
  pose proof (days_in_month_range year month).
  by rewrite Z2Nat.id by lia.
Qed.

(** X24. Where the grid is right.  For a year of the range of Date
    outside 0..99 and a month 0..11: as many placeholders as the weekday
    index of the first of the month, then one cell per day of the month,
    each with the date string of its day and the icons of the entries
    whose date is that string.  The string has the shape YYYY-MM-DD when
    the year has four digits. *)
Theorem month_grid (w : World) (year month today : Z) :
  -271820 <= year <= 275759 -> ~ 0 <= year <= 99 -> 0 <= month <= 11 ->
  let lead := Gregorian.weekday year month 1 in
  let daysInMonth := Gregorian.days_in_month year month in
  renderCalendar year month today w =
    replicate (Z.to_nat lead) EmptyCell
    ++ (dayCell year month today w <$> seqZ 1 daysInMonth) /\
  0 <= lead <= 6 /\
  28 <= daysInMonth <= 31 /\
  length (renderCalendar year month today w) = Z.to_nat (lead + daysInMonth) /\
  (forall day, 1 <= day <= daysInMonth ->
     let date := dateStr year month (Some day) in
     renderCalendar year month today w !! Z.to_nat (lead + day - 1) =
       Some (dayCell year month today w day) /\
     (exists t n, dayCell year month today w day =
                  DayCell date t n (dayHabitsOf w (entriesForDay w date))) /\
     (forall e, e ∈ entriesForDay w date <->
                e ∈ entries (settings w) /\ HabitEntry.date e = date) /\
     (1000 <= year <= 9999 ->
      date = iso_date year month day /\ is_YYYY_MM_DD date = true)) /\
  (forall i, (i < Z.to_nat lead)%nat ->
             renderCalendar year month today w !! i = Some EmptyCell) /\
  renderCalendar 2024 1 today w =
    replicate 4 EmptyCell ++ (dayCell 2024 1 today w <$> seqZ 1 29).
Proof.
  intros Hy Hq Hm lead daysInMonth.
  pose proof (weekday_range year month 1) as Hlead. fold lead in Hlead.
  pose proof (days_in_month_range year month) as Hdim. fold daysInMonth in Hdim.
  pose proof (renderCalendar_plain w year month today Hy Hq Hm) as Hgrid.
  fold lead daysInMonth in Hgrid.
  split; [done|]. split; [done|]. split; [done|].
  split.
  { rewrite Hgrid, length_app, length_replicate, length_fmap, length_seqZ. lia. }
  split.
  { intros day Hday date. split; [|split; [|split]].
    - rewrite Hgrid, lookup_app_r; rewrite length_replicate; [|lia].
      rewrite list_lookup_fmap.
      replace (Z.to_nat (lead + day - 1) - Z.to_nat lead)%nat
        with (Z.to_nat (day - 1)) by lia.
      rewrite lookup_seqZ_lt by lia. simpl. do 2 f_equal. lia.
    - by eexists _, _.
    - intros e. apply entriesForDay_spec.
    - intros H4. subst date. rewrite dateStr_iso by lia.
      split; [done|]. apply iso_date_shape; lia. }
  split.
  { intros i Hi. rewrite Hgrid, lookup_app_l by (rewrite length_replicate; lia).
    by apply lookup_replicate_2. }
  by rewrite renderCalendar_plain by lia.
Qed.

Lemma month_grid_witness :
  -271820 <= 2024 <= 275759 /\ ~ 0 <= 2024 <= 99 /\ 0 <= 1 <= 11 /\
  length (renderCalendar 2024 1 0 january) = 33%nat.
Proof.
  assert (H1 : -271820 <= 2024 <= 275759) by lia.
  assert (H2 : ~ 0 <= 2024 <= 99) by lia.
  assert (H3 : 0 <= 1 <= 11) by lia.
  split; [exact H1|]. split; [exact H2|]. split; [exact H3|].
  exact (proj1 (proj2 (proj2 (proj2 (month_grid january 2024 1 0 H1 H2 H3))))).
Defined.

(** C6. The code misses the claim at January of year 50: the first of
    the month is a Saturday, yet [new Date(50, 0, 1)] is a day of 1950
    and no placeholder is rendered; the date string of the first cell,
    with its year as it is, is not of the shape YYYY-MM-DD that the
    source announces for [HabitEntry.date]. *)
Lemma month_grid_year_50 :
  Gregorian.weekday 50 0 1 = 6 /\
  JSDate.WeekDay (JSDate.MakeDay 50 0 1) = 6 /\
  head (renderCalendar 50 0 0 initial) = Some (DayCell (lit "50-01-01") false (lit "1") []) /\
  is_YYYY_MM_DD (lit "50-01-01") = false.
Proof. vm_compute. repeat split; reflexivity. Qed.

(** ** The monthly summary *)

Lemma monthStart_first (year month : Z) :
  monthStart year month = dateStr year month (Some 1).
Proof. reflexivity. Qed.

Lemma monthEnd_last (year month : Z) :
  -271820 <= year <= 275759 -> year <> 0 -> 0 <= month <= 11 ->
  monthEnd year month
  = dateStr year month (Some (Gregorian.days_in_month year month)).
Proof. intros Hy H0 Hm. unfold monthEnd. by rewrite getDate_last. Qed.

(** X25. Where the count is right.  For a year of the range of Date
    other than 0 and a month 0..11 the count of a habit is the number of
    its entries whose date string lies between the strings of the first
    and of the last day of the month, the last day being the length of
    the month in the Gregorian calendar. *)
Theorem monthly_count (w : World) (habit : loc) (year month : Z) :
  -271820 <= year <= 275759 -> year <> 0 -> 0 <= month <= 11 ->
  let first := dateStr year month (Some 1) in
  let last := dateStr year month (Some (Gregorian.days_in_month year month)) in
  monthStart year month = first /\
  monthEnd year month = last /\
  28 <= Gregorian.days_in_month year month <= 31 /\
  monthlyCount w habit year month =
    length
      (List.filter
         (fun e =>
            str_eqb (HabitEntry.habitId e) (Habit.id (deref w habit))
            && str_leb first (HabitEntry.date e)
            && str_leb (HabitEntry.date e) last)
         (entries (settings w))) /\
  monthlyCount january 1%positive 2024 0 = 2%nat.
Proof.
  intros Hy H0 Hm first last.
  split; [done|]. split; [by apply monthEnd_last|].
  split; [apply days_in_month_range|].
  split; [|by vm_compute].
  unfold monthlyCount. rewrite monthEnd_last by done. reflexivity.
Qed.

Lemma monthly_count_witness :
  -271820 <= 2024 <= 275759 /\ 2024 <> 0 /\ 0 <= 1 <= 11 /\
  monthEnd 2024 1 = dateStr 2024 1 (Some (Gregorian.days_in_month 2024 1)).
Proof.
  assert (H1 : -271820 <= 2024 <= 275759) by lia.
  assert (H2 : 2024 <> 0) by lia.
  assert (H3 : 0 <= 1 <= 11) by lia.
  split; [exact H1|]. split; [exact H2|]. split; [exact H3|].
  exact (proj1 (proj2 (monthly_count january 1%positive 2024 1 H1 H2 H3))).
Defined.

(** C7. The code misses the claim at February of year 0: the year has
    366 days, yet [new Date(0, 2, 0)] is the last of February 1900, the
    upper bound is the 28th and an entry of the 29th is not counted. *)
Lemma monthly_count_year_0 :
  JSDate.DaysInYear 0 = 366 /\
  Gregorian.days_in_month 0 1 = 29 /\
  monthEnd 0 1 = lit "0-02-28" /\
  entries (settings leap_day_of_year_0)
    = [HabitEntry.mk (Habit.id (deref leap_day_of_year_0 1%positive))
         (dateStr 0 1 (Some 29))] /\
  monthlyCount leap_day_of_year_0 1%positive 0 1 = 0%nat.
Proof. vm_compute. repeat split; reflexivity. Qed.

(** ** Date strings and the calendar order *)




Lemma valid_day_range (y m d : Z) : Gregorian.valid y m d -> 0 <= m <= 11 /\ 1 <= d <= 31.
Proof. intros [Hm Hd]. pose proof (days_in_month_range y m). lia. Qed.



(** Outside that form the order is lost: the year is written as it
    is, so the last day of 999 has a three-digit year and compares above
    the first day of 1000. *)
Lemma date_strings_year_999 :
  dateStr 999 11 (Some 31) = lit "999-12-31" /\
  dateStr 1000 0 (Some 1) = lit "1000-01-01" /\
  Gregorian.earlier (999, 11, 31) (1000, 0, 1) /\
  JSDate.MakeDay 999 11 31 < JSDate.MakeDay 1000 0 1 /\
  str_ltb (dateStr 999 11 (Some 31)) (dateStr 1000 0 (Some 1)) = false /\
  str_ltb (dateStr 1000 0 (Some 1)) (dateStr 999 11 (Some 31)) = true.
Proof. vm_compute. repeat split; (reflexivity || (left; reflexivity)). Qed.

(** ** Month navigation *)

Lemma MakeDay_linear (y m d : Z) :
  0 <= m <= 11 ->
  JSDate.MakeDay y m d =
  JSDate.DayFromYear y
  + JSDate.MonthStart m (if Gregorian.leap_year y then 1 else 0) + d - 1.
Proof.
  intros Hm. unfold JSDate.MakeDay.
  rewrite (Z.div_small m 12), (Z.mod_small m 12) by lia.
  replace (y + 0) with y by lia.
  rewrite DaysInYear_leap. by destruct (Gregorian.leap_year y).
Qed.

Lemma MakeDay_carry_up (y d : Z) : JSDate.MakeDay y 12 d = JSDate.MakeDay (y + 1) 0 d.
Proof.
  unfold JSDate.MakeDay. change (12 / 12) with 1. change (0 / 12) with 0.
  change (12 mod 12) with (0 mod 12). by replace (y + 1 + 0) with (y + 1) by lia.
Qed.

Lemma MakeDay_carry_down (y d : Z) :
  JSDate.MakeDay y (-1) d = JSDate.MakeDay (y - 1) 11 d.
Proof.
  unfold JSDate.MakeDay. change (-1 / 12) with (-1). change (11 / 12) with 0.
  change (-1 mod 12) with (11 mod 12).
  by replace (y - 1 + 0) with (y + -1) by lia.
Qed.

Lemma MakeDay_overflow (y m d : Z) :
  0 <= m <= 10 ->
  JSDate.MakeDay y m d = JSDate.MakeDay y (m + 1) (d - Gregorian.days_in_month y m).
Proof.
  intros Hm. rewrite !MakeDay_linear by lia.
  assert (Hm' : 0 <= m <= 11) by lia. unfold Gregorian.days_in_month.
  each_month Hm'; try lia; destruct (Gregorian.leap_year y); simpl; lia.
Qed.

(** The fields of a day number are a date of the calendar, and building
    the day from them gives the day number back. *)
Lemma fields_valid (n : Z) :
  Gregorian.valid (JSDate.YearFromDay n) (JSDate.MonthFromDay n) (JSDate.DateFromDay n) /\
  JSDate.MakeDay (JSDate.YearFromDay n) (JSDate.MonthFromDay n) (JSDate.DateFromDay n) = n.
Proof.
  pose proof (YearFromDay_spec n) as Hy.
  rewrite DayFromYear_step, DaysInYear_leap in Hy.
  assert (Hm : 0 <= JSDate.MonthFromDay n <= 11).
  { unfold JSDate.MonthFromDay. repeat case_match; lia. }
  assert (Hd : 1 <= JSDate.DateFromDay n
               <= Gregorian.days_in_month (JSDate.YearFromDay n) (JSDate.MonthFromDay n)
               /\ JSDate.DateFromDay n
                  = n - JSDate.DayFromYear (JSDate.YearFromDay n)
                    - JSDate.MonthStart (JSDate.MonthFromDay n)
                        (if Gregorian.leap_year (JSDate.YearFromDay n) then 1 else 0) + 1).
  { unfold JSDate.DateFromDay, JSDate.MonthFromDay, JSDate.InLeapYear,
      JSDate.DayWithinYear, Gregorian.days_in_month.
    rewrite DaysInYear_leap.
    destruct (Gregorian.leap_year (JSDate.YearFromDay n)) eqn:E;
      simpl;
      repeat match goal with
             | |- context [?a <? ?b] => destruct (Z.ltb_spec a b)
             end; simpl; rewrite ?E; lia. }
  destruct Hd as [Hd1 Hd2]. split; [split; assumption|].
  rewrite MakeDay_linear by done. lia.
Qed.

Lemma Day_MakeDate (day time : Z) :
  0 <= time < JSTime.msPerDay -> JSTime.Day (JSTime.MakeDate day time) = day.
Proof.
  intros H. unfold JSTime.Day, JSTime.MakeDate, JSTime.msPerDay in *.
  Z.div_mod_to_equations. lia.
Qed.

Lemma TimeWithinDay_MakeDate (day time : Z) :
  0 <= time < JSTime.msPerDay ->
  JSTime.TimeWithinDay (JSTime.MakeDate day time) = time.
Proof.
  intros H. unfold JSTime.TimeWithinDay, JSTime.MakeDate, JSTime.msPerDay in *.
  Z.div_mod_to_equations. lia.
Qed.

Lemma TimeWithinDay_range (t : Z) : 0 <= JSTime.TimeWithinDay t < JSTime.msPerDay.
Proof. apply Z.mod_pos_bound. done. Qed.

Lemma MakeDate_Day (t : Z) :
  JSTime.MakeDate (JSTime.Day t) (JSTime.TimeWithinDay t) = t.
Proof.
  unfold JSTime.MakeDate, JSTime.Day, JSTime.TimeWithinDay, JSTime.msPerDay.
  Z.div_mod_to_equations. lia.
Qed.

Lemma MakeDay_bound (y m d : Z) :
  -271820 <= y <= 275759 -> 0 <= m <= 11 -> -31 <= d <= 62 ->
  -99999999 <= JSDate.MakeDay y m d <= 99999999.
Proof.
  intros Hy Hm Hd. rewrite MakeDay_linear by done.
  pose proof (MonthStart_range m (if Gregorian.leap_year y then 1 else 0)
                ltac:(destruct (Gregorian.leap_year y); lia)).
  unfold JSDate.DayFromYear. Z.div_mod_to_equations. lia.
Qed.

Lemma TimeClip_MakeDate (day time : Z) :
  -99999999 <= day <= 99999999 -> 0 <= time < JSTime.msPerDay ->
  JSTime.TimeClip (JSTime.MakeDate day time) = Some (JSTime.MakeDate day time).
Proof.
  intros Hd Ht. unfold JSTime.TimeClip, JSTime.MakeDate, JSTime.msPerDay in *.
  destruct (Z.leb_spec (Z.abs (day * 86400000 + time)) 8640000000000000); [done|lia].
Qed.

Lemma next_month_range (y m : Z) :
  0 <= m <= 11 -> 0 <= (next_month (y, m)).2 <= 11.
Proof. intros H. unfold next_month. simpl. case_match; simpl; lia. Qed.

Lemma prev_month_range (y m : Z) :
  0 <= m <= 11 -> 0 <= (prev_month (y, m)).2 <= 11.
Proof. intros H. unfold prev_month. simpl. case_match; simpl; lia. Qed.

Lemma prev_next_month (y m : Z) :
  0 <= m <= 11 -> prev_month (next_month (y, m)) = (y, m).
Proof.
  intros H. unfold prev_month, next_month. simpl.
  destruct (Z.eqb_spec m 11); simpl.
  - f_equal; lia.
  - destruct (Z.eqb_spec (m + 1) 0); [lia|]. f_equal; lia.
Qed.

Lemma next_prev_month (y m : Z) :
  0 <= m <= 11 -> next_month (prev_month (y, m)) = (y, m).
Proof.
  intros H. unfold prev_month, next_month. simpl.
  destruct (Z.eqb_spec m 0); simpl.
  - f_equal; lia.
  - destruct (Z.eqb_spec (m - 1) 11); [lia|]. f_equal; lia.
Qed.

Lemma MakeDay_next_month (y m d : Z) :
  0 <= m <= 11 ->
  JSDate.MakeDay y (m + 1) d
  = JSDate.MakeDay (next_month (y, m)).1 (next_month (y, m)).2 d.
Proof.
  intros H. unfold next_month. simpl. destruct (Z.eqb_spec m 11) as [->|]; simpl.
  - apply MakeDay_carry_up.
  - done.
Qed.

Lemma MakeDay_prev_month (y m d : Z) :
  0 <= m <= 11 ->
  JSDate.MakeDay y (m - 1) d
  = JSDate.MakeDay (prev_month (y, m)).1 (prev_month (y, m)).2 d.
Proof.
  intros H. unfold prev_month. simpl. destruct (Z.eqb_spec m 0) as [->|]; simpl.
  - apply MakeDay_carry_down.
  - done.
Qed.

(** A date past the end of its month spills into the month after. *)
Lemma fields_MakeDay_spill (y m d : Z) :
  0 <= m <= 11 -> 1 <= d <= 31 ->
  (JSDate.YearFromDay (JSDate.MakeDay y m d),
   JSDate.MonthFromDay (JSDate.MakeDay y m d),
   JSDate.DateFromDay (JSDate.MakeDay y m d))
  = if d <=? Gregorian.days_in_month y m then (y, m, d)
    else (next_month (y, m), d - Gregorian.days_in_month y m).
Proof.
  intros Hm Hd. pose proof (days_in_month_range y m) as Hr.
  destruct (Z.leb_spec d (Gregorian.days_in_month y m)) as [Hle|Hgt].
  - destruct (fields_of_MakeDay y m d) as (-> & -> & ->); [split; lia|done].
  - assert (Hm' : 0 <= m <= 10).
    { destruct (decide (m = 11)) as [->|]; [|lia].
      unfold Gregorian.days_in_month in Hgt. lia. }
    rewrite MakeDay_overflow by done.
    assert (E : next_month (y, m) = (y, m + 1)).
    { unfold next_month. simpl. destruct (Z.eqb_spec m 11); [lia|done]. }
    rewrite E.
    pose proof (days_in_month_range y (m + 1)).
    destruct (fields_of_MakeDay y (m + 1) (d - Gregorian.days_in_month y m))
      as (-> & -> & ->); [split; lia|done].
Qed.

Lemma fields_MakeDay_spill_same (y m d : Z) :
  0 <= m <= 11 -> 1 <= d <= Gregorian.days_in_month y m ->
  (JSDate.YearFromDay (JSDate.MakeDay y m d),
   JSDate.MonthFromDay (JSDate.MakeDay y m d),
   JSDate.DateFromDay (JSDate.MakeDay y m d)) = (y, m, d).
Proof.
  intros Hm Hd. by destruct (fields_of_MakeDay y m d) as (-> & -> & ->).
Qed.

Lemma fields_MakeDate (day time : Z) :
  0 <= time < JSTime.msPerDay ->
  fields (JSTime.MakeDate day time)
  = (JSDate.YearFromDay day, JSDate.MonthFromDay day, JSDate.DateFromDay day).
Proof. intros H. unfold fields. by rewrite Day_MakeDate. Qed.

Lemma fields_inv (t y m d : Z) :
  fields t = (y, m, d) ->
  Gregorian.valid y m d /\ JSTime.Day t = JSDate.MakeDay y m d.
Proof.
  intros [= <- <- <-]. destruct (fields_valid (JSTime.Day t)) as [Hv E].
  by rewrite E.
Qed.

(** A time value is determined by its date and its time of day. *)
Lemma time_value_eq (t1 t2 : Z) :
  fields t1 = fields t2 ->
  JSTime.TimeWithinDay t1 = JSTime.TimeWithinDay t2 -> t1 = t2.
Proof.
  intros Hf Ht.
  destruct (fields_inv t2 _ _ _ eq_refl) as [_ E2].
  destruct (fields_inv t1 _ _ _ Hf) as [_ E1].
  rewrite <- (MakeDate_Day t1), <- (MakeDate_Day t2). congruence.
Qed.

Lemma onNextClick_value (t y m d : Z) :
  fields t = (y, m, d) -> -271820 <= y <= 275758 ->
  onNextClick (Some t)
  = Some (JSTime.MakeDate
            (JSDate.MakeDay (next_month (y, m)).1 (next_month (y, m)).2 d)
            (JSTime.TimeWithinDay t)).
Proof.
  intros Hf Hy. destruct (fields_inv _ _ _ _ Hf) as [[Hm Hd] _].
  pose proof (days_in_month_range y m).
  injection Hf as <- <- <-.
  unfold onNextClick, JSTime.setMonth, JSTime.getMonth. simpl.
  rewrite MakeDay_next_month by done.
  apply TimeClip_MakeDate; [|apply TimeWithinDay_range].
  apply MakeDay_bound; [|by apply next_month_range|lia].
  unfold next_month. simpl. case_match; simpl; lia.
Qed.

Lemma onPrevClick_value (t y m d : Z) :
  fields t = (y, m, d) -> -271819 <= y <= 275759 ->
  onPrevClick (Some t)
  = Some (JSTime.MakeDate
            (JSDate.MakeDay (prev_month (y, m)).1 (prev_month (y, m)).2 d)
            (JSTime.TimeWithinDay t)).
Proof.
  intros Hf Hy. destruct (fields_inv _ _ _ _ Hf) as [[Hm Hd] _].
  pose proof (days_in_month_range y m).
  injection Hf as <- <- <-.
  unfold onPrevClick, JSTime.setMonth, JSTime.getMonth. simpl.
  rewrite MakeDay_prev_month by done.
  apply TimeClip_MakeDate; [|apply TimeWithinDay_range].
  apply MakeDay_bound; [|by apply prev_month_range|lia].
  unfold prev_month. simpl. case_match; simpl; lia.
Qed.

Lemma moved_fields (t y m d y' m' : Z) :
  fields t = (y, m, d) -> 0 <= m' <= 11 ->
  fields (JSTime.MakeDate (JSDate.MakeDay y' m' d) (JSTime.TimeWithinDay t))
  = if d <=? Gregorian.days_in_month y' m' then (y', m', d)
    else (next_month (y', m'), d - Gregorian.days_in_month y' m').
Proof.
  intros Hf Hm'. destruct (fields_inv _ _ _ _ Hf) as [[Hm Hd] _].
  pose proof (days_in_month_range y m).
  rewrite fields_MakeDate by apply TimeWithinDay_range.
  apply fields_MakeDay_spill; [done|lia].
Qed.

(** X1. The button "next" of the calendar view moves the month shown to
    the month after, on the same day of the month and at the same time of
    day, when that month has such a day; when it is shorter (the 31st
    before a month of 30 days, the 29th to 31st of January), the date
    spills over and the view lands in the month after the next one, on
    day [d - length of the next month]: that month is skipped. *)
Theorem next_click_month (t y m d : Z) :
  fields t = (y, m, d) ->
  -271820 <= y <= 275758 ->
  exists t',
    onNextClick (Some t) = Some t' /\
    JSTime.TimeWithinDay t' = JSTime.TimeWithinDay t /\
    fields t' =
      let ym := next_month (y, m) in
      if d <=? Gregorian.days_in_month ym.1 ym.2 then (ym, d)
      else (next_month ym, d - Gregorian.days_in_month ym.1 ym.2).
Proof.
  intros Hf Hy. destruct (fields_inv _ _ _ _ Hf) as [[Hm Hd] _].
  eexists. split; [by apply onNextClick_value|].
  split; [apply TimeWithinDay_MakeDate, TimeWithinDay_range|].
  cbv zeta. rewrite (moved_fields t y m d) by (done || by apply next_month_range).
  by destruct (next_month (y, m)).
Qed.

Lemma next_click_month_witness :
  fields 1675168496000 = (2023, 0, 31) /\
  -271820 <= 2023 <= 275758 /\
  exists t',
    onNextClick (Some 1675168496000) = Some t' /\
    JSTime.TimeWithinDay t' = JSTime.TimeWithinDay 1675168496000 /\
    fields t' = (2023, 2, 3).
Proof.
  assert (H1 : fields 1675168496000 = (2023, 0, 31)) by (vm_compute; reflexivity).
  assert (H2 : -271820 <= 2023 <= 275758) by lia.
  exact (conj H1 (conj H2 (next_click_month 1675168496000 2023 0 31 H1 H2))).
Defined.

(** X2. In a zone whose offset from UTC is constant, and for a date of
    a year from -271819 to 275759: the button "previous" moves the month
    shown to the month before, on the same day of the month and at the
    same time of day, when that month has such a day; when it is shorter,
    the date spills over into the month that was shown, which stays on
    screen with the day changed to [d - length of the month before]. *)
Theorem prev_click_month (t y m d : Z) :
  fields t = (y, m, d) ->
  -271819 <= y <= 275759 ->
  exists t',
    onPrevClick (Some t) = Some t' /\
    JSTime.TimeWithinDay t' = JSTime.TimeWithinDay t /\
    fields t' =
      let ym := prev_month (y, m) in
      if d <=? Gregorian.days_in_month ym.1 ym.2 then (ym, d)
      else (y, m, d - Gregorian.days_in_month ym.1 ym.2).
Proof.
  intros Hf Hy. destruct (fields_inv _ _ _ _ Hf) as [[Hm Hd] _].
  eexists. split; [by apply onPrevClick_value|].
  split; [apply TimeWithinDay_MakeDate, TimeWithinDay_range|].
  cbv zeta. rewrite (moved_fields t y m d) by (done || by apply prev_month_range).
  pose proof (next_prev_month y m Hm) as E.
  destruct (prev_month (y, m)) as [y' m']. simpl. by rewrite E.
Qed.

Lemma prev_click_month_witness :
  fields 1680266096000 = (2023, 2, 31) /\
  -271819 <= 2023 <= 275759 /\
  exists t',
    onPrevClick (Some 1680266096000) = Some t' /\
    JSTime.TimeWithinDay t' = JSTime.TimeWithinDay 1680266096000 /\
    fields t' = (2023, 2, 3).
Proof.
  assert (H1 : fields 1680266096000 = (2023, 2, 31)) by (vm_compute; reflexivity).
  assert (H2 : -271819 <= 2023 <= 275759) by lia.
  exact (conj H1 (conj H2 (prev_click_month 1680266096000 2023 2 31 H1 H2))).
Defined.

(** X3. In a zone whose offset from UTC is constant, and for a date of
    a year from -271819 to 275758: "next" then "previous" brings the view
    back to the very same time value when the month after has the day of
    the month shown, and "previous" then "next" does when the month
    before has it; both hold for every day up to the 28th. *)
Theorem prev_next_round_trip (t y m d : Z) :
  fields t = (y, m, d) ->
  -271819 <= y <= 275758 ->
  (d <= Gregorian.days_in_month (next_month (y, m)).1 (next_month (y, m)).2 ->
   onPrevClick (onNextClick (Some t)) = Some t) /\
  (d <= Gregorian.days_in_month (prev_month (y, m)).1 (prev_month (y, m)).2 ->
   onNextClick (onPrevClick (Some t)) = Some t) /\
  (d <= 28 ->
   onPrevClick (onNextClick (Some t)) = Some t /\
   onNextClick (onPrevClick (Some t)) = Some t).
Proof.
  intros Hf Hy. destruct (fields_inv _ _ _ _ Hf) as [[Hm Hd] _].
  assert (Hnext :
    d <= Gregorian.days_in_month (next_month (y, m)).1 (next_month (y, m)).2 ->
    onPrevClick (onNextClick (Some t)) = Some t).
  { intros Hle. rewrite (onNextClick_value t y m d) by (done || lia).
    set (t1 := JSTime.MakeDate _ _).
    assert (Hf1 : fields t1 = ((next_month (y, m)).1, (next_month (y, m)).2, d)).
    { unfold t1. rewrite (moved_fields t y m d) by (done || by apply next_month_range).
      destruct (Z.leb_spec d
        (Gregorian.days_in_month (next_month (y, m)).1 (next_month (y, m)).2));
        [done|lia]. }
    assert (Ht1 : JSTime.TimeWithinDay t1 = JSTime.TimeWithinDay t)
      by apply TimeWithinDay_MakeDate, TimeWithinDay_range.
    rewrite (onPrevClick_value t1 _ _ _ Hf1)
      by (unfold next_month; simpl; case_match; simpl; lia).
    rewrite <- surjective_pairing, prev_next_month by done. simpl.
    f_equal. apply time_value_eq.
    - rewrite fields_MakeDate by apply TimeWithinDay_range.
      rewrite Hf. apply fields_MakeDay_spill_same; [done|lia].
    - rewrite TimeWithinDay_MakeDate by apply TimeWithinDay_range. done. }
  assert (Hprev :
    d <= Gregorian.days_in_month (prev_month (y, m)).1 (prev_month (y, m)).2 ->
    onNextClick (onPrevClick (Some t)) = Some t).
  { intros Hle. rewrite (onPrevClick_value t y m d) by (done || lia).
    set (t1 := JSTime.MakeDate _ _).
    assert (Hf1 : fields t1 = ((prev_month (y, m)).1, (prev_month (y, m)).2, d)).
    { unfold t1. rewrite (moved_fields t y m d) by (done || by apply prev_month_range).
      destruct (Z.leb_spec d
        (Gregorian.days_in_month (prev_month (y, m)).1 (prev_month (y, m)).2));
        [done|lia]. }
    assert (Ht1 : JSTime.TimeWithinDay t1 = JSTime.TimeWithinDay t)
      by apply TimeWithinDay_MakeDate, TimeWithinDay_range.
    rewrite (onNextClick_value t1 _ _ _ Hf1)
      by (unfold prev_month; simpl; case_match; simpl; lia).
    rewrite <- surjective_pairing, next_prev_month by done. simpl.
    f_equal. apply time_value_eq.
    - rewrite fields_MakeDate by apply TimeWithinDay_range.
      rewrite Hf. apply fields_MakeDay_spill_same; [done|lia].
    - rewrite TimeWithinDay_MakeDate by apply TimeWithinDay_range. done. }
  split; [done|]. split; [done|].
  intros H28.
  pose proof (days_in_month_range (next_month (y, m)).1 (next_month (y, m)).2).
  pose proof (days_in_month_range (prev_month (y, m)).1 (prev_month (y, m)).2).
  split; [apply Hnext|apply Hprev]; lia.
Qed.

Lemma prev_next_round_trip_witness :
  fields 1673786096000 = (2023, 0, 15) /\
  -271819 <= 2023 <= 275758 /\
  15 <= 28 /\
  onPrevClick (onNextClick (Some 1673786096000)) = Some 1673786096000 /\
  onNextClick (onPrevClick (Some 1673786096000)) = Some 1673786096000.
Proof.
  assert (H1 : fields 1673786096000 = (2023, 0, 15)) by (vm_compute; reflexivity).
  assert (H2 : -271819 <= 2023 <= 275758) by lia.
  assert (H3 : 15 <= 28) by lia.
  exact (conj H1 (conj H2 (conj H3
    (proj2 (proj2 (prev_next_round_trip 1673786096000 2023 0 15 H1 H2)) H3)))).
Defined.

(** ** The cells of the view *)

Lemma filter_bool_app {A} (p : A -> bool) (l1 l2 : list A) :
  List.filter p (l1 ++ l2) = List.filter p l1 ++ List.filter p l2.
Proof. apply List.filter_app. Qed.

Lemma filter_bool_fmap {A B} (p : B -> bool) (f : A -> B) (l : list A) :
  List.filter p (f <$> l) = f <$> List.filter (fun x => p (f x)) l.
Proof.
  induction l as [|x l IH]; [done|]. rewrite fmap_cons. cbn [List.filter].
  destruct (p (f x)); by rewrite IH.
Qed.

Lemma filter_bool_ext {A} (p q : A -> bool) (l : list A) :
  (forall x, x ∈ l -> p x = q x) -> List.filter p l = List.filter q l.
Proof.
  induction l as [|x l IH]; [done|]. intros H. simpl.
  rewrite (H x) by left. rewrite IH; [done|]. intros y Hy. apply H. by right.
Qed.

Lemma filter_eqb_NoDup (k : Z) (l : list Z) :
  NoDup l -> k ∈ l -> List.filter (fun d => d =? k) l = [k].
Proof.
  induction 1 as [|x l Hx Hl IH]; [by intros ?%elem_of_nil|].
  intros Hk. simpl. destruct (Z.eqb_spec x k) as [->|Hne].
  - f_equal. apply filter_bool_none. intros y Hy.
    apply Z.eqb_neq. intros ->. done.
  - apply IH. apply elem_of_cons in Hk as [?|?]; [congruence|done].
Qed.

Lemma cells_today_placeholders (n : nat) :
  List.filter cell_today (replicate n EmptyCell) = [].
Proof. by induction n. Qed.

Lemma renderView_cells (t now : Z) (w : World) :
  view_cells (renderView (Some t) now w)
  = renderCalendar (fields t).1.1 (fields t).1.2 (JSTime.Day now) w.
Proof. reflexivity. Qed.

Lemma today_cells (w : World) (year month today : Z) :
  -271820 <= year <= 275759 -> ~ 0 <= year <= 99 -> 0 <= month <= 11 ->
  List.filter cell_today (renderCalendar year month today w) =
  if (year =? JSDate.YearFromDay today) && (month =? JSDate.MonthFromDay today)
  then [dayCell year month today w (JSDate.DateFromDay today)]
  else [].
Proof.
  intros Hy Hq Hm. rewrite renderCalendar_plain by done.
  rewrite filter_bool_app, cells_today_placeholders, filter_bool_fmap. simpl.
  destruct (fields_valid today) as [[_ Hd] _].
  destruct (Z.eqb_spec year (JSDate.YearFromDay today)) as [Ey|Ny];
    [destruct (Z.eqb_spec month (JSDate.MonthFromDay today)) as [Em|Nm]|];
    simpl.
  - rewrite <- Ey, <- Em in Hd.
    rewrite (filter_eqb_NoDup (JSDate.DateFromDay today)).
    + done.
    + apply NoDup_seqZ.
    + apply elem_of_seqZ. lia.
  - by rewrite (proj1 (filter_bool_none _ _)).
  - by rewrite (proj1 (filter_bool_none _ _)).
Qed.

(** X4. In the view of a month (of a year outside 0..99) the cells with
    the class "today" are: the one cell of today's day of the month when
    the month shown is the month of the clock, and none otherwise. *)
Theorem today_mark (t now : Z) (w : World) (year month d : Z) :
  fields t = (year, month, d) ->
  -271820 <= year <= 275759 -> ~ 0 <= year <= 99 ->
  List.filter cell_today (view_cells (renderView (Some t) now w)) =
  if (year =? (fields now).1.1) && (month =? (fields now).1.2)
  then [dayCell year month (JSTime.Day now) w (fields now).2]
  else [].
Proof.
  intros Hf Hy Hq. destruct (fields_inv _ _ _ _ Hf) as [[Hm _] _].
  rewrite renderView_cells, Hf. simpl fst. simpl snd.
  by apply today_cells.
Qed.

Lemma today_mark_witness :
  fields 1709630000000 = (2024, 2, 5) /\
  -271820 <= 2024 <= 275759 /\ ~ 0 <= 2024 <= 99 /\
  List.filter cell_today
    (view_cells (renderView (Some 1709630000000) 1710500000000 both_marked))
  = [dayCell 2024 2 (JSTime.Day 1710500000000) both_marked 15].
Proof.
  assert (H1 : fields 1709630000000 = (2024, 2, 5)) by (vm_compute; reflexivity).
  assert (H2 : -271820 <= 2024 <= 275759) by lia.
  assert (H3 : ~ 0 <= 2024 <= 99) by lia.
  exact (conj H1 (conj H2 (conj H3
    (today_mark 1709630000000 1710500000000 both_marked 2024 2 5 H1 H2 H3)))).
Defined.

Lemma digit_inj (a b : Z) : 0 <= a -> 0 <= b -> digit a = digit b -> a = b.
Proof. unfold digit. lia. Qed.

Lemma dateStr_day_inj (year month d1 d2 : Z) :
  0 <= d1 <= 99 -> 0 <= d2 <= 99 ->
  dateStr year month (Some d1) = dateStr year month (Some d2) -> d1 = d2.
Proof.
  intros H1 H2. unfold dateStr, numToString.
  intros E. do 4 apply app_inv_head in E.
  rewrite !pad2_digits in E by done.
  injection E as Ea Eb.
  apply digit_inj in Ea, Eb; [|Z.div_mod_to_equations; lia ..].
  Z.div_mod_to_equations. lia.
Qed.

Lemma omap_placeholders (n : nat) : omap cell_date (replicate n EmptyCell) = [].
Proof. by induction n. Qed.

Lemma omap_day_cells (year month today : Z) (w : World) (l : list Z) :
  omap cell_date (dayCell year month today w <$> l)
  = (fun day => dateStr year month (Some day)) <$> l.
Proof.
  induction l as [|x l IH]; [done|]. rewrite !fmap_cons.
  change (omap cell_date (dayCell year month today w x
                          :: (dayCell year month today w <$> l)))
    with (dateStr year month (Some x)
          :: omap cell_date (dayCell year month today w <$> l)).
  by rewrite IH.
Qed.

Lemma dateStr_days_NoDup (year month n : Z) :
  n <= 99 ->
  NoDup ((fun day => dateStr year month (Some day)) <$> seqZ 1 n).
Proof.
  intros Hn. apply NoDup_fmap_2_strong; [|apply NoDup_seqZ].
  intros d1 d2 [? ?]%elem_of_seqZ [? ?]%elem_of_seqZ.
  apply dateStr_day_inj; lia.
Qed.

(** X5. For a year of the range of Date outside 0..99 and a month
    0..11, the date strings held by the click listeners of the cells of
    the month are those of the days 1 to the length of the month, in
    order, and no two cells hold the same string: a day of the grid opens
    the picker for no other day's entries. *)
Theorem cell_dates_distinct (w : World) (year month today : Z) :
  -271820 <= year <= 275759 -> ~ 0 <= year <= 99 -> 0 <= month <= 11 ->
  omap cell_date (renderCalendar year month today w)
  = (fun day => dateStr year month (Some day))
      <$> seqZ 1 (Gregorian.days_in_month year month) /\
  NoDup (omap cell_date (renderCalendar year month today w)).
Proof.
  intros Hy Hq Hm.
  assert (E : omap cell_date (renderCalendar year month today w)
              = (fun day => dateStr year month (Some day))
                  <$> seqZ 1 (Gregorian.days_in_month year month)).
  { rewrite renderCalendar_plain by done.
    by rewrite omap_app, omap_placeholders, omap_day_cells. }
  split; [done|]. rewrite E.
  pose proof (days_in_month_range year month).
  apply dateStr_days_NoDup. lia.
Qed.

Lemma cell_dates_distinct_witness :
  -271820 <= 2024 <= 275759 /\ ~ 0 <= 2024 <= 99 /\ 0 <= 1 <= 11 /\
  NoDup (omap cell_date (renderCalendar 2024 1 0 january)).
Proof.
  assert (H1 : -271820 <= 2024 <= 275759) by lia.
  assert (H2 : ~ 0 <= 2024 <= 99) by lia.
  assert (H3 : 0 <= 1 <= 11) by lia.
  exact (conj H1 (conj H2 (conj H3
    (proj2 (cell_dates_distinct january 2024 1 0 H1 H2 H3))))).
Defined.

(** ** The icons of a day *)

Lemma findHabit_Some (w : World) (e : HabitEntry) (r : loc) :
  findHabit w e = Some r ->
  r ∈ habits (settings w) /\ Habit.id (deref w r) = HabitEntry.habitId e.
Proof.
  unfold findHabit. intros H. apply find_some in H as [Hin He].
  split; [by apply list_elem_of_In|]. by apply str_eqb_eq.
Qed.

Lemma findHabit_None (w : World) (e : HabitEntry) :
  findHabit w e = None <-> HabitEntry.habitId e ∉ habit_ids w.
Proof.
  unfold findHabit, habit_ids. split.
  - intros H [r [E Hr]]%list_elem_of_fmap.
    pose proof (find_none _ _ H r (proj1 (list_elem_of_In _ _) Hr)) as Hn.
    apply str_eqb_neq in Hn. congruence.
  - intros H. destruct (find _ _) as [r|] eqn:E; [|done].
    apply find_some in E as [Hin He]. exfalso. apply H.
    apply list_elem_of_fmap. exists r. split; [|by apply list_elem_of_In].
    symmetry. by apply str_eqb_eq.
Qed.

Lemma find_NoDup_fmap {A} (f : A -> jsstring) (l : list A) (x : A) :
  NoDup (f <$> l) -> x ∈ l ->
  find (fun y => str_eqb (f y) (f x)) l = Some x.
Proof.
  induction l as [|y l IH]; [by intros _ ?%elem_of_nil|].
  rewrite fmap_cons. intros [Hy Hl]%NoDup_cons Hx. simpl.
  destruct (str_eqb (f y) (f x)) eqn:E.
  - apply str_eqb_eq in E. apply elem_of_cons in Hx as [->|Hx]; [done|].
    exfalso. apply Hy. rewrite E. apply list_elem_of_fmap. by exists x.
  - apply str_eqb_neq in E. apply elem_of_cons in Hx as [->|Hx]; [done|].
    by apply IH.
Qed.

Lemma dayHabitsOf_nil (w : World) : dayHabitsOf w [] = [].
Proof. done. Qed.

Lemma dayHabitsOf_cons (w : World) (e : HabitEntry) (es : list HabitEntry) :
  dayHabitsOf w (e :: es)
  = match findHabit w e with
    | Some r => habitIcon (deref w r) :: dayHabitsOf w es
    | None => dayHabitsOf w es
    end.
Proof. unfold dayHabitsOf. simpl. by destruct (findHabit w e). Qed.

Lemma dayHabitsOf_app (w : World) (es1 es2 : list HabitEntry) :
  dayHabitsOf w (es1 ++ es2) = dayHabitsOf w es1 ++ dayHabitsOf w es2.
Proof. apply omap_app. Qed.

Lemma dayHabitsOf_found (w : World) (es : list HabitEntry) :
  Forall (fun e => HabitEntry.habitId e ∈ habit_ids w) es ->
  Forall2
    (fun e ic =>
       exists r, r ∈ habits (settings w) /\
                 Habit.id (deref w r) = HabitEntry.habitId e /\
                 ic = habitIcon (deref w r))
    es (dayHabitsOf w es).
Proof.
  induction 1 as [|e es He Hes IH]; [constructor|].
  rewrite dayHabitsOf_cons. destruct (findHabit w e) as [r|] eqn:E.
  - constructor; [|done]. exists r. by destruct (findHabit_Some _ _ _ E).
  - by apply findHabit_None in E.
Qed.

Lemma dayHabitsOf_length (w : World) (es : list HabitEntry) :
  length (dayHabitsOf w es)
  = length (List.filter
              (fun e => bool_decide (HabitEntry.habitId e ∈ habit_ids w)) es).
Proof.
  induction es as [|e es IH]; [done|].
  rewrite dayHabitsOf_cons. cbn [List.filter].
  destruct (findHabit w e) as [r|] eqn:E.
  - destruct (findHabit_Some _ _ _ E) as [Hr Hid].
    rewrite bool_decide_true; [simpl; by rewrite IH|].
    rewrite <- Hid. apply list_elem_of_fmap. by exists r.
  - apply findHabit_None in E. by rewrite bool_decide_false.
Qed.

(** X6. A day cell shows one icon for each entry of its day whose habit
    id is the id of a habit, in the order of the entries, the icon being
    that of a habit with the entry's id; an entry whose id no habit has
    is passed over without an icon, so a day shows as many icons as it
    has entries of existing habits.  In a store where every entry names
    the id of a habit each day shows exactly one icon per entry. *)
Theorem day_icons (w : World) :
  (forall es,
     Forall (fun e => HabitEntry.habitId e ∈ habit_ids w) es ->
     Forall2
       (fun e ic =>
          exists r, r ∈ habits (settings w) /\
                    Habit.id (deref w r) = HabitEntry.habitId e /\
                    ic = habitIcon (deref w r))
       es (dayHabitsOf w es)) /\
  (forall es1 e es2,
     HabitEntry.habitId e ∉ habit_ids w ->
     dayHabitsOf w (es1 ++ e :: es2) = dayHabitsOf w (es1 ++ es2)) /\
  (forall es,
     length (dayHabitsOf w es)
     = length (List.filter
                 (fun e => bool_decide (HabitEntry.habitId e ∈ habit_ids w)) es)) /\
  (no_orphans w ->
   forall date,
     length (dayHabitsOf w (entriesForDay w date)) = length (entriesForDay w date)).
Proof.
  split; [apply dayHabitsOf_found|]. split.
  { intros es1 e es2 He. rewrite !dayHabitsOf_app, dayHabitsOf_cons.
    by rewrite (proj2 (findHabit_None w e) He). }
  split; [apply dayHabitsOf_length|].
  intros Hno date. symmetry. eapply Forall2_length, dayHabitsOf_found.
  apply Forall_forall. intros e [He _]%entriesForDay_spec.
  by apply (proj1 (Forall_forall _ _) Hno).
Qed.

Lemma no_orphans_both_marked : no_orphans both_marked.
Proof.
  assert (E1 : entries (settings both_marked)
               = [HabitEntry.mk (lit "1700000000000") (lit "2024-03-05");
                  HabitEntry.mk (lit "1700000000001") (lit "2024-03-05")])
    by (vm_compute; reflexivity).
  assert (E2 : habit_ids both_marked = [lit "1700000000000"; lit "1700000000001"])
    by (vm_compute; reflexivity).
  unfold no_orphans. rewrite E1, E2.
  apply Forall_cons. split; [left|].
  apply Forall_cons. split; [right; left|apply Forall_nil_2].
Qed.

Lemma day_icons_witness :
  let date := lit "2024-03-05" in
  no_orphans both_marked /\
  entriesForDay both_marked date = entries (settings both_marked) /\
  length (dayHabitsOf both_marked (entriesForDay both_marked date))
  = length (entriesForDay both_marked date).
Proof.
  intros date.
  assert (E : entriesForDay both_marked date = entries (settings both_marked))
    by (vm_compute; reflexivity).
  exact (conj no_orphans_both_marked (conj E
    (proj2 (proj2 (proj2 (day_icons both_marked))) no_orphans_both_marked date))).
Defined.

(** ** The grid after a click in the picker *)

Lemma findHabit_same (w w' : World) (e : HabitEntry) :
  heap w' = heap w -> habits (settings w') = habits (settings w) ->
  findHabit w' e = findHabit w e.
Proof. unfold findHabit, deref. by intros -> ->. Qed.

Lemma dayHabitsOf_same (w w' : World) (es : list HabitEntry) :
  heap w' = heap w -> habits (settings w') = habits (settings w) ->
  dayHabitsOf w' es = dayHabitsOf w es.
Proof.
  intros Hh Hs. induction es as [|e es IH]; [done|].
  rewrite !dayHabitsOf_cons, (findHabit_same w w') by done.
  unfold deref. by rewrite Hh, IH.
Qed.

Lemma entriesForDay_mark (w : World) (date date' : jsstring) (habit : loc) :
  entriesForDay (exec (onChange date habit true) w) date'
  = entriesForDay w date'
    ++ (if str_eqb date date'
        then [HabitEntry.mk (Habit.id (deref w habit)) date] else []).
Proof.
  unfold entriesForDay. rewrite onChange_entries, filter_bool_app. by simpl.
Qed.

Lemma entriesForDay_unmark (w : World) (date date' : jsstring) (habit : loc) :
  entriesForDay (exec (onChange date habit false) w) date'
  = if str_eqb date date'
    then List.filter
           (fun e => negb (str_eqb (HabitEntry.habitId e) (Habit.id (deref w habit))))
           (entriesForDay w date')
    else entriesForDay w date'.
Proof.
  unfold entriesForDay. rewrite onChange_entries, filter_bool_comm.
  destruct (str_eqb date date') eqn:E.
  - apply str_eqb_eq in E as <-.
    apply filter_bool_ext. intros e [_ He]%elem_of_filter_bool.
    unfold is_pair. rewrite He. by rewrite andb_true_r.
  - apply str_eqb_neq in E. apply filter_bool_all.
    intros e [_ He]%elem_of_filter_bool. apply str_eqb_eq in He.
    unfold is_pair. replace (str_eqb (HabitEntry.date e) date) with false.
    + by rewrite andb_false_r.
    + symmetry. apply str_eqb_neq. congruence.
Qed.

(** X7. A click on a checkbox of the picker changes the icons of the
    picker's day only: a box that was unchecked adds the icon of its
    habit after the icons the day had, a box that was checked leaves the
    icons of the day's entries of the other habits; the cells of every
    other day are rendered as before. *)
Theorem click_updates_grid (w : World) (date : jsstring) (boxes : list Checkbox)
    (k : nat) (cb : Checkbox) :
  reachable (w, Picking date boxes) ->
  NoDup (habit_ids w) ->
  boxes !! k = Some cb ->
  let w' := exec (clickCheckbox date k boxes) w in
  let hid := Habit.id (deref w (cb_habit cb)) in
  dayHabitsOf w' (entriesForDay w' date) =
    (if checked cb
     then dayHabitsOf w
            (List.filter (fun e => negb (str_eqb (HabitEntry.habitId e) hid))
               (entriesForDay w date))
     else dayHabitsOf w (entriesForDay w date)
            ++ [habitIcon (deref w (cb_habit cb))]) /\
  (forall date', date' <> date ->
     entriesForDay w' date' = entriesForDay w date') /\
  (forall year month today day,
     dateStr year month (Some day) <> date ->
     dayCell year month today w' day = dayCell year month today w day).
Proof.
  intros Hr Hnd Hk w' hid.
  destruct (reachable_inv _ Hr) as (_ & _ & _ & Hb & _). simpl in Hb.
  assert (Hin : cb_habit cb ∈ habits (settings w)).
  { rewrite <- Hb. apply list_elem_of_fmap. exists cb. split; [done|].
    by eapply list_elem_of_lookup_2. }
  assert (Ew : w' = exec (onChange date (cb_habit cb) (negb (checked cb))) w).
  { unfold w', exec at 1. by rewrite (clickCheckbox_some _ _ _ _ _ Hk). }
  assert (Hh : heap w' = heap w) by (rewrite Ew; apply onChange_heap).
  assert (Hs : habits (settings w') = habits (settings w))
    by (rewrite Ew; apply onChange_habits).
  assert (Hother : forall date', date' <> date ->
            entriesForDay w' date' = entriesForDay w date').
  { intros date' Hne. rewrite Ew.
    assert (E : str_eqb date date' = false) by (apply str_eqb_neq; congruence).
    destruct (checked cb); simpl.
    - by rewrite entriesForDay_unmark, E.
    - rewrite entriesForDay_mark, E. apply app_nil_r. }
  split; [|split; [done|]].
  - rewrite (dayHabitsOf_same w w') by done. rewrite Ew.
    assert (E : str_eqb date date = true) by by apply str_eqb_eq.
    destruct (checked cb); simpl.
    + by rewrite entriesForDay_unmark, E.
    + rewrite entriesForDay_mark, E, dayHabitsOf_app. f_equal.
      rewrite dayHabitsOf_cons, dayHabitsOf_nil.
      unfold findHabit. simpl.
      by rewrite (find_NoDup_fmap (fun r => Habit.id (deref w r)) _ (cb_habit cb)).
  - intros year month today day Hne. unfold dayCell.
    by rewrite (dayHabitsOf_same w w'), Hother.
Qed.

Lemma both_marked_ids_distinct : NoDup (habit_ids both_marked).
Proof.
  assert (E : habit_ids both_marked = [lit "1700000000000"; lit "1700000000001"])
    by (vm_compute; reflexivity).
  rewrite E. apply NoDup_cons. split.
  - intros [H|H%elem_of_nil]%elem_of_cons; [discriminate H|done].
  - apply NoDup_singleton.
Qed.

Lemma click_updates_grid_witness :
  let date := lit "2024-03-05" in
  let boxes := pickerOpen date both_marked in
  let w' := exec (clickCheckbox date 0 boxes) both_marked in
  reachable (both_marked, Picking date boxes) /\
  NoDup (habit_ids both_marked) /\
  boxes !! 0%nat = Some (mkCheckbox 1%positive true) /\
  dayHabitsOf w' (entriesForDay w' date)
  = dayHabitsOf both_marked
      (List.filter
         (fun e => negb (str_eqb (HabitEntry.habitId e)
                           (Habit.id (deref both_marked 1%positive))))
         (entriesForDay both_marked date)).
Proof.
  intros date boxes w'.
  pose proof both_marked_ids_distinct as H2.
  assert (H3 : boxes !! 0%nat = Some (mkCheckbox 1%positive true))
    by (vm_compute; reflexivity).
  exact (conj reachable_both_marked (conj H2 (conj H3
    (proj1 (click_updates_grid both_marked date boxes 0 _
              reachable_both_marked H2 H3))))).
Defined.

(** ** The picker *)

Lemma onChange_disk (date : jsstring) (habit : loc) (c : bool) (w : World) :
  disk (exec (onChange date habit c) w)
  = serialise (exec (onChange date habit c) w) :: disk w.
Proof. destruct c; [by rewrite onChange_mark|by rewrite onChange_unmark]. Qed.

Lemma onChange_notices (date : jsstring) (habit : loc) (c : bool) (w : World) :
  notices (exec (onChange date habit c) w) = notices w.
Proof. destruct c; [by rewrite onChange_mark|by rewrite onChange_unmark]. Qed.

Lemma onChange_other_pairs (date : jsstring) (habit : loc) (c : bool) (w : World)
    (hid' date' : jsstring) :
  (hid', date') <> (Habit.id (deref w habit), date) ->
  pair_count hid' date' (entries (settings (exec (onChange date habit c) w)))
  = pair_count hid' date' (entries (settings w)).
Proof.
  intros Hne. rewrite onChange_entries. destruct c.
  - rewrite pair_count_app, pair_count_one.
    destruct (decide _); [done|lia].
  - by apply pair_count_unmark_other.
Qed.

(** X8. A click on box [k] of the picker touches nothing but the entries
    of the pair (habit of the box, day of the picker): the habits and
    their objects, the notices and the number of entries of every other
    pair stay as they were, the store is saved exactly once, and of the
    boxes only box [k] is flipped.  With no box [k] the click does
    nothing at all. *)
Theorem click_frame (w : World) (date : jsstring) (k : nat) (boxes : list Checkbox) :
  let w' := exec (clickCheckbox date k boxes) w in
  let boxes' := eval (clickCheckbox date k boxes) w in
  heap w' = heap w /\
  habits (settings w') = habits (settings w) /\
  notices w' = notices w /\
  length boxes' = length boxes /\
  (forall j, j <> k -> boxes' !! j = boxes !! j) /\
  match boxes !! k with
  | None => w' = w /\ boxes' = boxes
  | Some cb =>
      disk w' = serialise w' :: disk w /\
      boxes' !! k = Some (mkCheckbox (cb_habit cb) (negb (checked cb))) /\
      (forall hid' date',
         (hid', date') <> (Habit.id (deref w (cb_habit cb)), date) ->
         pair_count hid' date' (entries (settings w'))
         = pair_count hid' date' (entries (settings w)))
  end.
Proof.
  intros w' boxes'. unfold w', boxes', exec, eval.
  destruct (boxes !! k) as [cb|] eqn:Hk.
  - rewrite (clickCheckbox_some _ _ _ _ _ Hk). simpl.
    split; [apply onChange_heap|]. split; [apply onChange_habits|].
    split; [apply onChange_notices|]. split; [apply length_insert|].
    split; [intros j Hj; by apply list_lookup_insert_ne|].
    split; [apply onChange_disk|]. split.
    + apply list_lookup_insert_eq. by eapply lookup_lt_Some.
    + intros hid' date'. apply onChange_other_pairs.
  - rewrite (clickCheckbox_none _ _ _ _ Hk). simpl. done.
Qed.

(** X9. A click on a day cell changes nothing in the store.  When there
    is a habit it opens the picker with one checkbox per habit, in the
    order of the habits, each checked exactly when its habit has an entry
    on the day; when there is none it shows the hint to add habits and
    opens nothing. *)
Theorem day_click (w : World) (date : jsstring) :
  let w' := exec (onDayClick date) w in
  heap w' = heap w /\ settings w' = settings w /\ disk w' = disk w /\
  match eval (onDayClick date) w with
  | Some boxes =>
      habits (settings w) <> [] /\
      notices w' = notices w /\
      cb_habit <$> boxes = habits (settings w) /\
      synced date boxes w
  | None =>
      habits (settings w) = [] /\
      notices w' = lit "Add some habits in settings first!" :: notices w
  end.
Proof.
  unfold onDayClick, exec, eval, mbind, M_bind, get. simpl.
  destruct (habits (settings w)) as [|r rs] eqn:E; simpl.
  - done.
  - split; [done|]. split; [done|]. split; [done|]. split; [done|].
    split; [done|]. split.
    + by rewrite pickerOpen_habits.
    + apply pickerOpen_synced.
Qed.

(** ** The monthly summary *)

Lemma monthlyCount_in_month (w : World) (habit : loc) (year month : Z) :
  monthlyCount w habit year month
  = length
      (List.filter
         (fun e => str_eqb (HabitEntry.habitId e) (Habit.id (deref w habit))
                   && in_month year month e)
         (entries (settings w))).
Proof.
  unfold monthlyCount, in_month. f_equal. apply filter_bool_ext.
  intros e _. by rewrite andb_assoc.
Qed.

Lemma summary_counts_open (year month : Z) (w : World) :
  summary_counts (summaryOpen year month w)
  = (fun habit => monthlyCount w habit year month) <$> habits (settings w).
Proof.
  unfold summaryOpen. destruct (habits (settings w)) as [|r rs]; [done|].
  simpl length. cbn [Nat.eqb summary_counts].
  by rewrite <- list_fmap_compose.
Qed.

(** Among distinct ids, exactly one is the id of an entry whose habit
    exists. *)
Lemma sum_id_matches (R : bool) (i : jsstring) (ids : list jsstring) :
  NoDup ids -> i ∈ ids ->
  sum_list ((fun j => if str_eqb i j && R then 1 else 0)%nat <$> ids)
  = (if R then 1 else 0)%nat.
Proof.
  induction 1 as [|j ids Hj Hnd IH]; [by intros ?%elem_of_nil|].
  intros Hi. rewrite fmap_cons. simpl.
  destruct (str_eqb i j) eqn:E.
  - apply str_eqb_eq in E as <-.
    assert (Z0 : sum_list ((fun j => if str_eqb i j && R then 1 else 0)%nat <$> ids)
                 = O).
    { clear IH Hi Hnd. induction ids as [|j ids IH]; [done|].
      rewrite fmap_cons. simpl.
      assert (E : str_eqb i j = false).
      { apply str_eqb_neq. intros ->. apply Hj. left. }
      rewrite E. simpl. apply IH. intros H. apply Hj. by right. }
    rewrite Z0. simpl. lia.
  - simpl. apply IH. apply elem_of_cons in Hi as [->|Hi]; [|done].
    apply str_eqb_neq in E. done.
Qed.

Lemma sum_list_fmap_add {A} (f g : A -> nat) (l : list A) :
  (sum_list (f <$> l) + sum_list (g <$> l))%nat
  = sum_list ((fun x => f x + g x)%nat <$> l).
Proof.
  induction l as [|x l IH]; [done|]. rewrite !fmap_cons. simpl.
  rewrite <- IH. lia.
Qed.

Lemma sum_counts (R : HabitEntry -> bool) (ids : list jsstring)
    (es : list HabitEntry) :
  NoDup ids ->
  Forall (fun e => HabitEntry.habitId e ∈ ids) es ->
  sum_list
    ((fun i => length (List.filter
                         (fun e => str_eqb (HabitEntry.habitId e) i && R e) es))
       <$> ids)
  = length (List.filter R es).
Proof.
  intros Hnd. induction 1 as [|e es He Hes IH].
  - simpl. induction ids as [|i ids IHi]; [done|].
    rewrite fmap_cons. simpl. apply IHi. by apply NoDup_cons in Hnd as [_ ?].
  - transitivity
      (sum_list ((fun j => if str_eqb (HabitEntry.habitId e) j && R e
                           then 1 else 0)%nat <$> ids)
       + sum_list
           ((fun i => length (List.filter
                                (fun e => str_eqb (HabitEntry.habitId e) i && R e) es))
              <$> ids))%nat.
    + rewrite sum_list_fmap_add. f_equal. apply list_fmap_ext.
      intros _ i _. cbn [List.filter].
      by destruct (str_eqb (HabitEntry.habitId e) i && R e).
    + rewrite IH, sum_id_matches by done. simpl.
      destruct (R e); simpl; lia.
Qed.

(** X10. The summary lists one count per habit, in the order of the
    habits.  When the habits have distinct ids and every entry names the
    id of a habit, the counts add up to the number of entries whose date
    lies between the two bounds of the month: every such entry is counted
    for exactly one habit. *)
Theorem summary_total (w : World) (year month : Z) :
  NoDup (habit_ids w) -> no_orphans w ->
  summary_counts (summaryOpen year month w)
  = (fun habit => monthlyCount w habit year month) <$> habits (settings w) /\
  sum_list (summary_counts (summaryOpen year month w))
  = length (List.filter (in_month year month) (entries (settings w))).
Proof.
  intros Hnd Hno. split; [apply summary_counts_open|].
  rewrite summary_counts_open.
  rewrite <- (sum_counts (in_month year month) (habit_ids w)) by done.
  unfold habit_ids. rewrite <- list_fmap_compose. f_equal.
  apply list_fmap_ext. intros _ r _. simpl. apply monthlyCount_in_month.
Qed.

Lemma summary_total_witness :
  NoDup (habit_ids both_marked) /\ no_orphans both_marked /\
  sum_list (summary_counts (summaryOpen 2024 2 both_marked))
  = length (List.filter (in_month 2024 2) (entries (settings both_marked))).
Proof.
  pose proof both_marked_ids_distinct as H1.
  pose proof no_orphans_both_marked as H2.
  exact (conj H1 (conj H2 (proj2 (summary_total both_marked 2024 2 H1 H2)))).
Defined.

(** ** Editing a habit *)

Lemma monthlyCount_same (w w' : World) (habit : loc) (year month : Z) :
  Habit.id (deref w' habit) = Habit.id (deref w habit) ->
  entries (settings w') = entries (settings w) ->
  monthlyCount w' habit year month = monthlyCount w habit year month.
Proof. unfold monthlyCount. by intros -> ->. Qed.

Lemma pickerOpen_same (w w' : World) (date : jsstring) :
  (forall r, Habit.id (deref w' r) = Habit.id (deref w r)) ->
  settings w' = settings w ->
  pickerOpen date w' = pickerOpen date w.
Proof.
  intros Hid Hs. unfold pickerOpen. rewrite Hs.
  apply list_fmap_ext. intros _ r _. by rewrite Hid.
Qed.

Lemma findHabit_same_ids (w w' : World) (e : HabitEntry) :
  (forall r, Habit.id (deref w' r) = Habit.id (deref w r)) ->
  habits (settings w') = habits (settings w) ->
  findHabit w' e = findHabit w e.
Proof.
  intros Hid Hs. unfold findHabit. rewrite Hs. clear Hs.
  induction (habits (settings w)) as [|r rs IH]; [done|].
  cbn [find]. by rewrite Hid, IH.
Qed.

(** X11. Saving an edit changes the name, icon and colour of the edited
    object and nothing else: the habit array and the entries are the
    same, every habit keeps its id, the other habit objects are
    untouched, so every monthly count, every checkbox of a picker and the
    habit each entry resolves to stay as they were. *)
Theorem edit_frame (w : World) (r : loc) (nameValue iconValue colorValue : jsstring)
    (now : Z) :
  trim nameValue <> [] -> trim iconValue <> [] ->
  let w' := exec (onSaveClick (Some r) nameValue iconValue colorValue now) w in
  settings w' = settings w /\
  habit_ids w' = habit_ids w /\
  (forall r', r' <> r -> deref w' r' = deref w r') /\
  (forall r', Habit.id (deref w' r') = Habit.id (deref w r')) /\
  (forall habit year month,
     monthlyCount w' habit year month = monthlyCount w habit year month) /\
  (forall date, pickerOpen date w' = pickerOpen date w) /\
  (forall e, findHabit w' e = findHabit w e) /\
  notices w' = (lit "Updated habit: " ++ trim nameValue) :: notices w /\
  eval (onSaveClick (Some r) nameValue iconValue colorValue now) w = true.
Proof.
  intros Hn Hi w'.
  pose proof (edit_settings w r nameValue iconValue colorValue now Hn Hi) as Hs.
  pose proof (edit_id w r nameValue iconValue colorValue now Hn Hi) as Hid.
  fold w' in Hs, Hid.
  split; [done|]. split; [by apply edit_habit_ids|].
  split; [intros r'; by apply edit_deref_other|]. split; [done|].
  split; [intros; apply monthlyCount_same; [done|by rewrite Hs]|].
  split; [intros; by apply pickerOpen_same|].
  split; [intros; apply findHabit_same_ids; [done|by rewrite Hs]|].
  unfold w', exec, eval. by rewrite onSaveClick_edit.
Qed.

Lemma edit_frame_witness :
  trim (lit " Walk ") <> [] /\ trim (lit "sun") <> [] /\
  habit_ids (exec (onSaveClick (Some 1%positive) (lit " Walk ") (lit "sun")
                     (lit "#6366f1") 0) both_marked)
  = habit_ids both_marked.
Proof.
  assert (H1 : trim (lit " Walk ") <> []) by (vm_compute; discriminate).
  assert (H2 : trim (lit "sun") <> []) by (vm_compute; discriminate).
  exact (conj H1 (conj H2
    (proj1 (proj2 (edit_frame both_marked 1%positive (lit " Walk ") (lit "sun")
                     (lit "#6366f1") 0 H1 H2))))).
Defined.

Lemma trimStart_fixed (s : jsstring) :
  (forall c s', s = c :: s' -> strippable c = false) -> trimStart s = s.
Proof. destruct s as [|c s]; [done|]. intros H. simpl. by rewrite (H c s). Qed.

Lemma trim_fixed (s : jsstring) : trimmed s -> trim s = s.
Proof.
  intros [Hhead Hlast]. unfold trim, trimEnd.
  rewrite (trimStart_fixed s) by done.
  rewrite trimStart_fixed; [apply rev_involutive|].
  intros c s' E. apply (Hlast c (rev s')).
  rewrite <- (rev_involutive s), E. simpl. done.
Qed.

Lemma alter_fixed (f : Habit -> Habit) (r : loc) (m : gmap loc Habit) (h : Habit) :
  m !! r = Some h -> f h = h -> alter f r m = m.
Proof.
  intros Hr Hf. apply map_eq. intros r'.
  destruct (decide (r' = r)) as [->|Hne].
  - by rewrite lookup_alter_eq, Hr; simpl; rewrite Hf.
  - by rewrite lookup_alter_ne.
Qed.

(** X12. In every state the user can reach, Save in the edit modal of a
    row with the three inputs holding the habit's own name, icon and
    colour leaves the store as it is: no field changes, since a stored
    name and icon are already trimmed; the unchanged store is saved once
    more. *)
Theorem edit_unchanged (w : World) (ui : UI) (row : Row) (now : Z) :
  reachable (w, ui) ->
  row ∈ eval display w ->
  let h := deref w (row_habit row) in
  let w' := exec (onSaveClick (Some (row_habit row)) (Habit.name h) (Habit.icon h)
                    (Habit.color h) now) w in
  heap w' = heap w /\ settings w' = settings w /\
  disk w' = serialise w :: disk w.
Proof.
  intros Hr Hrow h w'.
  destruct (reachable_inv _ Hr) as ([_ Hlive] & Htidy & _). simpl in *.
  apply display_rows in Hrow. apply list_elem_of_lookup_2 in Hrow.
  pose proof (proj1 (Forall_forall _ _) Htidy _ Hrow) as (Hn & Hi & Hne & Hie).
  fold h in Hn, Hi, Hne, Hie.
  pose proof (proj1 (Forall_forall _ _) Hlive _ Hrow) as [h0 Hh0].
  assert (Eh : h = h0) by (unfold h, deref; by rewrite (lookup_total_correct _ _ _ Hh0)).
  assert (Hn' : trim (Habit.name h) <> []) by by rewrite trim_fixed.
  assert (Hi' : trim (Habit.icon h) <> []) by by rewrite trim_fixed.
  destruct (onSaveClick_edit_fields (row_habit row) (Habit.name h) (Habit.icon h)
              (Habit.color h) now w Hn' Hi') as (Hheap & Hset & Hdisk).
  fold w' in Hheap, Hset, Hdisk.
  assert (Hheap' : heap w' = heap w).
  { rewrite Hheap, !trim_fixed by done.
    apply (alter_fixed _ _ _ h0); [done|]. rewrite <- Eh. by destruct h. }
  split; [done|]. split; [done|].
  rewrite Hdisk. f_equal. unfold serialise, deref. by rewrite Hheap', Hset.
Qed.

Lemma edit_unchanged_witness :
  reachable (two_habits, Idle) /\
  mkRow 1%positive 0 ∈ eval display two_habits /\
  settings
    (exec (onSaveClick (Some 1%positive)
             (Habit.name (deref two_habits 1%positive))
             (Habit.icon (deref two_habits 1%positive))
             (Habit.color (deref two_habits 1%positive)) 5) two_habits)
  = settings two_habits.
Proof.
  assert (H2 : mkRow 1%positive 0 ∈ eval display two_habits).
  { apply display_rows. vm_compute. reflexivity. }
  exact (conj reachable_two_habits (conj H2
    (proj1 (proj2 (edit_unchanged two_habits Idle (mkRow 1%positive 0) 5
                     reachable_two_habits H2))))).
Defined.

(** ** A new habit *)

Lemma find_app_l {A} (p : A -> bool) (l1 l2 : list A) (x : A) :
  find p l1 = Some x -> find p (l1 ++ l2) = Some x.
Proof.
  induction l1 as [|y l1 IH]; [done|]. simpl. destruct (p y); [done|apply IH].
Qed.

Lemma find_ext_elem {A} (p q : A -> bool) (l : list A) :
  (forall x, x ∈ l -> p x = q x) -> find p l = find q l.
Proof.
  induction l as [|y l IH]; [done|]. intros H. simpl.
  rewrite (H y) by left. rewrite IH; [done|]. intros x Hx. apply H. by right.
Qed.

Lemma existsb_none {A} (p : A -> bool) (l : list A) :
  (forall x, x ∈ l -> p x = false) -> existsb p l = false.
Proof.
  induction l as [|y l IH]; [done|]. intros H. simpl.
  rewrite (H y) by left. apply IH. intros x Hx. apply H. by right.
Qed.

Lemma no_entry_of_id (w : World) (hid : jsstring) :
  no_orphans w -> hid ∉ habit_ids w ->
  forall e, e ∈ entries (settings w) -> str_eqb (HabitEntry.habitId e) hid = false.
Proof.
  intros Hno Hid e He. apply str_eqb_neq. intros <-.
  by apply Hid, (proj1 (Forall_forall _ _) Hno).
Qed.

Lemma dayHabitsOf_appended (w w' : World) (r : loc) (es : list HabitEntry) :
  habits (settings w') = habits (settings w) ++ [r] ->
  (forall r', r' ∈ habits (settings w) -> deref w' r' = deref w r') ->
  Forall (fun e => HabitEntry.habitId e ∈ habit_ids w) es ->
  dayHabitsOf w' es = dayHabitsOf w es.
Proof.
  intros Hhabits Hold. induction 1 as [|e es He Hes IH]; [done|].
  rewrite !dayHabitsOf_cons.
  destruct (findHabit w e) as [r0|] eqn:Ef; [|by apply findHabit_None in Ef].
  assert (Ef' : findHabit w' e = Some r0).
  { unfold findHabit in *. rewrite Hhabits. apply find_app_l.
    rewrite <- Ef. apply find_ext_elem. intros x Hx. by rewrite Hold. }
  rewrite Ef', IH, Hold; [done|]. by destruct (findHabit_Some _ _ _ Ef).
Qed.

(** X13. A habit added with an id that no habit has, in a store where
    every entry names the id of a habit, starts unmarked: no day has an
    entry of it, its monthly count is 0 in every month and its checkbox,
    the last of every picker, is unchecked; the checkboxes before it and
    the icons of every day are the same as before the addition. *)
Theorem new_habit_unmarked (w : World) (nameValue iconValue colorValue : jsstring)
    (now : Z) :
  wf w -> no_orphans w ->
  trim nameValue <> [] -> trim iconValue <> [] ->
  toString now ∉ habit_ids w ->
  let w' := exec (onSaveClick None nameValue iconValue colorValue now) w in
  let r := fresh (dom (heap w)) in
  (forall date, pair_count (toString now) date (entries (settings w')) = O) /\
  (forall year month, monthlyCount w' r year month = O) /\
  (forall date, pickerOpen date w' = pickerOpen date w ++ [mkCheckbox r false]) /\
  (forall date,
     dayHabitsOf w' (entriesForDay w' date) = dayHabitsOf w (entriesForDay w date)) /\
  no_orphans w'.
Proof.
  intros Hwf Hno Hn Hi Hid w' r.
  destruct (onSaveClick_add_fields nameValue iconValue colorValue now w Hn Hi)
    as (_ & Hhabits & Hentries & _).
  fold w' r in Hhabits, Hentries.
  pose proof (add_deref_new w nameValue iconValue colorValue now Hn Hi) as Hnew.
  pose proof (add_deref_old w nameValue iconValue colorValue now Hwf Hn Hi) as Hold.
  fold w' r in Hnew, Hold.
  pose proof (no_entry_of_id w _ Hno Hid) as Hnone.
  split; [|split; [|split; [|split]]].
  - intros date. unfold pair_count. rewrite Hentries.
    rewrite (proj1 (filter_bool_none _ _)); [done|].
    intros e He. unfold is_pair. by rewrite (Hnone e He).
  - intros year month. unfold monthlyCount. rewrite Hentries, Hnew. simpl.
    rewrite (proj1 (filter_bool_none _ _)); [done|].
    intros e He. by rewrite (Hnone e He).
  - intros date. unfold pickerOpen. rewrite Hhabits, Hentries, fmap_app.
    f_equal.
    + apply fmap_ext_elem. intros r' Hr'. by rewrite Hold.
    + simpl. f_equal. f_equal. rewrite Hnew. simpl. apply existsb_none.
      intros e [He _]%elem_of_filter_bool. by apply Hnone.
  - intros date.
    assert (E : entriesForDay w' date = entriesForDay w date)
      by (unfold entriesForDay; by rewrite Hentries).
    rewrite E.
    assert (Hes : Forall (fun e => HabitEntry.habitId e ∈ habit_ids w)
                    (entriesForDay w date)).
    { apply Forall_forall. intros e [He _]%entriesForDay_spec.
      by apply (proj1 (Forall_forall _ _) Hno). }
    by apply (dayHabitsOf_appended w w' r).
  - pose proof (add_habit_ids w nameValue iconValue colorValue now Hwf Hn Hi) as Hids.
    fold w' in Hids. unfold no_orphans. rewrite Hentries, Hids.
    eapply Forall_impl; [exact Hno|]. intros e He. simpl.
    apply elem_of_app. by left.
Qed.

Lemma new_habit_unmarked_witness :
  wf both_marked /\ no_orphans both_marked /\
  trim (lit " Walk ") <> [] /\ trim (lit "sun") <> [] /\
  (toString 1700000000002 ∉ habit_ids both_marked) /\
  forall year month,
    monthlyCount
      (exec (onSaveClick None (lit " Walk ") (lit "sun") (lit "#6366f1") 1700000000002)
         both_marked)
      (fresh (dom (heap both_marked))) year month = O.
Proof.
  destruct (reachable_inv _ reachable_both_marked) as (H1 & _).
  pose proof no_orphans_both_marked as H2.
  assert (H3 : trim (lit " Walk ") <> []) by (vm_compute; discriminate).
  assert (H4 : trim (lit "sun") <> []) by (vm_compute; discriminate).
  assert (H5 : toString 1700000000002 ∉ habit_ids both_marked).
  { assert (E : habit_ids both_marked = [lit "1700000000000"; lit "1700000000001"])
      by (vm_compute; reflexivity).
    assert (E' : toString 1700000000002 = lit "1700000000002")
      by (vm_compute; reflexivity).
    rewrite E, E'.
    intros H. apply elem_of_cons in H as [H|H]; [discriminate H|].
    apply elem_of_cons in H as [H|H]; [discriminate H|].
    by apply elem_of_nil in H. }
  exact (conj H1 (conj H2 (conj H3 (conj H4 (conj H5
    (proj1 (proj2 (new_habit_unmarked both_marked (lit " Walk ") (lit "sun")
                     (lit "#6366f1") 1700000000002 H1 H2 H3 H4 H5)))))))).
Defined.

(** ** Deleting a habit *)





(** ** What is on disk *)

Lemma onSaveClick_disk (habit : option loc) (nameValue iconValue colorValue : jsstring)
    (now : Z) (w : World) :
  let w' := exec (onSaveClick habit nameValue iconValue colorValue now) w in
  disk w' = disk w \/ disk w' = serialise w' :: disk w.
Proof.
  intros w'. unfold w', exec.
  destruct (decide (trim nameValue = [])) as [Hn|Hn];
    [left; by rewrite onSaveClick_no_name|].
  destruct (decide (trim iconValue = [])) as [Hi|Hi];
    [left; by rewrite onSaveClick_no_icon|].
  right. destruct habit as [r|].
  - by destruct (onSaveClick_edit_fields r nameValue iconValue colorValue now w Hn Hi)
      as (_ & _ & ?).
  - by destruct (onSaveClick_add_fields nameValue iconValue colorValue now w Hn Hi)
      as (_ & _ & _ & ?).
Qed.

Lemma onDeleteClick_disk (habit : loc) (index : nat) (w : World) :
  let w' := exec (onDeleteClick habit index) w in
  disk w' = serialise w' :: disk w.
Proof. intros w'. unfold w'. by rewrite onDeleteClick_exec. Qed.

Lemma clickCheckbox_disk (date : jsstring) (k : nat) (boxes : list Checkbox)
    (w : World) :
  let w' := exec (clickCheckbox date k boxes) w in
  disk w' = disk w \/ disk w' = serialise w' :: disk w.
Proof.
  intros w'. unfold w', exec. destruct (boxes !! k) as [cb|] eqn:Hk.
  - right. rewrite (clickCheckbox_some _ _ _ _ _ Hk). apply onChange_disk.
  - left. by rewrite (clickCheckbox_none _ _ _ _ Hk).
Qed.

Lemma onDayClick_store (date : jsstring) (w : World) :
  let w' := exec (onDayClick date) w in
  heap w' = heap w /\ settings w' = settings w /\ disk w' = disk w.
Proof.
  unfold onDayClick, exec, mbind, M_bind, get. simpl.
  by destruct (habits (settings w)).
Qed.

(** X15. No change is left unsaved: in every state the user can reach
    the payload written last is the current store (or nothing was ever
    written and the store is the default one), and an action writes at
    most one payload, the store it leaves, on top of the ones written
    before. *)
Theorem every_change_saved (c : World * UI) :
  reachable c ->
  persisted (fst c) /\
  (forall c', step c c' ->
     disk (fst c') = disk (fst c) \/
     disk (fst c') = serialise (fst c') :: disk (fst c)).
Proof.
  intros Hr. split; [by apply reachable_persisted|].
  intros c' Hstep. destruct Hstep; simpl.
  - apply onSaveClick_disk.
  - apply onSaveClick_disk.
  - right. apply onDeleteClick_disk.
  - left. by destruct (onDayClick_store date w) as (_ & _ & ?).
  - apply clickCheckbox_disk.
  - by left.
  - left. by destruct (onload_fields w) as (_ & _ & _ & ?).
  - right. apply onDeleteClick_disk.
  - right. apply onDeleteClick_disk.
  - by left.
  - by left.
  - apply onSaveClick_disk.
  - by left.
Qed.

Lemma every_change_saved_witness :
  reachable (both_marked,
             Picking (lit "2024-03-05") (pickerOpen (lit "2024-03-05") both_marked)) /\
  persisted both_marked.
Proof.
  exact (conj reachable_both_marked
           (proj1 (every_change_saved _ reachable_both_marked))).
Defined.

(** ** Starting again *)

Lemma find_fmap {A B} (p : B -> bool) (f : A -> B) (l : list A) :
  find p (f <$> l) = f <$> find (fun x => p (f x)) l.
Proof.
  induction l as [|x l IH]; [done|]. rewrite fmap_cons. cbn [find].
  by destruct (p (f x)).
Qed.

Lemma dayHabitsOf_data (w : World) (es : list HabitEntry) :
  dayHabitsOf w es
  = omap (fun e =>
            habitIcon <$>
              find (fun h => str_eqb (Habit.id h) (HabitEntry.habitId e))
                (data_habits (serialise w))) es.
Proof.
  induction es as [|e es IH]; [done|].
  rewrite dayHabitsOf_cons, IH. simpl. rewrite find_fmap.
  unfold findHabit. by destruct (find _ _).
Qed.

Lemma renderCalendar_data (w w' : World) (year month today : Z) :
  serialise w' = serialise w ->
  renderCalendar year month today w' = renderCalendar year month today w.
Proof.
  intros E. unfold renderCalendar. f_equal. apply list_fmap_ext.
  intros _ day _. unfold dayCell. f_equal.
  assert (Ee : entries (settings w') = entries (settings w))
    by exact (f_equal data_entries E).
  rewrite !dayHabitsOf_data, E. unfold entriesForDay. by rewrite Ee.
Qed.

Lemma summaryOpen_data (w w' : World) (year month : Z) :
  serialise w' = serialise w ->
  summaryOpen year month w' = summaryOpen year month w.
Proof.
  intros E.
  assert (Ee : entries (settings w') = entries (settings w))
    by exact (f_equal data_entries E).
  assert (Eh : deref w' <$> habits (settings w') = deref w <$> habits (settings w))
    by exact (f_equal data_habits E).
  assert (El : length (habits (settings w')) = length (habits (settings w))).
  { by rewrite <- (length_fmap (deref w')), Eh, length_fmap. }
  unfold summaryOpen. rewrite El.
  destruct (length (habits (settings w)) =? 0)%nat; [done|]. f_equal.
  unfold monthlyCount. rewrite Ee.
  rewrite (list_fmap_compose (deref w')
             (fun h => (habitIcon h,
                        length (List.filter
                                  (fun e => str_eqb (HabitEntry.habitId e) (Habit.id h)
                                            && str_geb (HabitEntry.date e)
                                                 (monthStart year month)
                                            && str_leb (HabitEntry.date e)
                                                 (monthEnd year month))
                                  (entries (settings w)))))).
  rewrite Eh. by rewrite <- list_fmap_compose.
Qed.

(** X16. Closing the application and loading the plugin again loses
    nothing in any state the user can reach: the store read back has the
    same habits, field by field and in the same order, and the same
    entries, so every month of the calendar and every monthly summary is
    rendered as before. *)
Theorem reload_keeps_view (c : World * UI) :
  reachable c ->
  let w := fst c in
  serialise (onload w) = serialise w /\
  wf (onload w) /\
  notices (onload w) = [] /\
  (forall year month today,
     renderCalendar year month today (onload w) = renderCalendar year month today w) /\
  (forall year month, summaryOpen year month (onload w) = summaryOpen year month w).
Proof.
  intros Hr w. pose proof (reload_round_trip c Hr) as E. fold w in E.
  split; [done|]. split; [by destruct (onload_fields w)|].
  split.
  { unfold onload, loadSettings.
    destruct (head (disk w)) as [d|]; [|done].
    unfold exec, mbind, M_bind. simpl.
    destruct (revive_spec (data_habits d)
                {| heap := ∅; settings := DEFAULT_SETTINGS; disk := disk w;
                   notices := [] |}) as (_ & _ & _ & _ & _ & _ & _ & Hn).
    unfold exec in Hn.
    destruct (revive (data_habits d) _) as [rs w1]. simpl in *. done. }
  split; [intros; by apply renderCalendar_data|].
  intros; by apply summaryOpen_data.
Qed.

Lemma reload_keeps_view_witness :
  reachable (both_marked,
             Picking (lit "2024-03-05") (pickerOpen (lit "2024-03-05") both_marked)) /\
  serialise (onload both_marked) = serialise both_marked.
Proof.
  exact (conj reachable_both_marked
           (proj1 (reload_keeps_view _ reachable_both_marked))).
Defined.

(** ** How the store evolves *)

Lemma filter_bool_sublist {A} (p : A -> bool) (l : list A) :
  List.filter p l `sublist_of` l.
Proof.
  induction l as [|x l IH]; [done|]. simpl.
  destruct (p x); [by apply sublist_skip|by apply sublist_cons].
Qed.

Lemma habit_ids_data (w : World) :
  habit_ids w = Habit.id <$> data_habits (serialise w).
Proof. unfold habit_ids, serialise. simpl. by rewrite <- list_fmap_compose. Qed.

Lemma habit_ids_same (w w' : World) :
  heap w' = heap w -> settings w' = settings w -> habit_ids w' = habit_ids w.
Proof. unfold habit_ids, deref. by intros -> ->. Qed.

Lemma onSaveClick_ids (habit : option loc) (nameValue iconValue colorValue : jsstring)
    (now : Z) (w : World) :
  wf w ->
  let w' := exec (onSaveClick habit nameValue iconValue colorValue now) w in
  (habit_ids w' = habit_ids w \/ habit_ids w' = habit_ids w ++ [toString now]) /\
  entries (settings w') = entries (settings w).
Proof.
  intros Hwf w'. unfold w'.
  destruct (decide (trim nameValue = [])) as [Hn|Hn].
  { unfold exec. rewrite onSaveClick_no_name by done. simpl. split; [by left|done]. }
  destruct (decide (trim iconValue = [])) as [Hi|Hi].
  { unfold exec. rewrite onSaveClick_no_icon by done. simpl. split; [by left|done]. }
  destruct habit as [r|].
  - split; [left; by apply edit_habit_ids|].
    by rewrite (edit_settings w r nameValue iconValue colorValue now Hn Hi).
  - split; [right; by apply add_habit_ids|].
    by destruct (onSaveClick_add_fields nameValue iconValue colorValue now w Hn Hi)
      as (_ & _ & ? & _).
Qed.

(** X17. Along every run of the interface an action leaves the list of
    habit ids as it is, appends the decimal string of a clock reading at
    its end, or removes one position; ids are never rewritten or moved.
    The entries only lose elements, keeping the order of the others, or
    gain one entry at the end, for the id of an existing habit. *)
Theorem store_evolution (c c' : World * UI) :
  reachable c -> step c c' ->
  (habit_ids (fst c') = habit_ids (fst c) \/
   (exists now, habit_ids (fst c') = habit_ids (fst c) ++ [toString now]) \/
   (exists i, habit_ids (fst c') = delete i (habit_ids (fst c)))) /\
  (entries (settings (fst c')) `sublist_of` entries (settings (fst c)) \/
   exists e, entries (settings (fst c')) = entries (settings (fst c)) ++ [e] /\
             HabitEntry.habitId e ∈ habit_ids (fst c)).
Proof.
  intros Hr Hstep.
  pose proof (reachable_inv _ Hr) as (Hwf & _ & _ & Hui).
  pose proof (reload_round_trip c Hr) as Hreload.
  destruct Hstep; simpl in *.
  - destruct (onSaveClick_ids None nameValue iconValue colorValue now w Hwf)
      as [[E|E] Ee].
    + split; [by left|left; by rewrite Ee].
    + split; [right; left; by exists now|left; by rewrite Ee].
  - destruct (onSaveClick_ids (Some (row_habit row)) nameValue iconValue colorValue
                now w Hwf) as [[E|E] Ee].
    + split; [by left|left; by rewrite Ee].
    + split; [right; left; by exists now|left; by rewrite Ee].
  - rewrite onDeleteClick_exec. split.
    + right; right. exists (row_index row). unfold habit_ids, splice1. simpl.
      apply fmap_delete.
    + left. simpl. apply filter_bool_sublist.
  - destruct (onDayClick_store date w) as (Hh & Hs & _).
    split; [left; by apply habit_ids_same|left; by rewrite Hs].
  - unfold exec. destruct (boxes !! k) as [cb|] eqn:Hk.
    + rewrite (clickCheckbox_some _ _ _ _ _ Hk). simpl.
      split; [left; apply onChange_habit_ids|].
      rewrite onChange_entries. destruct (checked cb); simpl.
      * left. apply filter_bool_sublist.
      * right. eexists. split; [done|]. simpl.
        destruct Hui as [Hb _]. unfold habit_ids. rewrite <- Hb.
        rewrite <- list_fmap_compose. apply list_elem_of_fmap.
        exists cb. split; [done|]. by eapply list_elem_of_lookup_2.
    + rewrite (clickCheckbox_none _ _ _ _ Hk). simpl. split; by left.
  - split; by left.
  - split; [left|left].
    + by rewrite !habit_ids_data, Hreload.
    + by rewrite (f_equal data_entries Hreload : entries (settings (onload w)) = _).
  - rewrite onDeleteClick_exec. split.
    + right; right. exists (row_index row). unfold habit_ids, splice1. simpl.
      apply fmap_delete.
    + left. simpl. apply filter_bool_sublist.
  - rewrite onDeleteClick_exec. split.
    + right; right. exists (row_index row). unfold habit_ids, splice1. simpl.
      apply fmap_delete.
    + left. simpl. apply filter_bool_sublist.
  - split; by left.
  - split; by left.
  - destruct (onSaveClick_ids (Some habit) nameValue iconValue colorValue
                now w Hwf) as [[E|E] Ee].
    + split; [by left|left; by rewrite Ee].
    + split; [right; left; by exists now|left; by rewrite Ee].
  - split; by left.
Qed.

Lemma store_evolution_witness :
  let w' := exec (onSaveClick None (lit " Walk ") (lit "sun") (lit "#6366f1")
                    1700000000002) two_habits in
  reachable (two_habits, Idle) /\
  step (two_habits, Idle) (w', Idle) /\
  (entries (settings w') `sublist_of` entries (settings two_habits) \/
   exists e, entries (settings w') = entries (settings two_habits) ++ [e] /\
             HabitEntry.habitId e ∈ habit_ids two_habits).
Proof.
  intros w'.
  assert (H2 : step (two_habits, Idle) (w', Idle)) by apply step_add.
  exact (conj reachable_two_habits (conj H2
    (proj2 (store_evolution _ _ reachable_two_habits H2)))).
Defined.

(** ** The icon preview *)

Lemma falsy_nil (s : jsstring) : falsy s = true <-> s = [].
Proof. by destruct s. Qed.

Lemma tidy_icon_preview (h : Habit) (colorValue : jsstring) :
  tidy h ->
  updateIconPreview (Habit.icon h) colorValue = Some (Habit.icon h, colorValue).
Proof.
  intros (_ & Hi & _ & Hne). unfold updateIconPreview.
  rewrite trim_fixed by done. by destruct (Habit.icon h).
Qed.

(** X18. Once [updateIconPreview] has run, that is after an event of the
    icon input, of the colour picker or of a suggestion, the preview
    shows what Save stores: with a name entered, an empty preview means
    that Save refuses and leaves the store alone, and a preview showing
    an icon in a colour means that Save accepts and that the habit saved
    has that icon and that colour.  Before the first such event the
    preview is the one the modal opened with: nothing in an Add modal,
    and in the Edit modal of a listed habit the stored icon with no
    colour given to it, which is the icon the first update shows again,
    then in the colour of the picker, when the icon input still holds
    it. *)
Theorem preview_matches_save (w : World) (habit : option loc)
    (nameValue iconValue colorValue : jsstring) (now : Z) :
  trim nameValue <> [] ->
  match habit with Some r => is_Some (heap w !! r) | None => True end ->
  let w' := exec (onSaveClick habit nameValue iconValue colorValue now) w in
  let r := match habit with Some r => r | None => fresh (dom (heap w)) end in
  match updateIconPreview iconValue colorValue with
  | Some (i, c) =>
      eval (onSaveClick habit nameValue iconValue colorValue now) w = true /\
      Habit.icon (deref w' r) = i /\ Habit.color (deref w' r) = c
  | None =>
      eval (onSaveClick habit nameValue iconValue colorValue now) w = false /\
      heap w' = heap w /\ settings w' = settings w /\ disk w' = disk w
  end /\
  previewOnOpen None = None /\
  (forall ui row,
     reachable (w, ui) -> row ∈ eval display w ->
     let h := deref w (row_habit row) in
     previewOnOpen (Some h) = Some (Habit.icon h, None) /\
     updateIconPreview (Habit.icon h) colorValue = Some (Habit.icon h, colorValue)).
Proof.
  intros Hn Hlive w' r. split; [|split; [done|]].
  - unfold updateIconPreview.
    destruct (falsy (trim iconValue)) eqn:Ef.
    + apply falsy_nil in Ef. unfold w', exec, eval.
      by rewrite onSaveClick_no_icon.
    + assert (Hi : trim iconValue <> []).
      { intros E. apply falsy_nil in E. congruence. }
      destruct habit as [r0|]; unfold r, w'.
      * rewrite (edit_deref w r0 nameValue iconValue colorValue now Hn Hi Hlive).
        unfold eval. by rewrite onSaveClick_edit.
      * rewrite (add_deref_new w nameValue iconValue colorValue now Hn Hi).
        unfold eval. by rewrite onSaveClick_add.
  - intros ui row Hr Hrow h. split; [done|].
    apply tidy_icon_preview.
    destruct (reachable_inv _ Hr) as (_ & Htidy & _). simpl in Htidy.
    apply (proj1 (Forall_forall _ _) Htidy).
    apply display_rows in Hrow. by eapply list_elem_of_lookup_2.
Qed.

Lemma preview_matches_save_witness :
  trim (lit "Walk") <> [] /\ is_Some (heap two_habits !! 1%positive) /\
  match updateIconPreview (lit " sun ") (lit "#6366f1") with
  | Some (i, c) =>
      eval (onSaveClick (Some 1%positive) (lit "Walk") (lit " sun ") (lit "#6366f1") 0)
        two_habits = true /\
      Habit.icon
        (deref (exec (onSaveClick (Some 1%positive) (lit "Walk") (lit " sun ")
                        (lit "#6366f1") 0) two_habits) 1%positive) = i /\
      Habit.color
        (deref (exec (onSaveClick (Some 1%positive) (lit "Walk") (lit " sun ")
                        (lit "#6366f1") 0) two_habits) 1%positive) = c
  | None =>
      eval (onSaveClick (Some 1%positive) (lit "Walk") (lit " sun ") (lit "#6366f1") 0)
        two_habits = false /\
      heap (exec (onSaveClick (Some 1%positive) (lit "Walk") (lit " sun ")
                    (lit "#6366f1") 0) two_habits) = heap two_habits /\
      settings (exec (onSaveClick (Some 1%positive) (lit "Walk") (lit " sun ")
                        (lit "#6366f1") 0) two_habits) = settings two_habits /\
      disk (exec (onSaveClick (Some 1%positive) (lit "Walk") (lit " sun ")
                    (lit "#6366f1") 0) two_habits) = disk two_habits
  end.
Proof.
  assert (H1 : trim (lit "Walk") <> []) by (vm_compute; discriminate).
  assert (H2 : is_Some (heap two_habits !! 1%positive)).
  { destruct wf_two_habits as [_ Hl].
    apply (proj1 (Forall_forall _ _) Hl).
    assert (E : habits (settings two_habits) = [1%positive; 2%positive])
      by (vm_compute; reflexivity).
    rewrite E. left. }
  exact (conj H1 (conj H2
    (proj1 (preview_matches_save two_habits (Some 1%positive) (lit "Walk") (lit " sun ")
              (lit "#6366f1") 0 H1 H2)))).
Defined.

Lemma suggested_icons_plain :
  Forall (fun i => trim i = i /\ i <> []) SUGGESTED_ICONS.
Proof.
  unfold SUGGESTED_ICONS. apply Forall_fmap.
  repeat (apply Forall_cons; split;
          [unfold compose; split; [vm_compute; reflexivity|vm_compute; discriminate]|]).
  apply Forall_nil_2.
Qed.

(** X19. A click on a suggested icon fills the icon input with a name
    that the preview shows and that Save, given a name, stores letter for
    letter: none of the suggestions is empty or has white space at an
    end. *)
Theorem suggested_icon_saved (w : World) (iconName nameValue colorValue : jsstring)
    (now : Z) :
  iconName ∈ SUGGESTED_ICONS ->
  trim nameValue <> [] ->
  let value := fst (onSuggestionClick iconName colorValue) in
  let w' := exec (onSaveClick None nameValue value colorValue now) w in
  snd (onSuggestionClick iconName colorValue) = Some (iconName, colorValue) /\
  eval (onSaveClick None nameValue value colorValue now) w = true /\
  Habit.icon (deref w' (fresh (dom (heap w)))) = iconName.
Proof.
  intros Hin Hn value w'.
  destruct (proj1 (Forall_forall _ _) suggested_icons_plain _ Hin) as [Et Hne].
  assert (Hi : trim value <> []) by (unfold value; simpl; by rewrite Et).
  split.
  { unfold onSuggestionClick, updateIconPreview. simpl. rewrite Et.
    by destruct iconName. }
  split.
  { unfold eval. by rewrite onSaveClick_add. }
  unfold w'. rewrite (add_deref_new w nameValue value colorValue now Hn Hi).
  simpl. exact Et.
Qed.

Lemma suggested_icon_saved_witness :
  lit "heart" ∈ SUGGESTED_ICONS /\ trim (lit "Walk") <> [] /\
  snd (onSuggestionClick (lit "heart") (lit "#6366f1"))
  = Some (lit "heart", lit "#6366f1").
Proof.
  assert (H1 : lit "heart" ∈ SUGGESTED_ICONS).
  { unfold SUGGESTED_ICONS. apply list_elem_of_fmap. exists "heart"%string.
    split; [done|]. right. left. }
  assert (H2 : trim (lit "Walk") <> []) by (vm_compute; discriminate).
  exact (conj H1 (conj H2
    (proj1 (suggested_icon_saved initial (lit "heart") (lit "Walk") (lit "#6366f1") 0
              H1 H2)))).
Defined.

(** ** Opening the calendar *)

Lemma leavesOfType_from_app (i : nat) (type : jsstring) (l1 l2 : list jsstring) :
  leavesOfType_from i type (l1 ++ l2)
  = leavesOfType_from i type l1 ++ leavesOfType_from (i + length l1) type l2.
Proof.
  revert i. induction l1 as [|t l1 IH]; intros i; simpl.
  - by rewrite Nat.add_0_r.
  - rewrite IH. replace (S i + length l1)%nat with (i + S (length l1))%nat by lia.
    by destruct (str_eqb t type).
Qed.

Lemma leavesOfType_from_lookup (i : nat) (type : jsstring) (ws : list jsstring)
    (leaf : nat) :
  leaf ∈ leavesOfType_from i type ws <->
  (i <= leaf)%nat /\ ws !! (leaf - i)%nat = Some type.
Proof.
  revert i. induction ws as [|t ws IH]; intros i; simpl.
  - split; [by intros ?%elem_of_nil|by intros [_ ?]].
  - assert (Hrec : leaf ∈ leavesOfType_from (S i) type ws <->
                   (i < leaf)%nat /\ (t :: ws) !! (leaf - i)%nat = Some type).
    { rewrite IH. split.
      - intros [Hle Hl]. split; [lia|].
        replace (leaf - i)%nat with (S (leaf - S i)) by lia. done.
      - intros [Hlt Hl]. split; [lia|].
        replace (leaf - i)%nat with (S (leaf - S i)) in Hl by lia. done. }
    destruct (str_eqb t type) eqn:E.
    + apply str_eqb_eq in E as ->. rewrite elem_of_cons, Hrec. split.
      * intros [->|[Hlt Hl]]; [|split; [lia|done]].
        split; [lia|]. by rewrite Nat.sub_diag.
      * intros [Hle Hl]. destruct (decide (leaf = i)) as [->|Hne]; [by left|].
        right. split; [lia|done].
    + apply str_eqb_neq in E. rewrite Hrec. split.
      * intros [Hlt Hl]. split; [lia|done].
      * intros [Hle Hl]. split; [|done].
        destruct (decide (leaf = i)) as [->|Hne]; [|lia].
        rewrite Nat.sub_diag in Hl. simpl in Hl. congruence.
Qed.

Lemma leavesOfType_from_head (i : nat) (type : jsstring) (ws : list jsstring)
    (leaf : nat) (rest : list nat) :
  leavesOfType_from i type ws = leaf :: rest ->
  forall j, (j < leaf - i)%nat -> ws !! j <> Some type.
Proof.
  revert i. induction ws as [|t ws IH]; intros i; simpl; [done|].
  destruct (str_eqb t type) eqn:E.
  - intros [= <- _] j Hj. lia.
  - intros H j Hj. apply str_eqb_neq in E.
    destruct j as [|j]; simpl; [congruence|].
    apply (IH _ H).
    assert (Hin : leaf ∈ leavesOfType_from (S i) type ws) by (rewrite H; left).
    apply leavesOfType_from_lookup in Hin as [? _]. lia.
Qed.

Lemma leavesOfType_from_detached (i : nat) (type : jsstring) (ws : list jsstring) :
  leavesOfType_from i type (detachLeavesOfType type ws) = [].
Proof.
  revert i. induction ws as [|t ws IH]; intros i; [done|].
  unfold detachLeavesOfType in *. simpl.
  destruct (str_eqb t type) eqn:E; simpl; [apply IH|].
  rewrite E. apply IH.
Qed.

Lemma leavesOfType_from_none (i : nat) (type : jsstring) (ws : list jsstring) :
  leavesOfType_from i type ws = [] -> detachLeavesOfType type ws = ws.
Proof.
  revert i. induction ws as [|t ws IH]; intros i; [done|].
  unfold detachLeavesOfType in *. simpl.
  destruct (str_eqb t type) eqn:E; simpl; [done|].
  intros H. f_equal. by apply (IH (S i)).
Qed.

(** X20. Opening the calendar never makes a second calendar leaf: the
    first leaf that shows the calendar is revealed when there is one and
    the workspace is left as it is; otherwise one new leaf is added at
    the end, set to the calendar, and revealed.  The leaves that were
    there are untouched, opening again reveals the same leaf and changes
    nothing, and unloading the plugin leaves no calendar leaf and the
    other leaves as they were before the opening. *)
Theorem activate_view (ws : list jsstring) :
  let leaf := fst (activateView ws) in
  let ws' := snd (activateView ws) in
  ws' !! leaf = Some VIEW_TYPE_HABIT_CALENDAR /\
  (forall j, (j < leaf)%nat -> ws' !! j <> Some VIEW_TYPE_HABIT_CALENDAR) /\
  length (getLeavesOfType VIEW_TYPE_HABIT_CALENDAR ws')
  = Nat.max 1 (length (getLeavesOfType VIEW_TYPE_HABIT_CALENDAR ws)) /\
  ws `prefix_of` ws' /\
  (length ws' <= S (length ws))%nat /\
  activateView ws' = (leaf, ws') /\
  getLeavesOfType VIEW_TYPE_HABIT_CALENDAR (onunload ws') = [] /\
  onunload ws' = onunload ws.
Proof.
  intros leaf ws'. unfold leaf, ws', activateView, getLeavesOfType, onunload.
  destruct (leavesOfType_from 0 VIEW_TYPE_HABIT_CALENDAR ws) as [|l0 rest] eqn:E.
  - cbn [getLeaf_tab fst snd]. unfold setViewState.
    assert (Ews : <[length ws := VIEW_TYPE_HABIT_CALENDAR]> (ws ++ [lit "empty"])
                  = ws ++ [VIEW_TYPE_HABIT_CALENDAR]).
    { rewrite insert_app_r_alt by lia. by rewrite Nat.sub_diag. }
    rewrite Ews.
    assert (El : leavesOfType_from 0 VIEW_TYPE_HABIT_CALENDAR
                   (ws ++ [VIEW_TYPE_HABIT_CALENDAR]) = [length ws]).
    { rewrite leavesOfType_from_app, E. cbn [app leavesOfType_from Nat.add].
      by rewrite (proj2 (str_eqb_eq _ _) eq_refl). }
    rewrite El.
    split; [by rewrite lookup_app_r, Nat.sub_diag by lia|].
    split.
    { intros j Hj Hl. rewrite lookup_app_l in Hl by done.
      assert (Hin : j ∈ leavesOfType_from 0 VIEW_TYPE_HABIT_CALENDAR ws).
      { apply leavesOfType_from_lookup. split; [lia|]. by rewrite Nat.sub_0_r. }
      rewrite E in Hin. by apply elem_of_nil in Hin. }
    split; [done|]. split; [by apply prefix_app_r|].
    split; [rewrite length_app; simpl; lia|]. split; [done|].
    split; [apply leavesOfType_from_detached|].
    unfold detachLeavesOfType. rewrite List.filter_app. cbn [List.filter].
    rewrite (proj2 (str_eqb_eq _ _) eq_refl). simpl. apply app_nil_r.
  - cbn [fst snd]. rewrite E.
    assert (Hin : l0 ∈ leavesOfType_from 0 VIEW_TYPE_HABIT_CALENDAR ws)
      by (rewrite E; left).
    apply leavesOfType_from_lookup in Hin as [_ Hl]. rewrite Nat.sub_0_r in Hl.
    split; [done|]. split.
    { intros j Hj. apply (leavesOfType_from_head _ _ _ _ _ E). lia. }
    split; [simpl; lia|]. split; [done|]. split; [lia|]. split; [done|].
    split; [apply leavesOfType_from_detached|done].
Qed.

(** ** The view at the clock's month *)

Lemma TimeClip_in_years (t y m d : Z) :
  fields t = (y, m, d) -> -271820 <= y <= 275759 ->
  JSTime.TimeClip t = Some t.
Proof.
  intros Hf Hy. destruct (fields_inv _ _ _ _ Hf) as [[Hm Hd] E].
  pose proof (days_in_month_range y m).
  rewrite <- (MakeDate_Day t), E.
  apply TimeClip_MakeDate; [|apply TimeWithinDay_range].
  apply MakeDay_bound; lia.
Qed.

(** X21. When the view is created, and after a click on "Today", the
    date shown is the reading of the clock: the grid is the one of the
    clock's month and exactly one of its cells carries the class "today",
    the cell of the clock's day of the month.  The text of the empty
    state is shown exactly when there is no habit. *)
Theorem today_click (now : Z) (w : World) (year month d : Z) :
  fields now = (year, month, d) ->
  -271820 <= year <= 275759 -> ~ 0 <= year <= 99 ->
  let view := renderView (onTodayClick now) now w in
  onTodayClick now = Some now /\
  view_cells view = renderCalendar year month (JSTime.Day now) w /\
  List.filter cell_today (view_cells view)
  = [DayCell (dateStr year month (Some d)) true (toString d)
       (dayHabitsOf w (entriesForDay w (dateStr year month (Some d))))] /\
  (view_empty_state view = true <-> habits (settings w) = []).
Proof.
  intros Hf Hy Hq view. unfold view, onTodayClick.
  rewrite (TimeClip_in_years _ _ _ _ Hf Hy).
  destruct (fields_inv _ _ _ _ Hf) as [[Hm _] _].
  rewrite renderView_cells, Hf. simpl fst. simpl snd.
  split; [done|]. split; [done|]. split.
  - rewrite today_cells by done.
    injection Hf as Ey Em Ed. rewrite Ey, Em, Ed, !Z.eqb_refl. simpl.
    unfold dayCell. by rewrite Ey, Em, Ed, !Z.eqb_refl.
  - simpl. by destruct (habits (settings w)).
Qed.

Lemma today_click_witness :
  fields 1710500000000 = (2024, 2, 15) /\
  -271820 <= 2024 <= 275759 /\ ~ 0 <= 2024 <= 99 /\
  onTodayClick 1710500000000 = Some 1710500000000.
Proof.
  assert (H1 : fields 1710500000000 = (2024, 2, 15)) by (vm_compute; reflexivity).
  assert (H2 : -271820 <= 2024 <= 275759) by lia.
  assert (H3 : ~ 0 <= 2024 <= 99) by lia.
  exact (conj H1 (conj H2 (conj H3
    (proj1 (today_click 1710500000000 initial 2024 2 15 H1 H2 H3))))).
Defined.

(** ** The open picker *)

(** X22. While a picker is open, in every state the interface can reach
    with distinct habit ids, its checkboxes are the ones a picker opened
    afresh on the same date would have: one per habit, in order, checked
    exactly when the habit has an entry on the date. *)
Theorem picker_in_sync (w : World) (date : jsstring) (boxes : list Checkbox) :
  reachable (w, Picking date boxes) ->
  NoDup (habit_ids w) ->
  boxes = pickerOpen date w /\
  synced date boxes w /\
  length boxes = length (habits (settings w)).
Proof.
  intros Hr Hnd.
  destruct (reachable_inv _ Hr) as (_ & _ & _ & Hb & Hs). simpl in Hb, Hs.
  specialize (Hs Hnd).
  assert (Hlen : length boxes = length (habits (settings w)))
    by (by rewrite <- Hb, length_fmap).
  split; [|by split].
  apply list_eq. intros k.
  destruct (boxes !! k) as [cb|] eqn:Hk.
  - symmetry. apply pickerOpen_lookup. split.
    + by rewrite <- Hb, list_lookup_fmap, Hk.
    + exact (proj1 (Forall_lookup _ _) Hs k cb Hk).
  - symmetry. apply lookup_ge_None. apply lookup_ge_None in Hk.
    unfold pickerOpen. rewrite length_fmap. lia.
Qed.

Lemma picker_in_sync_witness :
  let date := lit "2024-03-05" in
  reachable (both_marked, Picking date (pickerOpen date both_marked)) /\
  NoDup (habit_ids both_marked) /\
  synced date (pickerOpen date both_marked) both_marked.
Proof.
  exact (conj reachable_both_marked (conj both_marked_ids_distinct
    (proj1 (proj2 (picker_in_sync _ _ _ reachable_both_marked
                     both_marked_ids_distinct))))).
Defined.

(** ** The summary counts days *)

Lemma in_month_grid (year month y m d : Z) :
  1000 <= year <= 9999 -> 0 <= month <= 11 ->
  1000 <= y <= 9999 -> Gregorian.valid y m d ->
  in_month year month (HabitEntry.mk [] (dateStr y m (Some d))) = true <->
  y = year /\ m = month.
Proof.
  intros Hyear Hmonth Hy V. destruct (valid_day_range _ _ _ V) as [Hm Hd].
  unfold in_month. simpl.
  rewrite monthStart_first, monthEnd_last by lia.
  pose proof (days_in_month_range year month) as Hdim.
  rewrite !dateStr_iso by lia.
  rewrite andb_true_iff, iso_date_geb, iso_date_leb by lia.
  unfold Gregorian.not_later, Gregorian.earlier.
  destruct V as [_ Hv]. split.
  - intros [[H1|H1] [H2|H2]]; simplify_eq; lia.
  - intros [-> ->]. split.
    + destruct (decide (d = 1)) as [->|]; [by right|left; lia].
    + destruct (decide (d = Gregorian.days_in_month year month)) as [->|]; [by right|].
      left. lia.
Qed.

Lemma in_month_date (year month : Z) (e e' : HabitEntry) :
  HabitEntry.date e = HabitEntry.date e' ->
  in_month year month e = in_month year month e'.
Proof. unfold in_month. by intros ->. Qed.

Lemma sum_list_zero {A} (f : A -> nat) (l : list A) :
  (forall x, x ∈ l -> f x = O) -> sum_list (f <$> l) = O.
Proof.
  induction l as [|x l IH]; [done|]. intros H. rewrite fmap_cons. simpl.
  rewrite (H x) by left. apply IH. intros y Hy. apply H. by right.
Qed.

(** An entry of a grid date is counted on one day of its month and on no
    day of any other month. *)
Lemma entry_day_count (year month : Z) (hid : jsstring) (e : HabitEntry) :
  1000 <= year <= 9999 -> 0 <= month <= 11 ->
  (HabitEntry.habitId e = hid ->
   exists y m d, 1000 <= y <= 9999 /\ Gregorian.valid y m d /\
                 HabitEntry.date e = dateStr y m (Some d)) ->
  sum_list
    ((fun day => if is_pair hid (dateStr year month (Some day)) e then 1 else 0)%nat
       <$> seqZ 1 (Gregorian.days_in_month year month))
  = (if str_eqb (HabitEntry.habitId e) hid && in_month year month e then 1 else 0)%nat.
Proof.
  intros Hyear Hmonth He.
  pose proof (days_in_month_range year month) as Hdim.
  destruct (str_eqb (HabitEntry.habitId e) hid) eqn:Eid.
  2:{ simpl. apply sum_list_zero. intros day _. unfold is_pair. by rewrite Eid. }
  apply str_eqb_eq in Eid. destruct (He Eid) as (y & m & d & Hy & V & Hdate).
  simpl andb.
  rewrite (in_month_date year month e (HabitEntry.mk [] (dateStr y m (Some d))))
    by done.
  destruct (in_month year month (HabitEntry.mk [] (dateStr y m (Some d)))) eqn:Ein.
  - apply in_month_grid in Ein as [-> ->]; [|done..].
    transitivity
      (sum_list ((fun j => if str_eqb (HabitEntry.date e) j && true then 1 else 0)%nat
                   <$> ((fun day => dateStr year month (Some day))
                          <$> seqZ 1 (Gregorian.days_in_month year month)))).
    + rewrite <- list_fmap_compose. f_equal. apply list_fmap_ext.
      intros _ day _. simpl. unfold is_pair.
      by rewrite (proj2 (str_eqb_eq _ _) Eid), andb_true_r.
    + apply (sum_id_matches true).
      * apply dateStr_days_NoDup. lia.
      * rewrite Hdate. apply list_elem_of_fmap. exists d. split; [done|].
        destruct V as [_ Hd]. apply elem_of_seqZ. lia.
  - apply sum_list_zero. intros day [Hd1 Hd2]%elem_of_seqZ.
    unfold is_pair. rewrite (proj2 (str_eqb_eq _ _) Eid). simpl.
    destruct (str_eqb (HabitEntry.date e) (dateStr year month (Some day))) eqn:E;
      [|done].
    apply str_eqb_eq in E. exfalso.
    assert (Hin : in_month year month
                    (HabitEntry.mk [] (dateStr year month (Some day))) = true).
    { apply in_month_grid; [done..| |done]. split; [done|lia]. }
    rewrite (in_month_date year month _ (HabitEntry.mk [] (dateStr y m (Some d))))
      in Hin by (simpl; congruence).
    congruence.
Qed.

Lemma days_marked_sum (year month : Z) (hid : jsstring) (es : list HabitEntry) :
  1000 <= year <= 9999 -> 0 <= month <= 11 ->
  Forall (fun e =>
            HabitEntry.habitId e = hid ->
            exists y m d, 1000 <= y <= 9999 /\ Gregorian.valid y m d /\
                          HabitEntry.date e = dateStr y m (Some d)) es ->
  sum_list
    ((fun day => pair_count hid (dateStr year month (Some day)) es)
       <$> seqZ 1 (Gregorian.days_in_month year month))
  = length (List.filter
              (fun e => str_eqb (HabitEntry.habitId e) hid && in_month year month e)
              es).
Proof.
  intros Hyear Hmonth. induction 1 as [|e es He Hes IH].
  - simpl. by apply sum_list_zero.
  - transitivity
      (sum_list
         ((fun day => if is_pair hid (dateStr year month (Some day)) e
                      then 1 else 0)%nat
            <$> seqZ 1 (Gregorian.days_in_month year month))
       + sum_list
           ((fun day => pair_count hid (dateStr year month (Some day)) es)
              <$> seqZ 1 (Gregorian.days_in_month year month)))%nat.
    + rewrite sum_list_fmap_add. f_equal. apply list_fmap_ext.
      intros _ day _. unfold pair_count. cbn [List.filter].
      by destruct (is_pair hid (dateStr year month (Some day)) e).
    + rewrite IH, entry_day_count by done. cbn [List.filter].
      by destruct (str_eqb (HabitEntry.habitId e) hid && in_month year month e).
Qed.

Lemma sum_list_flags {A} (f : A -> nat) (l : list A) :
  (forall x, x ∈ l -> (f x <= 1)%nat) ->
  sum_list (f <$> l) = length (List.filter (fun x => (0 <? f x)%nat) l).
Proof.
  induction l as [|x l IH]; [done|]. intros H. rewrite fmap_cons. cbn [List.filter].
  simpl sum_list. rewrite IH by (intros y Hy; apply H; by right).
  pose proof (H x ltac:(left)) as Hx.
  destruct (Nat.ltb_spec 0 (f x)); simpl; lia.
Qed.

(** X23. The count of a habit in the summary of a month of a four-digit
    year is the number of days of that month on which the habit is
    marked, when each (habit, date) pair occurs at most once and the
    entries of the habit carry dates made by the calendar grid in
    four-digit years: the label "days" of the summary is right. *)
Theorem count_is_days_marked (w : World) (habit : loc) (year month : Z) :
  1000 <= year <= 9999 -> 0 <= month <= 11 ->
  let hid := Habit.id (deref w habit) in
  (forall e, e ∈ entries (settings w) -> HabitEntry.habitId e = hid ->
     exists y m d, 1000 <= y <= 9999 /\ Gregorian.valid y m d /\
                   HabitEntry.date e = dateStr y m (Some d)) ->
  (forall date, (pair_count hid date (entries (settings w)) <= 1)%nat) ->
  monthlyCount w habit year month =
  length
    (List.filter
       (fun day =>
          (0 <? pair_count hid (dateStr year month (Some day))
                  (entries (settings w)))%nat)
       (seqZ 1 (Gregorian.days_in_month year month))) /\
  (monthlyCount w habit year month <= 31)%nat.
Proof.
  intros Hyear Hmonth hid Hgrid Hone.
  assert (E : monthlyCount w habit year month =
              length
                (List.filter
                   (fun day =>
                      (0 <? pair_count hid (dateStr year month (Some day))
                              (entries (settings w)))%nat)
                   (seqZ 1 (Gregorian.days_in_month year month)))).
  { rewrite monthlyCount_in_month. fold hid.
    rewrite <- (days_marked_sum year month hid) by
      (done || (apply Forall_forall; intros e He; by apply Hgrid)).
    apply (sum_list_flags
             (fun day => pair_count hid (dateStr year month (Some day))
                           (entries (settings w)))).
    intros day _. apply Hone. }
  split; [done|]. rewrite E.
  pose proof (days_in_month_range year month).
  etransitivity; [apply filter_length_le|]. rewrite length_seqZ. lia.
Qed.

Lemma count_is_days_marked_witness :
  let hid := Habit.id (deref january 1%positive) in
  1000 <= 2024 <= 9999 /\ 0 <= 0 <= 11 /\
  (forall e, e ∈ entries (settings january) -> HabitEntry.habitId e = hid ->
     exists y m d, 1000 <= y <= 9999 /\ Gregorian.valid y m d /\
                   HabitEntry.date e = dateStr y m (Some d)) /\
  (forall date, (pair_count hid date (entries (settings january)) <= 1)%nat) /\
  (monthlyCount january 1%positive 2024 0 <= 31)%nat.
Proof.
  intros hid.
  assert (H1 : 1000 <= 2024 <= 9999) by lia.
  assert (H2 : 0 <= 0 <= 11) by lia.
  assert (Ee : entries (settings january)
               = [HabitEntry.mk (lit "1700000000000") (lit "2024-01-01");
                  HabitEntry.mk (lit "1700000000000") (lit "2024-01-31");
                  HabitEntry.mk (lit "1700000000000") (lit "2024-02-01")])
    by (vm_compute; reflexivity).
  assert (H3 : forall e, e ∈ entries (settings january) ->
               HabitEntry.habitId e = hid ->
               exists y m d, 1000 <= y <= 9999 /\ Gregorian.valid y m d /\
                             HabitEntry.date e = dateStr y m (Some d)).
  { intros e He _. rewrite Ee in He.
    apply elem_of_cons in He as [->|He]; [exists 2024, 0, 1|
    apply elem_of_cons in He as [->|He]; [exists 2024, 0, 31|
    apply elem_of_cons in He as [->|He]; [exists 2024, 1, 1|
    by apply elem_of_nil in He]]];
    (split; [lia|]; split; [split; [lia|vm_compute; split; discriminate]|];
     vm_compute; reflexivity). }
  assert (H4 : forall date,
               (pair_count hid date (entries (settings january)) <= 1)%nat).
  { intros date. rewrite Ee. unfold pair_count, hid.
    assert (Eh : Habit.id (deref january 1%positive) = lit "1700000000000")
      by (vm_compute; reflexivity).
    rewrite Eh. cbn [List.filter]. unfold is_pair. cbn [HabitEntry.habitId HabitEntry.date].
    rewrite (proj2 (str_eqb_eq _ _) eq_refl). cbn [andb].
    destruct (str_eqb (lit "2024-01-01") date) eqn:E1;
      destruct (str_eqb (lit "2024-01-31") date) eqn:E2;
      destruct (str_eqb (lit "2024-02-01") date) eqn:E3;
      try apply str_eqb_eq in E1; try apply str_eqb_eq in E2;
      try apply str_eqb_eq in E3; subst; try discriminate; simpl; lia. }
  exact (conj H1 (conj H2 (conj H3 (conj H4
    (proj2 (count_is_days_marked january 1%positive 2024 0 H1 H2 H3 H4)))))).
Defined.

(** * Sanity checks of the embedding *)

Example toString_clock : toString 1700000000000 = lit "1700000000000".
Proof. vm_compute. reflexivity. Qed.

Example toString_negative : toString (-5) = lit "-5".
Proof. vm_compute. reflexivity. Qed.

Example padStart_month : padStart (toString 2) 2 (lit "0") = lit "02".
Proof. vm_compute. reflexivity. Qed.

Example trim_both_ends : trim (lit "  ab c ") = lit "ab c".
Proof. vm_compute. reflexivity. Qed.

Example february_2024 :
  JSDate.getDate (JSDate.construct 2024 2 0) = Some 29 /\
  JSDate.getDay (JSDate.construct 2024 1 1) = Some 4.
Proof. vm_compute. split; reflexivity. Qed.

Example two_digit_year :
  JSDate.getFullYear (JSDate.construct 50 0 1) = Some 1950 /\
  JSDate.getDate (JSDate.construct 0 2 0) = Some 28.
Proof. vm_compute. split; reflexivity. Qed.

Example date_fields :
  JSDate.getFullYear (JSDate.construct 1969 11 31) = Some 1969 /\
  JSDate.getMonth (JSDate.construct 1969 12 0) = Some 11 /\
  JSDate.getDate (JSDate.construct (-1) 12 0) = Some 31.
Proof. vm_compute. repeat split; reflexivity. Qed.

Example summary_of_january :
  summaryOpen 2024 0 january
  = SummaryList [(mkIcon (lit "#ffffff") (lit "book") (lit "Read"), 2%nat)].
Proof. vm_compute. reflexivity. Qed.
